(** * VibeCoding: the auto-fix pipeline, the versioned file store and the
    LLM client factory, embedded from the TypeScript sources.

    Source files embedded here:
    - [src/fileManager.ts]   : [FileManager] (writeFile, readFile, revertToVersion, ...)
    - [src/errorRecovery.ts] : [ErrorRecovery] (analyzeAndFix and its helpers)
    - [src/autoCoder.ts]     : [AutoCoder] (startAutoMode, testAndFix, ...)
    - [src/terminalManager.ts] : [TerminalManager.runCommand]
    - [src/settingsManager.ts] : [SettingsManager.getConfiguration]
    - [src/AIClients.ts], [src/ollamaClient.ts] : the clients and [createLLMClient]

    Asynchronous code is embedded as a state-and-exception monad over a
    [World] holding the file system, the unsaved documents of the editor,
    the mutable fields of the objects and the trace of calls made to the
    host (terminal, HTTP, logger, editor).
    What the host answers is a parameter ([Host]).  One pipeline runs at a
    time and every [await] is sequential, so interleavings are not modelled;
    a command whose terminal never reports an exit status (the poll of
    [runCommand] never ends) is not modelled either.

    Strings are sequences of 8-bit code units (U+0000 to U+00FF); a text
    with a character beyond them is not a string of this development.  The
    version counter, a JavaScript number, is a natural number. *)

From Stdlib Require Import QArith Ascii String.
From stdpp Require Import gmap strings list pretty.

Open Scope string_scope.

(* ================================================================= *)
(** ** Values *)

(** [new Error(message)] *)
Record JsError := mkError { message : string }.

(** How an awaited promise ends. *)
Inductive Outcome (A : Type) : Type :=
| Resolved (a : A)
| Rejected (e : JsError).
Arguments Resolved {A} a.
Arguments Rejected {A} e.

(** A promise object: creating it never throws; only awaiting it exposes
    the way it settles. *)
Inductive Promise (A : Type) : Type :=
| promise (settles : Outcome A).
Arguments promise {A} settles.

Inductive LogLevel := debug | info | warn | error.

Inductive Action := created | modified.

(** [interface ChangeRecord] of fileManager.ts *)
Record ChangeRecord := mkChangeRecord {
  filePath : string;
  version : nat;
  timestamp : string;
  originalPath : string;
  action : Action
}.

(** The part of a generation request that the claims read: where it is
    posted, and the model, prompt and sampling options of its body.  A
    body with no such option has [None]. *)
Record Request := mkRequest {
  req_baseURL : string;
  req_path : string;
  req_model : string;
  req_prompt : string;
  req_num_ctx : option nat;
  req_temperature : option Q
}.

(** Calls made to the host, in the order they are made. *)
Inductive Event :=
| EvLogger (lvl : LogLevel) (msg : string)    (* Logger.debug/info/warn/error *)
| EvProgress (msg : string)                   (* the [log] callback of startAutoMode *)
| EvReport (msg : string)                     (* progress.report *)
| EvSendText (command : string)               (* terminal.sendText *)
| EvHttpGet (url : string) (timeout : nat)    (* axios.get *)
| EvHttpPost (req : Request)                  (* the HTTP request of a generateCode *)
| EvOpenAI (prompt : string) (temperature : option Q) (* OpenAIClient.generateCode *)
| EvFsWrite (uri content : string)            (* vscode.workspace.fs.writeFile *)
| EvApplyEdit (uri content : string) (ok : bool) (* vscode.workspace.applyEdit *)
| EvMkdir (uri : string)                      (* vscode.workspace.fs.createDirectory *)
| EvSaveAll.                                  (* workbench.action.files.saveAll *)

(** The mutable state: files on disk (URI to text), the [changeHistory]
    array of every [FileManager] object and the [model] field of every
    client object (by object identity), the [isRunning] field of the
    [AutoCoder], the number of clock readings made so far, the trace, and
    the text of the editor's documents that are not saved (URI to text):
    what [vscode.workspace.fs] and [fs] read is [files], never [buffers]. *)
Record World := mkWorld {
  files : gmap string string;
  heap : gmap nat (list ChangeRecord);
  models : gmap nat string;
  isRunning : bool;
  ticks : nat;
  events : list Event;
  buffers : gmap string string
}.

Definition set_files (f : gmap string string → gmap string string) (w : World) : World :=
  mkWorld (f (files w)) (heap w) (models w) (isRunning w) (ticks w) (events w) (buffers w).
Definition set_heap (f : gmap nat (list ChangeRecord) → gmap nat (list ChangeRecord))
    (w : World) : World :=
  mkWorld (files w) (f (heap w)) (models w) (isRunning w) (ticks w) (events w) (buffers w).
Definition set_models (f : gmap nat string → gmap nat string) (w : World) : World :=
  mkWorld (files w) (heap w) (f (models w)) (isRunning w) (ticks w) (events w) (buffers w).
Definition set_isRunning (b : bool) (w : World) : World :=
  mkWorld (files w) (heap w) (models w) b (ticks w) (events w) (buffers w).
Definition set_ticks (f : nat → nat) (w : World) : World :=
  mkWorld (files w) (heap w) (models w) (isRunning w) (f (ticks w)) (events w) (buffers w).
Definition add_event (e : Event) (w : World) : World :=
  mkWorld (files w) (heap w) (models w) (isRunning w) (ticks w) (events w ++ [e]) (buffers w).
Definition set_buffers (f : gmap string string → gmap string string) (w : World) : World :=
  mkWorld (files w) (heap w) (models w) (isRunning w) (ticks w) (events w) (f (buffers w)).

(** What the editor host, the clock, the shell and the providers answer. *)
Record Host := mkHost {
  (** [new Date().toISOString()] at the n-th clock reading *)
  isoTime : nat → string;
  (** [Date.now()] at the n-th clock reading *)
  epochMs : nat → nat;
  (** exit status reported for a command sent to the terminal *)
  exitCode : string → World → Z;
  (** what awaiting a generation request gives: the text extracted from the
      response, or the transport error *)
  completion : Request → World → Outcome string;
  (** whether an endpoint answers a GET *)
  reachable : string → bool;
  (** the boolean that [vscode.workspace.applyEdit] resolves to *)
  editApplies : string → string → World → bool;
  (** [JSON.parse] of a change-history log *)
  jsonParse : string → option (list ChangeRecord);
  (** [vscode.workspace.workspaceFolders?.[0]?.uri.fsPath] *)
  workspaceFolder : option string;
  (** [OpenAIClient.generateCode] of src/openAIClient.ts, which is not among
      the sources: what it resolves to for a prompt and a temperature option *)
  openaiGenerate : string → option Q → World → Outcome string
}.

(* ================================================================= *)
(** ** The monad of asynchronous code *)

Definition Async (A : Type) : Type := World → Outcome A * World.

Definition ret {A} (a : A) : Async A := λ w, (Resolved a, w).

Definition bind {A B} (m : Async A) (k : A → Async B) : Async B :=
  λ w, match m w with
       | (Resolved a, w') => k a w'
       | (Rejected e, w') => (Rejected e, w')
       end.

Notation "'let*' x ':=' m 'in' k" := (bind m (λ x, k))
  (at level 10, x binder, m at level 100, k at level 200).
Notation "'do' m 'then' k" := (bind m (λ _, k))
  (at level 10, m at level 100, k at level 200).

(** [throw e] *)
Definition throw {A} (e : JsError) : Async A := λ w, (Rejected e, w).

(** [try { m } catch (e) { ... }] with the outcome of [m] handed to the
    continuation. *)
Definition attempt {A} (m : Async A) : Async (Outcome A) :=
  λ w, let '(r, w') := m w in (Resolved r, w').

(** [try { m } finally { fin }] *)
Definition finally {A} (m : Async A) (fin : Async unit) : Async A :=
  let* r := attempt m in
  do fin then
  match r with
  | Resolved a => ret a
  | Rejected e => throw e
  end.

(** [await p] *)
Definition await {A} (p : Promise A) : Async A :=
  match p with
  | promise (Resolved a) => ret a
  | promise (Rejected e) => throw e
  end.

Definition emit (e : Event) : Async unit := λ w, (Resolved tt, add_event e w).

Definition get_world : Async World := λ w, (Resolved w, w).

(** One clock reading. *)
Definition tick : Async nat := λ w, (Resolved (ticks w), set_ticks S w).

(* ================================================================= *)
(** ** Logger (src/logger.ts): the calls, as trace events *)

Definition logger_info (msg : string) : Async unit := emit (EvLogger info msg).
Definition logger_warn (msg : string) : Async unit := emit (EvLogger warn msg).
Definition logger_error (msg : string) : Async unit := emit (EvLogger error msg).

(* ================================================================= *)
(** ** Strings *)

(** [s.replace(/[...]/g, by)] for a character class given as a predicate. *)
Fixpoint replaceClass (cls : ascii → bool) (by_ : ascii) (s : string) : string :=
  match s with
  | EmptyString => EmptyString
  | String c s' => String (if cls c then by_ else c) (replaceClass cls by_ s')
  end.

Definition is_slash_or_colon (c : ascii) : bool :=
  (Ascii.eqb c "/" || Ascii.eqb c ":")%char.
Definition is_colon_or_dot (c : ascii) : bool :=
  (Ascii.eqb c ":" || Ascii.eqb c ".")%char.

(** [Uri.joinPath(base, segment)], without the normalisation of [.] and
    [..] segments. *)
Definition joinPath (base segment : string) : string := base +:+ "/" +:+ segment.

(** [path.basename(p)] (POSIX): the last non-empty segment between
    slashes.  [cur] is the segment being read, [last] the last one ended. *)
Fixpoint basename_aux (last cur : string) (s : string) : string :=
  match s with
  | EmptyString => if String.eqb cur EmptyString then last else cur
  | String c s' =>
      if Ascii.eqb c "/"%char
      then basename_aux (if String.eqb cur EmptyString then last else cur) EmptyString s'
      else basename_aux last (cur +:+ String c EmptyString) s'
  end.
Definition basename (p : string) : string := basename_aux EmptyString EmptyString p.

(* ----------------------------------------------------------------- *)
(** *** [JSON.stringify(changeHistory, null, 2)] *)

Definition hex_digit (n : nat) : ascii :=
  match n with
  | 0 => "0" | 1 => "1" | 2 => "2" | 3 => "3" | 4 => "4" | 5 => "5" | 6 => "6"
  | 7 => "7" | 8 => "8" | 9 => "9" | 10 => "a" | 11 => "b" | 12 => "c"
  | 13 => "d" | 14 => "e" | _ => "f"
  end%char.

Definition dquote : string := String (ascii_of_nat 34) EmptyString.

Definition json_escape_char (c : ascii) : string :=
  let n := nat_of_ascii c in
  if (n =? 34)%nat then "\" +:+ dquote
  else if Ascii.eqb c "\"%char then "\\"
  else if (n =? 8)%nat then "\b"
  else if (n =? 9)%nat then "\t"
  else if (n =? 10)%nat then "\n"
  else if (n =? 12)%nat then "\f"
  else if (n =? 13)%nat then "\r"
  else if (n <? 32)%nat then "\u00" +:+ String (hex_digit (n / 16)) (String (hex_digit (n mod 16)) "")
  else String c "".

Fixpoint json_escape (s : string) : string :=
  match s with
  | EmptyString => EmptyString
  | String c s' => json_escape_char c +:+ json_escape s'
  end.

Definition json_string (s : string) : string := dquote +:+ json_escape s +:+ dquote.

Definition json_field (indent key value : string) : string :=
  indent +:+ dquote +:+ key +:+ dquote +:+ ": " +:+ value.

Definition newline : string := String (ascii_of_nat 10) "".

Definition action_name (a : Action) : string :=
  match a with created => "created" | modified => "modified" end.

Definition json_record (r : ChangeRecord) : string :=
  "  {" +:+ newline +:+
  json_field "    " "filePath" (json_string (filePath r)) +:+ "," +:+ newline +:+
  json_field "    " "version" (pretty (version r)) +:+ "," +:+ newline +:+
  json_field "    " "timestamp" (json_string (timestamp r)) +:+ "," +:+ newline +:+
  json_field "    " "originalPath" (json_string (originalPath r)) +:+ "," +:+ newline +:+
  json_field "    " "action" (json_string (action_name (action r))) +:+ newline +:+
  "  }".

Fixpoint json_records (l : list ChangeRecord) : string :=
  match l with
  | [] => ""
  | [r] => json_record r +:+ newline
  | r :: l' => json_record r +:+ "," +:+ newline +:+ json_records l'
  end.

Definition JSON_stringify (l : list ChangeRecord) : string :=
  match l with
  | [] => "[]"
  | _ => "[" +:+ newline +:+ json_records l +:+ "]"
  end.

(* ================================================================= *)
(** ** The file-system calls of the host *)

Definition enoent (call uri : string) : JsError :=
  mkError ("ENOENT: no such file or directory, " +:+ call +:+ " '" +:+ uri +:+ "'").

(** [vscode.workspace.fs.stat(uri)] *)
Definition fs_stat (uri : string) : Async unit := λ w,
  match files w !! uri with
  | Some _ => (Resolved tt, w)
  | None => (Rejected (enoent "stat" uri), w)
  end.

(** [vscode.workspace.fs.readFile(uri)] decoded, and [fs.readFile(path, 'utf-8')] *)
Definition fs_readFile (uri : string) : Async string := λ w,
  match files w !! uri with
  | Some content => (Resolved content, w)
  | None => (Rejected (enoent "open" uri), w)
  end.

(** [vscode.workspace.fs.writeFile(uri, encoded)] *)
Definition fs_writeFile (uri content : string) : Async unit := λ w,
  (Resolved tt, add_event (EvFsWrite uri content) (set_files (insert uri content) w)).

(** [vscode.workspace.fs.createDirectory(uri)]: no error when it exists. *)
Definition fs_createDirectory (uri : string) : Async unit := emit (EvMkdir uri).

(** [vscode.workspace.applyEdit(edit)] for the edit that [writeFile] builds:
    [createFile(uri, {overwrite: true})] then [insert(uri, (0,0), content)].
    When the edit applies, the file operation leaves an empty file on disk
    (over the one that was there) and the text edit puts [content] in the
    document of the editor, which nothing saves: the text is in [buffers],
    not in [files].  An edit that does not apply leaves both as they were. *)
Definition applyEdit (h : Host) (uri content : string) : Async bool := λ w,
  let ok := editApplies h uri content w in
  (Resolved ok,
   add_event (EvApplyEdit uri content ok)
     (if ok then set_buffers (insert uri content) (set_files (insert uri EmptyString) w)
      else w)).

(** [vscode.commands.executeCommand('workbench.action.files.saveAll')]: the
    documents that are not saved are written to disk. *)
Definition saveAll : Async unit := λ w,
  (Resolved tt,
   add_event EvSaveAll (set_buffers (λ _, ∅) (set_files (λ f, buffers w ∪ f) w))).

(* ================================================================= *)
(** ** FileManager (src/fileManager.ts) *)

(** A [FileManager] object: its workspace root and its identity, under
    which the [World] keeps its [changeHistory] array. *)
Record FileManager := mkFileManager { workspaceRoot : string; self : nat }.

Definition historyDir (fm : FileManager) : string :=
  joinPath (joinPath (workspaceRoot fm) ".vibe") "history".
Definition historyFile (fm : FileManager) : string :=
  joinPath (joinPath (workspaceRoot fm) ".vibe") "changeHistory.json".

(** [this.changeHistory] *)
Definition changeHistory (fm : FileManager) (w : World) : list ChangeRecord :=
  default [] (heap w !! self fm).

Definition read_changeHistory (fm : FileManager) : Async (list ChangeRecord) :=
  λ w, (Resolved (changeHistory fm w), w).

(** [this.changeHistory = l] *)
Definition assign_changeHistory (fm : FileManager) (l : list ChangeRecord) : Async unit :=
  λ w, (Resolved tt, set_heap (insert (self fm) l) w).

(** [this.changeHistory.push(r)] *)
Definition push_changeHistory (fm : FileManager) (r : ChangeRecord) : Async unit :=
  λ w, (Resolved tt, set_heap (insert (self fm) ((changeHistory fm w ++ [r])%list)) w).

(** [saveHistory] *)
Definition saveHistory (fm : FileManager) : Async unit :=
  let* hist := read_changeHistory fm in
  fs_writeFile (historyFile fm) (JSON_stringify hist).

(** [readFile] *)
Definition readFile (fm : FileManager) (relativePath : string) : Async string :=
  fs_readFile (joinPath (workspaceRoot fm) relativePath).

(** [createDirectory] *)
Definition createDirectory (fm : FileManager) (relativePath : string) : Async unit :=
  do fs_createDirectory (joinPath (workspaceRoot fm) relativePath) then
  logger_info ("Created directory " +:+ relativePath).

(** [fileExists] *)
Definition fileExists (uri : string) : Async bool :=
  let* r := attempt (fs_stat uri) in
  match r with
  | Resolved _ => ret true
  | Rejected _ => ret false
  end.

(** The version that [writeFile] gives to its record:
    [existing.length > 0 ? Math.max(...existing.map(r => r.version)) + 1 : 1]
    with [existing] the records of [relativePath]. *)
Definition nextVersion (hist : list ChangeRecord) (relativePath : string) : nat :=
  let existing := filter (λ r, filePath r = relativePath) hist in
  if (0 <? length existing)%nat then max_list (version <$> existing) + 1 else 1.

(** The name of the backup file of a write. *)
Definition historyFileName (relativePath : string) (version : nat) (timestamp : string)
    : string :=
  let safeName := replaceClass is_slash_or_colon "_" relativePath in
  safeName +:+ "_v" +:+ pretty version +:+ "_"
    +:+ replaceClass is_colon_or_dot "-" timestamp.

(** [writeFile] *)
Definition writeFile (h : Host) (fm : FileManager) (relativePath content : string)
    : Async unit :=
  let fileUri := joinPath (workspaceRoot fm) relativePath in
  (* Determine version number *)
  let* hist := read_changeHistory fm in
  let version := nextVersion hist relativePath in
  let* now := tick in
  let timestamp := isoTime h now in
  let historyUri := joinPath (historyDir fm) (historyFileName relativePath version timestamp) in
  (* Backup existing content if file exists *)
  let* present := fileExists fileUri in
  let* action :=
    (if present : bool then
       let* oldContent := readFile fm relativePath in
       do fs_writeFile historyUri oldContent then
       do logger_info ("Backed up " +:+ relativePath +:+ " version " +:+ pretty version) then
       ret modified
     else ret created) in
  (* Record change *)
  do push_changeHistory fm (mkChangeRecord relativePath version timestamp historyUri action) then
  do saveHistory fm then
  (* Apply new content *)
  let* success := applyEdit h fileUri content in
  if success : bool then logger_info ("Wrote file " +:+ relativePath)
  else
    do logger_error ("Failed to write file " +:+ relativePath) then
    throw (mkError ("Failed to write file: " +:+ relativePath)).

(** [getChangeHistory(filePath?)] *)
Definition getChangeHistory (fm : FileManager) (filePath_ : option string) (w : World)
    : list ChangeRecord :=
  match filePath_ with
  | Some p => filter (λ r, filePath r = p) (changeHistory fm w)
  | None => changeHistory fm w
  end.

(** [this.changeHistory.find(r => r.filePath === filePath && r.version === version)] *)
Definition findRecord (hist : list ChangeRecord) (p : string) (v : nat)
    : option ChangeRecord :=
  snd <$> list_find (λ r, filePath r = p ∧ version r = v) hist.

(** [revertToVersion] *)
Definition revertToVersion (h : Host) (fm : FileManager) (p : string) (v : nat)
    : Async unit :=
  let* hist := read_changeHistory fm in
  match findRecord hist p v with
  | None => throw (mkError ("Version " +:+ pretty v +:+ " of " +:+ p +:+ " not found"))
  | Some record =>
      let* content := fs_readFile (originalPath record) in
      do writeFile h fm p content then
      logger_info ("Reverted " +:+ p +:+ " to version " +:+ pretty v)
  end.

(** [initialize] *)
Definition initialize (h : Host) (fm : FileManager) : Async unit :=
  do fs_createDirectory (historyDir fm) then
  let* loaded := attempt (
    let* data := fs_readFile (historyFile fm) in
    match jsonParse h data with
    | Some l =>
        do assign_changeHistory fm l then
        logger_info "Loaded existing change history"
    | None => throw (mkError "SyntaxError: Unexpected token in JSON")
    end) in
  match loaded with
  | Resolved _ => ret tt
  | Rejected _ =>
      do assign_changeHistory fm [] then
      do saveHistory fm then
      logger_info "Initialized new change history"
  end.

(** [new FileManager(workspaceRoot, logger)]: a new object with an empty
    [changeHistory], then [initialize()], which the constructor starts
    without awaiting it and which is run to its end here. *)
Definition new_FileManager (h : Host) (root : string) : Async FileManager :=
  let* w := get_world in
  let fm := mkFileManager root (fresh (dom (heap w))) in
  do assign_changeHistory fm [] then
  let* _ := attempt (initialize h fm) in
  ret fm.

(* ================================================================= *)
(** ** SettingsManager (src/settingsManager.ts) *)

(** The [vibecoding] configuration section: the value stored under a key,
    if any. *)
Record Settings := mkSettings {
  cfg_string : string → option string;
  cfg_bool : string → option bool
}.

(** [getConfiguration<string>(key, defaultValue)]: the stored value, else
    the default; throws when both are undefined. *)
Definition getConfiguration (s : Settings) (key : string) (defaultValue : option string)
    : Async string :=
  let value := match cfg_string s key with Some v => Some v | None => defaultValue end in
  match value with
  | Some v => ret v
  | None => throw (mkError ("Configuration 'vibecoding." +:+ key +:+ "' is undefined"))
  end.

(** [isTelemetryEnabled] *)
Definition isTelemetryEnabled (s : Settings) : bool :=
  default false (cfg_bool s "enableTelemetry").

(* ================================================================= *)
(** ** TerminalManager (src/terminalManager.ts) *)

(** [runCommand]: the command is sent to the terminal; once an exit status
    is reported the promise resolves on 0 and rejects otherwise. *)
Definition runCommand (h : Host) (command workspacePath : string) : Async unit :=
  do emit (EvSendText command) then
  let* w := get_world in
  let code := exitCode h command w in
  if (code =? 0)%Z then logger_info ("Command executed successfully: " +:+ command)
  else
    let errorMessage := "Command failed: " +:+ command +:+ ", Exit code: " +:+ pretty code in
    do logger_error errorMessage then
    throw (mkError errorMessage).

(* ================================================================= *)
(** ** Regular expressions and [String.prototype.replace] *)

(** The regular expressions of errorRecovery.ts are sequences of literals,
    [.+], [c+] and one capture group. *)
Inductive Atom :=
| Lit (s : string)       (* literal characters *)
| AnyPlus                (* [.+], greedy; [.] is any character but a line terminator *)
| CharPlus (c : ascii)   (* [c+], greedy *)
| GroupOpen              (* [(] *)
| GroupClose.            (* [)] *)

Definition Regex := list Atom.

(** Capture group 1 while matching. *)
Record Capture := mkCapture { recording : bool; captured : string }.

Definition consume (s : string) (k : Capture) : Capture :=
  if recording k then mkCapture true (captured k +:+ s) else k.

(** The line terminators among 8-bit code units: LF and CR. *)
Definition is_line_terminator (c : ascii) : bool :=
  let n := nat_of_ascii c in ((n =? 10)%nat || (n =? 13)%nat).

(** What is left of [s] after the literal [l], if [s] starts with it. *)
Fixpoint match_lit (l s : string) : option string :=
  match l with
  | EmptyString => Some s
  | String a l' =>
      match s with
      | String b s' => if Ascii.eqb a b then match_lit l' s' else None
      | EmptyString => None
      end
  end.

(** One or more characters satisfying [ok], the longest run first, giving
    back characters until the rest of the expression ([k]) matches. *)
Fixpoint plus_greedy (ok : ascii → bool) (k : string → Capture → option string)
    (s : string) (cap : Capture) : option string :=
  match s with
  | EmptyString => None
  | String c s' =>
      if ok c then
        let cap' := consume (String c EmptyString) cap in
        match plus_greedy ok k s' cap' with
        | Some r => Some r
        | None => k s' cap'
        end
      else None
  end.

(** Match [re] at the start of [s]; gives the text of group 1. *)
Fixpoint match_here (re : Regex) (s : string) (cap : Capture) : option string :=
  match re with
  | [] => Some (captured cap)
  | Lit l :: re' =>
      match match_lit l s with
      | Some rest => match_here re' rest (consume l cap)
      | None => None
      end
  | AnyPlus :: re' => plus_greedy (λ c, negb (is_line_terminator c)) (match_here re') s cap
  | CharPlus c :: re' => plus_greedy (Ascii.eqb c) (match_here re') s cap
  | GroupOpen :: re' => match_here re' s (mkCapture true EmptyString)
  | GroupClose :: re' => match_here re' s (mkCapture false (captured cap))
  end.

(** [regex.exec(s)] and [s.match(regex)] for an expression without flags:
    the leftmost match; the result is [m[1]]. *)
Fixpoint regex_exec (re : Regex) (s : string) : option string :=
  match match_here re s (mkCapture false EmptyString) with
  | Some g => Some g
  | None =>
      match s with
      | EmptyString => None
      | String _ s' => regex_exec re s'
      end
  end.

(** The first occurrence of [pat] in [s]: what precedes and what follows it. *)
Fixpoint split_first (pat s : string) : option (string * string) :=
  match match_lit pat s with
  | Some rest => Some (EmptyString, rest)
  | None =>
      match s with
      | EmptyString => None
      | String c s' =>
          match split_first pat s' with
          | Some (before, after) => Some (String c before, after)
          | None => None
          end
      end
  end.

(** GetSubstitution of ECMAScript for a string pattern (no captures): in
    the replacement text, [$$] is a dollar, [$&] the matched text, [$`]
    what precedes the match and [$'] what follows it; any other dollar
    stands for itself. *)
Fixpoint getSubstitution (matched before after : string) (replacement : string) : string :=
  match replacement with
  | EmptyString => EmptyString
  | String c t =>
      if Ascii.eqb c "$"%char then
        match t with
        | String d t' =>
            if Ascii.eqb d "$"%char then "$" +:+ getSubstitution matched before after t'
            else if Ascii.eqb d "&"%char then matched +:+ getSubstitution matched before after t'
            else if Ascii.eqb d "`"%char then before +:+ getSubstitution matched before after t'
            else if Ascii.eqb d "'"%char then after +:+ getSubstitution matched before after t'
            else String c (getSubstitution matched before after t)
        | EmptyString => String c EmptyString
        end
      else String c (getSubstitution matched before after t)
  end.

(** [str.replace(pattern, replacement)] with two strings: the first
    occurrence only. *)
Definition js_replace (str pattern replacement : string) : string :=
  match split_first pattern str with
  | Some (before, after) =>
      before +:+ getSubstitution pattern before after replacement +:+ after
  | None => str
  end.

(** [s.toLowerCase()] on 8-bit code units: the letters A-Z and the
    capitals U+00C0 to U+00DE (but the multiplication sign U+00D7) go to
    the code unit 32 above; every other code unit stays.  (Characters that
    lower-case into this range from beyond it, such as the Kelvin sign
    U+212A, are not 8-bit code units.) *)
Definition lower_char (c : ascii) : ascii :=
  let n := nat_of_ascii c in
  if ((65 <=? n)%nat && (n <=? 90)%nat)
     || ((192 <=? n)%nat && (n <=? 222)%nat && negb (n =? 215)%nat)
  then ascii_of_nat (n + 32) else c.

Fixpoint toLowerCase (s : string) : string :=
  match s with
  | EmptyString => EmptyString
  | String c s' => String (lower_char c) (toLowerCase s')
  end.

(** [s.endsWith(suffix)] *)
Definition endsWith (s suffix : string) : bool :=
  let n := String.length s in
  let k := String.length suffix in
  (k <=? n)%nat && String.eqb (String.substring (n - k) k s) suffix.

(* ================================================================= *)
(** ** The LLM clients of src/AIClients.ts *)

Inductive ClientClass :=
| OllamaClient | OpenAIClient | HuggingFaceClient | GrokClient | DeepSeekClient
| SurferAIClient | YouChatClient | SemrushClient | PiAIClient | MistralAIClient
| CopilotClient | GeminiClient | ClaudeClient | LlamaClient | PerplexityClient
| JasperClient | ChatSonicClient | UndetectableClient | CharacterAIClient
| ClickUpClient | WritesonicClient | CodeWhispererClient.

(** A client object: its class, its identity (under which the [World]
    keeps its [model] field), the [baseURL] of its axios instance and, for
    the Ollama client, its [perf] field.  Credentials are left out. *)
Record LLMClient := mkClient {
  cls : ClientClass;
  client_id : nat;
  baseURL : string;
  perf : string
}.

(** The [opts] argument of [generateCode(prompt, opts?)]. *)
Record GenOptions := mkGenOptions {
  opt_temperature : option Q;
  opt_num_ctx : option nat
}.

(** [axios.get(url, { timeout })]: the request is issued and a promise is
    returned; the call itself does not throw. *)
Definition axios_get (h : Host) (url : string) (timeout : nat) : Async (Promise unit) :=
  do emit (EvHttpGet url timeout) then
  ret (promise (if reachable h url then Resolved tt
                else Rejected (mkError ("connect ECONNREFUSED " +:+ url)))).

(** [await this.api.post(path, body)] followed by the extraction of the
    generated text. *)
Definition http_generate (h : Host) (req : Request) : Async string :=
  do emit (EvHttpPost req) then
  let* w := get_world in
  await (promise (completion h req w)).

(** A new client object whose [model] field starts as [m]. *)
Definition alloc_client (m : string) : Async nat := λ w,
  let id := fresh (dom (models w)) in
  (Resolved id, set_models (insert id m) w).

Definition model_of (c : LLMClient) (w : World) : string :=
  default EmptyString (models w !! client_id c).

(** The loop of the [OllamaClient] constructor:
    [for (const u of urls) { try { axios.get(...); base = u; break; } catch { logger.warn(...) } }] *)
Fixpoint probe_endpoints (h : Host) (urls : list string) (base : string) : Async string :=
  match urls with
  | [] => ret base
  | u :: rest =>
      let* r := attempt (let* _ := axios_get h (u +:+ "/api/tags") 500 in ret u) in
      match r with
      | Resolved b => ret b
      | Rejected _ =>
          do logger_warn ("Ollama unreachable at " +:+ u) then
          probe_endpoints h rest base
      end
  end.

(** [new OllamaClient(settings, logger)] *)
Definition new_OllamaClient (h : Host) (s : Settings) : Async LLMClient :=
  let* custom := getConfiguration s "vibecoding.ollamaUrlCustom" (Some EmptyString) in
  let* local := getConfiguration s "vibecoding.ollamaUrlLocal" (Some "http://localhost:11434") in
  let* docker :=
    getConfiguration s "vibecoding.ollamaUrlDocker" (Some "http://host.docker.internal:11434") in
  let urls := filter (λ u, u ≠ EmptyString) [custom; local; docker] in
  let* base := probe_endpoints h urls EmptyString in
  let* perf := getConfiguration s "vibecoding.performance" (Some "balanced") in
  do logger_info ("OllamaClient @" +:+ base +:+ " perf=" +:+ perf) then
  let* id := alloc_client "codellama:7b" in
  ret (mkClient OllamaClient id base perf).

(** [new HuggingFaceClient(settings, logger)] *)
Definition new_HuggingFaceClient (s : Settings) : Async LLMClient :=
  let* ep := getConfiguration s "vibecoding.huggingfaceEndpoint"
               (Some "https://api-inference.huggingface.co/models") in
  let* tk := getConfiguration s "vibecoding.huggingfaceToken" (Some EmptyString) in
  let* m := getConfiguration s "vibecoding.huggingfaceModel" (Some EmptyString) in
  do logger_info ("HuggingFaceClient model=" +:+ m) then
  let* id := alloc_client m in
  ret (mkClient HuggingFaceClient id ep EmptyString).

(** The constructors of the Grok, DeepSeek, SurferAI, YouChat, Semrush,
    Pi.ai and Mistral.ai clients: an API key, an endpoint, one log line. *)
Definition new_keyed_client (s : Settings) (c : ClientClass)
    (keyKey epKey epDefault name : string) : Async LLMClient :=
  let* key := getConfiguration s keyKey (Some EmptyString) in
  let* ep := getConfiguration s epKey (Some epDefault) in
  do logger_info (name +:+ " initialized") then
  let* id := alloc_client EmptyString in
  ret (mkClient c id ep EmptyString).

(** The constructors of the stub classes. *)
Definition new_stub_client (c : ClientClass) (name : string) : Async LLMClient :=
  do logger_info (name +:+ " stub") then
  let* id := alloc_client EmptyString in
  ret (mkClient c id EmptyString EmptyString).

(** Modelled from the spec: [new OpenAIClient(settings, logger)] of
    src/openAIClient.ts, which is not among the sources.  Its test shows a
    constructor that reads the API key and the model from the settings
    (defaults as in settingsManager.ts) and keeps them in fields. *)
Definition new_OpenAIClient (s : Settings) : Async LLMClient :=
  let* key := getConfiguration s "vibecoding.openaiApiKey" (Some EmptyString) in
  let* m := getConfiguration s "vibecoding.openaiModel" (Some "gpt-3.5-turbo") in
  let* id := alloc_client m in
  ret (mkClient OpenAIClient id EmptyString EmptyString).

Definition class_name (c : ClientClass) : string :=
  match c with
  | OllamaClient => "OllamaClient" | OpenAIClient => "OpenAIClient"
  | HuggingFaceClient => "HuggingFaceClient" | GrokClient => "GrokClient"
  | DeepSeekClient => "DeepSeekClient" | SurferAIClient => "SurferAIClient"
  | YouChatClient => "YouChatClient" | SemrushClient => "SemrushClient"
  | PiAIClient => "PiAIClient" | MistralAIClient => "MistralAIClient"
  | CopilotClient => "CopilotClient" | GeminiClient => "GeminiClient"
  | ClaudeClient => "ClaudeClient" | LlamaClient => "LlamaClient"
  | PerplexityClient => "PerplexityClient" | JasperClient => "JasperClient"
  | ChatSonicClient => "ChatSonicClient" | UndetectableClient => "UndetectableClient"
  | CharacterAIClient => "CharacterAIClient" | ClickUpClient => "ClickUpClient"
  | WritesonicClient => "WritesonicClient" | CodeWhispererClient => "CodeWhispererClient"
  end.

(** [new C(settings, logger)] for each class [C]. *)
Definition new_client (h : Host) (s : Settings) (c : ClientClass) : Async LLMClient :=
  match c with
  | OllamaClient => new_OllamaClient h s
  | OpenAIClient => new_OpenAIClient s
  | HuggingFaceClient => new_HuggingFaceClient s
  | GrokClient =>
      new_keyed_client s c "vibecoding.grokApiKey" "vibecoding.grokEndpoint"
        "https://api.grok.ai/chat/completions" (class_name c)
  | DeepSeekClient =>
      new_keyed_client s c "vibecoding.deepseekApiKey" "vibecoding.deepseekEndpoint"
        "https://api.deepseek.com/v1/chat/completions" (class_name c)
  | SurferAIClient =>
      new_keyed_client s c "vibecoding.surferApiKey" "vibecoding.surferEndpoint"
        "https://api.surferseo.com/v1/content/create" (class_name c)
  | YouChatClient =>
      new_keyed_client s c "vibecoding.youChatApiKey" "vibecoding.youChatEndpoint"
        "https://api.you.com/public_api/v1/chat" (class_name c)
  | SemrushClient =>
      new_keyed_client s c "vibecoding.semrushApiKey" "vibecoding.semrushEndpoint"
        "https://api.semrush.com/" (class_name c)
  | PiAIClient =>
      new_keyed_client s c "vibecoding.piApiKey" "vibecoding.piEndpoint"
        "https://api.piapi.ai/v1/generate" (class_name c)
  | MistralAIClient =>
      new_keyed_client s c "vibecoding.mistralApiKey" "vibecoding.mistralEndpoint"
        "https://api.mistral.ai/v1/models/generation" (class_name c)
  | _ => new_stub_client c (class_name c)
  end.

(** The cases of the [switch] of [createLLMClient], in order. *)
Definition providerTable : list (string * ClientClass) :=
  [ ("ollama", OllamaClient); ("openai", OpenAIClient);
    ("huggingface", HuggingFaceClient); ("grok", GrokClient);
    ("deepseek", DeepSeekClient); ("surferai", SurferAIClient);
    ("youchat", YouChatClient); ("semrush", SemrushClient);
    ("pi.ai", PiAIClient); ("mistral.ai", MistralAIClient);
    ("copilot", CopilotClient); ("gemini", GeminiClient);
    ("claude", ClaudeClient); ("llama", LlamaClient);
    ("perplexity", PerplexityClient); ("jasper", JasperClient);
    ("chatsonic", ChatSonicClient); ("undetectable", UndetectableClient);
    ("character.ai", CharacterAIClient); ("clickup", ClickUpClient);
    ("writesonic", WritesonicClient); ("codewhisperer", CodeWhispererClient) ].

Definition lookupProvider (name : string) : option ClientClass :=
  match list_find (λ e : string * ClientClass, fst e = name) providerTable with
  | Some (_, (_, c)) => Some c
  | None => None
  end.

(** [createLLMClient(settings, logger)] *)
Definition createLLMClient (h : Host) (s : Settings) : Async LLMClient :=
  let* configured := getConfiguration s "vibecoding.provider" (Some "ollama") in
  let provider := toLowerCase configured in
  match lookupProvider provider with
  | Some c => new_client h s c
  | None =>
      do logger_warn ("Provider '" +:+ provider +:+ "' not supported; falling back to Ollama.") then
      new_OllamaClient h s
  end.

Definition has_setModel (c : ClientClass) : bool :=
  match c with
  | OllamaClient | HuggingFaceClient | OpenAIClient => true
  | _ => false
  end.

(** [setModel(m)] of the classes that have it. *)
Definition setModel (c : LLMClient) (m : string) : Async unit :=
  do (λ w, (Resolved tt, set_models (insert (client_id c) m) w)) then
  match cls c with
  | OllamaClient => logger_info ("Ollama model set to " +:+ m)
  | HuggingFaceClient => logger_info ("HF model set to " +:+ m)
  | _ => ret tt
  end.

(** The request that [generateCode(prompt)] of a class posts; none for the
    stubs and for the OpenAI client, whose source is absent.  None of these
    methods declares or reads an [opts] parameter. *)
Definition request_of (c : LLMClient) (w : World) (prompt : string) : option Request :=
  let plain (m : string) := Some (mkRequest (baseURL c) EmptyString m prompt None None) in
  match cls c with
  | OllamaClient =>
      Some (mkRequest (baseURL c) "/api/generate" (model_of c w) prompt
              (Some (if String.eqb (perf c) "efficient" then 2048 else 4096))
              (Some (7 # 10)%Q))
  | HuggingFaceClient =>
      Some (mkRequest (baseURL c) ("/" +:+ model_of c w) (model_of c w) prompt None None)
  | GrokClient => plain "grok-3-beta"
  | DeepSeekClient => plain "deepseek-1"
  | MistralAIClient => plain "mistral-7b"
  | SurferAIClient | YouChatClient | SemrushClient | PiAIClient => plain EmptyString
  | _ => None
  end.

(** [client.generateCode(prompt, opts)] through the [LLMClient] interface. *)
Definition generateCode (h : Host) (c : LLMClient) (prompt : string)
    (opts : option GenOptions) : Async string :=
  match cls c with
  | OpenAIClient =>
      do emit (EvOpenAI prompt (opts ≫= opt_temperature)) then
      let* w := get_world in
      await (promise (openaiGenerate h prompt (opts ≫= opt_temperature) w))
  | _ =>
      let* w := get_world in
      match request_of c w prompt with
      | Some req => http_generate h req
      | None => throw (mkError "Not implemented")
      end
  end.

(* ----------------------------------------------------------------- *)
(** *** The [OllamaClient] of src/ollamaClient.ts *)

Module OllamaClientTs.

Record t := mk { id : nat; chosenURL : string; performanceMode : string }.

(** The loop of the constructor, with a timeout of 2000. *)
Fixpoint probe (h : Host) (endpoints : list string) (chosen : string) : Async string :=
  match endpoints with
  | [] => ret chosen
  | url :: rest =>
      let* r := attempt (let* _ := axios_get h (url +:+ "/api/tags") 2000 in ret url) in
      match r with
      | Resolved c => ret c
      | Rejected _ =>
          do logger_warn ("Ollama endpoint unreachable: " +:+ url) then
          probe h rest chosen
      end
  end.

(** [new OllamaClient(settings, logger)] *)
Definition new (h : Host) (s : Settings) : Async t :=
  let* localUrl := getConfiguration s "ollamaUrlLocal" (Some "http://localhost:11434") in
  let* dockerUrl :=
    getConfiguration s "ollamaUrlDocker" (Some "http://host.docker.internal:11434") in
  let* custom := getConfiguration s "ollamaUrlCustom" (Some EmptyString) in
  let endpoints :=
    if String.eqb custom EmptyString then [localUrl; dockerUrl]
    else [custom; localUrl; dockerUrl] in
  let* chosen := probe h endpoints (default EmptyString (head endpoints)) in
  do logger_info ("OllamaClient using endpoint: " +:+ chosen) then
  let* mode := getConfiguration s "performance" (Some "high") in
  do logger_info ("OllamaClient performance mode: " +:+ mode) then
  let* i := alloc_client "codellama:7b" in
  ret (mk i chosen mode).

(** The payload of [generateCode(prompt, customConfig = {})]:
    [options: { num_ctx: ..., temperature: 0.7, ...customConfig }]. *)
Definition payload (c : t) (w : World) (prompt : string) (customConfig : GenOptions)
    : Request :=
  mkRequest (chosenURL c) "/api/generate" (default EmptyString (models w !! id c)) prompt
    (Some (default (if String.eqb (performanceMode c) "efficient" then 2048 else 4096)
             (opt_num_ctx customConfig)))
    (Some (default (7 # 10)%Q (opt_temperature customConfig))).

(** [generateCode] *)
Definition generateCode (h : Host) (c : t) (prompt : string) (customConfig : GenOptions)
    : Async string :=
  let* w := get_world in
  let* r := attempt (
    let* text := http_generate h (payload c w prompt customConfig) in
    do logger_info "Generated code from Ollama" then
    ret text) in
  match r with
  | Resolved text => ret text
  | Rejected err =>
      do logger_error "Code generation failed" then
      throw (mkError ("Ollama generate failed: " +:+ message err))
  end.

End OllamaClientTs.

(* ================================================================= *)
(** ** ErrorRecovery (src/errorRecovery.ts) *)

Record ErrorRecovery := mkErrorRecovery {
  er_llm : LLMClient;
  er_settings : Settings;
  er_fileManager : FileManager
}.

(** The constructor: it throws without a workspace folder and makes a
    [FileManager] of its own. *)
Definition new_ErrorRecovery (h : Host) (llm : LLMClient) (s : Settings)
    : Async ErrorRecovery :=
  match workspaceFolder h with
  | None => throw (mkError "No workspace folder open")
  | Some ws =>
      let* fm := new_FileManager h ws in
      ret (mkErrorRecovery llm s fm)
  end.

Definition group_any : list Atom := [GroupOpen; AnyPlus; GroupClose].

Definition re_ModuleNotFound : Regex :=
  Lit "ModuleNotFoundError: No module named '" :: group_any ++ [Lit "'"].
Definition re_CannotFindModule : Regex :=
  Lit "Cannot find module '" :: group_any ++ [Lit "'"].

(** [this.errorPatterns], in insertion order.  The fifth expression is
    written [(\\w+)] in the source: a backslash followed by one or more
    letters w. *)
Definition errorPatterns : list (Regex * string) :=
  [ (re_ModuleNotFound, "Install the missing Python module '$1' and adjust imports.");
    (Lit "SyntaxError: " :: group_any, "Fix the syntax error: $1");
    (re_CannotFindModule, "Install or require the Node.js module '$1'.");
    (Lit "TypeError: " :: group_any ++ [Lit " is not a function"],
       "Ensure $1 is a callable and imported correctly.");
    ([Lit "ReferenceError: "; GroupOpen; Lit "\"; CharPlus "w"; GroupClose;
      Lit " is not defined"],
       "Define or import the missing variable/function $1.");
    (Lit "ImportError: " :: group_any, "Fix the import error: $1");
    (Lit "AttributeError: " :: group_any, "Fix the attribute error: $1");
    (Lit "IndentationError: " :: group_any, "Fix the indentation: $1") ].

(** [checkForDependencyError] *)
Definition checkForDependencyError (errorMsg : string) : option string :=
  match regex_exec re_ModuleNotFound errorMsg with
  | Some py1 => Some ("pip install " +:+ py1)
  | None =>
      match regex_exec re_CannotFindModule errorMsg with
      | Some nd1 => Some ("npm install " +:+ nd1)
      | None => None
      end
  end.

(** [handleDependencyError] *)
Definition handleDependencyError (h : Host) (er : ErrorRecovery) (command : string)
    : Async unit :=
  match workspaceFolder h with
  | None => throw (mkError "No workspace folder open for dependency install")
  | Some wsPath =>
      let* r := attempt (
        do runCommand h command wsPath then
        do logger_info "DependencyInstalled" then
        if isTelemetryEnabled (er_settings er) then logger_info "TelemetryEvent" else ret tt) in
      match r with
      | Resolved _ => ret tt
      | Rejected e =>
          do logger_error "DependencyInstallFailed" then
          throw e
      end
  end.

(** [getContext] *)
Definition getContext (er : ErrorRecovery) (p : string) : Async string :=
  let* r := attempt (readFile (er_fileManager er) p) in
  match r with
  | Resolved content => ret content
  | Rejected _ =>
      do logger_warn "ContextReadFailed" then
      ret EmptyString
  end.

(** The loop of [findMatchingPattern] over a table. *)
Fixpoint findMatchingPattern_in (table : list (Regex * string)) (errorMsg : string)
    : option string :=
  match table with
  | [] => None
  | (regex, template) :: rest =>
      match regex_exec regex errorMsg with
      | Some m1 => Some (js_replace template "$1" m1)
      | None => findMatchingPattern_in rest errorMsg
      end
  end.

(** [findMatchingPattern] *)
Definition findMatchingPattern (errorMsg : string) : option string :=
  findMatchingPattern_in errorPatterns errorMsg.

(** The prompt of step 5 of [analyzeAndFix]; [pattern ? ... : ...] takes
    the second branch for [null] and for the empty string. *)
Definition fixPrompt (errorMsg original : string) : string :=
  let generic := "Fix this error: " +:+ errorMsg +:+ newline +:+ newline
                   +:+ "Context:" +:+ newline +:+ original in
  match findMatchingPattern errorMsg with
  | Some pattern =>
      if String.eqb pattern EmptyString then generic
      else pattern +:+ newline +:+ newline +:+ "Context:" +:+ newline +:+ original
             +:+ newline +:+ newline +:+ "Error:" +:+ newline +:+ errorMsg
  | None => generic
  end.

(** [analyzeAndFix] *)
Definition analyzeAndFix (h : Host) (er : ErrorRecovery) (errorMsg p : string)
    : Async string :=
  (* 1. Ensure backup folder exists *)
  do createDirectory (er_fileManager er) ".vibe/backups" then
  (* 2. Read original content *)
  let* original := getContext er p in
  (* 3. Backup the original *)
  let* backup := attempt (
    let* now := tick in
    let backupName := basename p +:+ ".backup." +:+ pretty (epochMs h now) in
    do writeFile h (er_fileManager er) (".vibe/backups/" +:+ backupName) original then
    logger_info "BackupCreated") in
  do (match backup with
      | Resolved _ => ret tt
      | Rejected _ => logger_warn "BackupFailed"
      end) then
  (* 4. Auto-install missing dependencies if detected *)
  do (match checkForDependencyError errorMsg with
      | Some depCmd => handleDependencyError h er depCmd
      | None => ret tt
      end) then
  (* 5. Build the fix prompt *)
  let prompt := fixPrompt errorMsg original in
  do logger_info "ErrorRecoveryPrompt" then
  let* fixed := generateCode h (er_llm er) prompt None in
  do logger_info "ErrorRecoveryResult" then
  (* 6. Forward telemetry if enabled *)
  do (if isTelemetryEnabled (er_settings er) then logger_info "TelemetryEvent" else ret tt) then
  ret fixed.

(* ================================================================= *)
(** ** AutoCoder (src/autoCoder.ts) *)

(** [interface Task] of taskParser.ts *)
Record Task := mkTask { prompt : string; file : string; testCommand : string }.

Record ProjectStructure := mkProjectStructure {
  sourceDir : string;
  testDir : string;
  configFiles : list string
}.

(** [interface ProjectConfig] of taskParser.ts *)
Record ProjectConfig := mkProjectConfig {
  language : string;
  framework : string;
  testFramework : string;
  buildTool : string;
  projectStructure : ProjectStructure
}.

Record AutoCoderConfig := mkAutoCoderConfig { performance : string; autoSave : bool }.

(** The [AutoCoder] object.  The task parser is the injected collaborator
    [parser.parseSpecifications(specs, projectConfig, log)]. *)
Record AutoCoder := mkAutoCoder {
  ac_llm : LLMClient;
  ac_parser : string → ProjectConfig → Async (list Task);
  ac_recovery : ErrorRecovery;
  ac_files : FileManager;
  ac_config : AutoCoderConfig
}.

(** The [log] callback. *)
Definition log (msg : string) : Async unit := emit (EvProgress msg).

(** [createProjectConfig]: [map[language] || map.python] *)
Definition createProjectConfig (lang : string) : ProjectConfig :=
  if String.eqb lang "javascript" then
    mkProjectConfig lang "express" "jest" "npm"
      (mkProjectStructure "src" "tests" ["package.json"; ".eslintrc.js"])
  else if String.eqb lang "java" then
    mkProjectConfig lang "spring" "junit" "maven"
      (mkProjectStructure "src/main/java" "src/test/java" ["pom.xml"])
  else
    mkProjectConfig lang "flask" "pytest" "pip"
      (mkProjectStructure "src" "tests" ["requirements.txt"; "pyproject.toml"]).

(** [JSON.stringify({ name: 'vibe-project', version: '1.0.0', scripts: { test: 'jest' } }, null, 2)] *)
Definition packageJson : string :=
  "{" +:+ newline +:+
  json_field "  " "name" (json_string "vibe-project") +:+ "," +:+ newline +:+
  json_field "  " "version" (json_string "1.0.0") +:+ "," +:+ newline +:+
  json_field "  " "scripts" "{" +:+ newline +:+
  json_field "    " "test" (json_string "jest") +:+ newline +:+
  "  }" +:+ newline +:+ "}".

(** [generateConfigContent] *)
Definition generateConfigContent (f : string) (cfg : ProjectConfig) : string :=
  if endsWith f "requirements.txt" then "flask==2.3.2" +:+ newline +:+ "pytest==7.4.0"
  else if endsWith f "pyproject.toml" then
    "[tool.poetry]" +:+ newline +:+ "name = " +:+ json_string "vibe-project"
  else if String.eqb f "package.json" then packageJson
  else if String.eqb f ".eslintrc.js" then
    "module.exports = { env: { node: true }, extends: ["
      +:+ json_string "eslint:recommended" +:+ "] };"
  else if String.eqb f "pom.xml" then
    "<project><modelVersion>4.0.0</modelVersion>...</project>"
  else EmptyString.

(** The loop of [setupStructure] over the configuration files. *)
Fixpoint writeConfigFiles (h : Host) (ac : AutoCoder) (config : ProjectConfig)
    (cfgs : list string) : Async unit :=
  match cfgs with
  | [] => ret tt
  | cfg :: rest =>
      do writeFile h (ac_files ac) cfg (generateConfigContent cfg config) then
      do log ("Created " +:+ cfg) then
      writeConfigFiles h ac config rest
  end.

(** [setupStructure] *)
Definition setupStructure (h : Host) (ac : AutoCoder) (config : ProjectConfig) : Async unit :=
  do createDirectory (ac_files ac) (sourceDir (projectStructure config)) then
  do createDirectory (ac_files ac) (testDir (projectStructure config)) then
  writeConfigFiles h ac config (configFiles (projectStructure config)).

(** The [while (attempt < 3)] loop of [testAndFix], by the number
    [3 - attempt] of attempts left. *)
Fixpoint testAndFix_loop (h : Host) (ac : AutoCoder) (task : Task) (ws : string)
    (left : nat) : Async unit :=
  match left with
  | 0 => log ("⚠️ Could not auto‑fix " +:+ file task +:+ " after multiple attempts.")
  | S left' =>
      let* r := attempt (
        do runCommand h (testCommand task) ws then
        log ("✅ Test passed for " +:+ file task)) in
      match r with
      | Resolved _ => ret tt
      | Rejected e =>
          do log ("❌ Test failed: " +:+ message e) then
          let* fixed := analyzeAndFix h (ac_recovery ac) (message e) (file task) in
          do writeFile h (ac_files ac) (file task) fixed then
          do log ("Applied fix to " +:+ file task) then
          testAndFix_loop h ac task ws left'
      end
  end.

(** [testAndFix]: [attempt] starts at 0. *)
Definition testAndFix (h : Host) (ac : AutoCoder) (task : Task) (ws : string) : Async unit :=
  testAndFix_loop h ac task ws 3.

(** [runQualityChecks] *)
Definition runQualityChecks (h : Host) (f lang ws : string) : Async unit :=
  let cmd := if String.eqb lang "javascript" then Some ("npx eslint " +:+ f) else None in
  let cmd := if String.eqb lang "python" then Some ("flake8 " +:+ f) else cmd in
  match cmd with
  | Some c =>
      let* r := attempt (
        do runCommand h c ws then
        log ("✅ Quality check passed: " +:+ f)) in
      match r with
      | Resolved _ => ret tt
      | Rejected e => log ("🛠️ Quality issues: " +:+ message e)
      end
  | None => ret tt
  end.

(** [setupGit] *)
Definition setupGit (h : Host) (ws : string) : Async unit :=
  do runCommand h "git init" ws then
  do runCommand h "git add ." ws then
  do runCommand h ("git commit -m " +:+ dquote +:+ "Initial Vibe commit" +:+ dquote) ws then
  log "Initialized Git repository".

Definition ciWorkflow : string :=
  "name: CI" +:+ newline +:+
  "on: [push]" +:+ newline +:+
  "jobs:" +:+ newline +:+
  "  build:" +:+ newline +:+
  "    runs-on: ubuntu-latest" +:+ newline +:+
  "    steps:" +:+ newline +:+
  "      - uses: actions/checkout@v3" +:+ newline +:+
  "      - run: npm install" +:+ newline +:+
  "      - run: npm test".

(** [generateCICD] *)
Definition generateCICD (h : Host) (ac : AutoCoder) : Async unit :=
  do writeFile h (ac_files ac) ".github/workflows/ci.yml" ciWorkflow then
  log "Created CI/CD workflow".

(** The options that [startAutoMode] passes to [generateCode]:
    [{ temperature: performance === 'efficient' ? 0.5 : 0.7 }] *)
Definition generationOptions (perf_ : string) : GenOptions :=
  mkGenOptions (Some (if String.eqb perf_ "efficient" then (5 # 10)%Q else (7 # 10)%Q)) None.

(** The body of the [for (const task of tasks)] loop, after the
    [isRunning] test. *)
Definition runTask (h : Host) (ac : AutoCoder) (perf_ lang ws : string) (task : Task)
    : Async unit :=
  do log ("Generating code for " +:+ file task +:+ "...") then
  let* code := generateCode h (ac_llm ac) (prompt task) (Some (generationOptions perf_)) in
  do writeFile h (ac_files ac) (file task) code then
  do log ("Testing " +:+ file task +:+ "...") then
  do testAndFix h ac task ws then
  do log ("Running quality checks on " +:+ file task +:+ "...") then
  runQualityChecks h (file task) lang ws.

(** The [for (const task of tasks)] loop. *)
Fixpoint runTasks (h : Host) (ac : AutoCoder) (perf_ lang ws : string) (tasks : list Task)
    : Async unit :=
  match tasks with
  | [] => ret tt
  | task :: rest =>
      let* w := get_world in
      if negb (isRunning w) then ret tt
      else
        do runTask h ac perf_ lang ws task then
        runTasks h ac perf_ lang ws rest
  end.

(** The callback that [startAutoMode] hands to [ui.showProgress]. *)
Definition workflow (h : Host) (ac : AutoCoder) (specs perf_ lang ws : string) : Async unit :=
  (* 1. Scaffold project structure *)
  let projectConfig := createProjectConfig lang in
  do emit (EvReport "Setting up project structure...") then
  do setupStructure h ac projectConfig then
  (* 2. Parse user specs into tasks *)
  do log "Parsing tasks..." then
  let* tasks := ac_parser ac specs projectConfig in
  (* 3. Execute each task *)
  do runTasks h ac perf_ lang ws tasks then
  (* 4. Initialize Git and CI/CD *)
  do emit (EvReport "Initializing Git & CI/CD...") then
  do setupGit h ws then
  do generateCICD h ac then
  log "Coding vibe complete! 🎉".

(** [startAutoMode(specs, model, performance, language, log)] *)
Definition startAutoMode (h : Host) (ac : AutoCoder) (specs model perf_ lang : string)
    : Async unit :=
  let* w := get_world in
  if isRunning w then log "Already running a coding vibe — please wait!"
  else
    do (λ w, (Resolved tt, set_isRunning true w)) then
    do log "Starting your coding vibe..." then
    do (if has_setModel (cls (ac_llm ac)) then setModel (ac_llm ac) model else ret tt) then
    let ws := default "undefined" (workspaceFolder h) in
    finally
      (let* r := attempt (workflow h ac specs perf_ lang ws) in
       match r with
       | Resolved _ => ret tt
       | Rejected err =>
           do logger_error "AutoCoder workflow error" then
           do log ("Error: " +:+ message err) then
           throw err
       end)
      (do (λ w, (Resolved tt, set_isRunning false w)) then
       if autoSave (ac_config ac) then
         do saveAll then
         log "All files saved."
       else ret tt).

(* ================================================================= *)
(** ** Runs of the file store, and what a write leaves behind *)

(** A caller that makes the calls [writeFile(p, c)] of a list one after the
    other, going on after a call that throws. *)
Fixpoint run_writes (h : Host) (fm : FileManager) (calls : list (string * string))
    (w : World) : World :=
  match calls with
  | [] => w
  | (p, c) :: rest => run_writes h fm rest (snd (writeFile h fm p c w))
  end.

(** The record that [writeFile(p, _)] pushes when called in [w]. *)
Definition recordOf (h : Host) (fm : FileManager) (p : string) (w : World) : ChangeRecord :=
  let v := nextVersion (changeHistory fm w) p in
  let ts := isoTime h (ticks w) in
  mkChangeRecord p v ts (joinPath (historyDir fm) (historyFileName p v ts))
    (match files w !! joinPath (workspaceRoot fm) p with
     | Some _ => modified
     | None => created
     end).

(** The world in which [writeFile(p, _)], called in [w], reaches
    [applyEdit]: the backup is taken, the record pushed and the log saved. *)
Definition recorded (h : Host) (fm : FileManager) (p : string) (w : World) : World :=
  let r := recordOf h fm p w in
  let w1 := set_ticks S w in
  let w2 :=
    match files w !! joinPath (workspaceRoot fm) p with
    | Some old =>
        add_event (EvLogger info ("Backed up " +:+ p +:+ " version " +:+ pretty (version r)))
          (add_event (EvFsWrite (originalPath r) old)
             (set_files (insert (originalPath r) old) w1))
    | None => w1
    end in
  let hist := (changeHistory fm w ++ [r])%list in
  add_event (EvFsWrite (historyFile fm) (JSON_stringify hist))
    (set_files (insert (historyFile fm) (JSON_stringify hist))
       (set_heap (insert (self fm) hist) w2)).

(** The commands sent to the terminal, the requests posted and the lines
    of the progress callback, in order; [is_ask] tells the events by which
    a provider is asked for text. *)
Definition is_ask (e : Event) : bool :=
  match e with EvHttpPost _ | EvOpenAI _ _ => true | _ => false end.
Definition is_command (e : Event) : bool :=
  match e with EvSendText _ => true | _ => false end.
Definition is_progress (e : Event) : bool :=
  match e with EvProgress _ => true | _ => false end.

Definition commands (evs : list Event) : list string :=
  omap (λ e, match e with EvSendText c => Some c | _ => None end) evs.
Definition requests (evs : list Event) : list Request :=
  omap (λ e, match e with EvHttpPost r => Some r | _ => None end) evs.
Definition progress (evs : list Event) : list string :=
  omap (λ e, match e with EvProgress m => Some m | _ => None end) evs.

(** The candidate list of the [OllamaClient] of AIClients.ts. *)
Definition ollamaCandidates (s : Settings) : list string :=
  filter (λ u, u ≠ EmptyString)
    [default EmptyString (cfg_string s "vibecoding.ollamaUrlCustom");
     default "http://localhost:11434" (cfg_string s "vibecoding.ollamaUrlLocal");
     default "http://host.docker.internal:11434" (cfg_string s "vibecoding.ollamaUrlDocker")].

(** Events that are neither a terminal command nor a progress line. *)
Definition silent (e : Event) : bool := negb (is_command e || is_progress e).

(** The command that [runQualityChecks] runs for a language, if any. *)
Definition qualityCommands (lang f : string) : list string :=
  if String.eqb lang "python" then ["flake8 " +:+ f]
  else if String.eqb lang "javascript" then ["npx eslint " +:+ f]
  else [].

(** [w'] comes from [w] by events that all satisfy [ok], with the
    [isRunning] field and the object [keep] of the heap left as they were. *)
Definition steady (ok : Event → bool) (keep : nat) (w w' : World) : Prop :=
  (∃ evs, events w' = (events w ++ evs)%list ∧ forallb ok evs = true)
  ∧ isRunning w' = isRunning w
  ∧ heap w' !! keep = heap w !! keep.

(** A computation that is [steady] from every world. *)
Definition Steady (ok : Event → bool) (keep : nat) {A} (m : Async A) : Prop :=
  ∀ w, steady ok keep w (snd (m w)).

(** A computation that resolves from every world. *)
Definition Succeeds {A} (m : Async A) : Prop :=
  ∀ w, ∃ a, fst (m w) = Resolved a.

(* ================================================================= *)
(** ** A concrete host and workspace *)

(** A host whose clock advances by one at each reading, whose editor
    applies every edit, whose provider answers every request with [reply]
    and whose terminal reports exit status 1 for the commands in [failing]
    and 0 for the others. *)
Definition demo_host (failing : list string) (reply : string) : Host :=
  mkHost (λ n, "2026-01-01T00:00:00." +:+ pretty n +:+ "Z") (λ n, n)
    (λ cmd _, if bool_decide (cmd ∈ failing) then 1%Z else 0%Z)
    (λ _ _, Resolved reply)
    (λ _, false)
    (λ _ _ _, true)
    (λ _, None)
    (Some "/ws")
    (λ _ _ _, Resolved reply).

Definition empty_world : World := mkWorld ∅ ∅ ∅ false 0 [] ∅.

Definition no_settings : Settings := mkSettings (λ _, None) (λ _, None).

Definition demo_fm : FileManager := mkFileManager "/ws" 0.

(** The wiring of vibeController.ts: one client shared by the [AutoCoder]
    and the [ErrorRecovery], which has a [FileManager] of its own. *)
Definition demo_client : LLMClient :=
  mkClient OllamaClient 0 "http://localhost:11434" "balanced".
Definition demo_recovery : ErrorRecovery :=
  mkErrorRecovery demo_client no_settings (mkFileManager "/ws" 1).
Definition demo_ac : AutoCoder :=
  mkAutoCoder demo_client (λ _ _, ret []) demo_recovery demo_fm
    (mkAutoCoderConfig "balanced" true).

(** A workspace with no file and no history, in the middle of a run. *)
Definition demo_world : World :=
  mkWorld ∅ (<[0 := []]> (<[1 := []]> ∅)) (<[0 := "codellama:7b"]> ∅) true 0 [] ∅.

(** A workspace in which [src/a.py] is on disk, holding [x=1], with no
    history yet. *)
Definition saved_world : World :=
  set_files (insert "/ws/src/a.py" "x=1") empty_world.

(** The workspace after [writeFile("src/a.py", "x=1")] on an empty one. *)
Definition created_world : World :=
  snd (writeFile (demo_host [] "ok") demo_fm "src/a.py" "x=1" empty_world).

(** A host on which only the endpoints of [up] answer a GET. *)
Definition probe_host (up : list string) : Host :=
  mkHost (λ n, pretty n) (λ n, n) (λ _ _, 0%Z) (λ _ _, Resolved "ok")
    (λ url, bool_decide (url ∈ up)) (λ _ _ _, true) (λ _, None) (Some "/ws")
    (λ _ _ _, Resolved "ok").

(** Settings with a custom Ollama endpoint, under the keys that the two
    constructors read. *)
Definition custom_endpoint_settings (url : string) : Settings :=
  mkSettings
    (λ key, if String.eqb key "vibecoding.ollamaUrlCustom" || String.eqb key "ollamaUrlCustom"
            then Some url else None)
    (λ _, None).

(** [template.replace('$1', text)] if the text were put in as it is. *)
Definition substitute_verbatim (template placeholder text : string) : string :=
  match split_first placeholder template with
  | Some (before, after) => before +:+ text +:+ after
  | None => template
  end.

Fixpoint has_dollar (s : string) : bool :=
  match s with
  | EmptyString => false
  | String c s' => Ascii.eqb c "$"%char || has_dollar s'
  end.

(** Events other than a request for generated text. *)
Definition not_ask (e : Event) : bool := negb (is_ask e).

(** Any event. *)
Definition any_event (e : Event) : bool := true.

(** Settings that store [name] as the provider and nothing else. *)
Definition provider_settings (name : string) : Settings :=
  mkSettings (λ key, if String.eqb key "vibecoding.provider" then Some name else None)
    (λ _, None).

(** The characters of the names of the provider table: the letters a-z
    and the full stop. *)
Definition table_char (c : ascii) : bool :=
  let n := nat_of_ascii c in ((97 <=? n)%nat && (n <=? 122)%nat) || (n =? 46)%nat.

(** "Case-insensitively", said without [toLowerCase]: a written character
    stands for a character of a name when it is that character or, for a
    letter a-z, its capital (the code unit 32 below). *)
Definition same_letter_any_case (written name_char : ascii) : bool :=
  let n := nat_of_ascii name_char in
  Ascii.eqb written name_char
  || ((97 <=? n)%nat && (n <=? 122)%nat && (nat_of_ascii written =? n - 32)%nat).

(** A written string spells a name when it does so character by character. *)
Fixpoint spells (written name : string) : bool :=
  match written, name with
  | EmptyString, EmptyString => true
  | String a written', String b name' => same_letter_any_case a b && spells written' name'
  | _, _ => false
  end.

(** The task of the scenario of the specification. *)
Definition spec_task : Task := mkTask "hello" "src/a.py" "python src/a.py".

(** The world after [spec_task] has gone through the pipeline with a test
    command that always exits with status 1. *)
Definition scenario_end : World :=
  snd (runTask (demo_host ["python src/a.py"] "print(1)") demo_ac "balanced" "python" "/ws"
         spec_task demo_world).

(* ================================================================= *)
(** ** TerminalManager.checkDependencies (src/terminalManager.ts) *)

(** [String(error)] for an [Error] object, as a template literal gives it. *)
Definition error_toString (e : JsError) : string := "Error: " +:+ message e.

(** The [commands] object of [checkDependencies], in the order of its keys. *)
Definition dependencyCommands : list (string * string) :=
  [ ("python", "python --version"); ("node", "node --version");
    ("java", "java --version"); ("git", "git --version");
    ("flake8", "flake8 --version"); ("eslint", "eslint --version") ].

(** The loop of [checkDependencies]. *)
Fixpoint checkDependencies_loop (h : Host) (workspacePath : string)
    (entries : list (string * string)) : Async unit :=
  match entries with
  | [] => ret tt
  | (dep, command) :: rest =>
      let* r := attempt (
        do runCommand h command workspacePath then
        logger_info (dep +:+ " is installed")) in
      match r with
      | Resolved _ => checkDependencies_loop h workspacePath rest
      | Rejected err =>
          let errorMessage :=
            "Dependency check failed for " +:+ dep +:+ ": " +:+ error_toString err in
          do logger_error errorMessage then
          throw (mkError errorMessage)
      end
  end.

(** [checkDependencies] *)
Definition checkDependencies (h : Host) : Async unit :=
  match workspaceFolder h with
  | None => throw (mkError "No workspace folder open")
  | Some workspacePath => checkDependencies_loop h workspacePath dependencyCommands
  end.

(* ================================================================= *)
(** ** DependencyManager (src/dependencyManager.ts) *)

Record DependencyConflict := mkConflict {
  tool : string;
  requiredVersion : string;
  installedVersion : string
}.

Record Resolution := mkResolution {
  res_tool : string;
  res_success : bool;
  res_message : string
}.

(** The result of [validateEnvironment]; [conflicts] is [undefined] when
    there is none. *)
Record Validation := mkValidation {
  success : bool;
  conflicts : option (list DependencyConflict)
}.

(** The [dependencies] object of [validateEnvironment], in the order of its
    keys. *)
Definition environmentCommands : list (string * string) :=
  [ ("python", "python3 -m pip install flask pytest");
    ("node", "npm install -g express jest");
    ("java", "mvn -v || echo " +:+ dquote +:+ "Maven not installed" +:+ dquote) ].

(** The loop of [validateEnvironment], with the [conflicts] array collected
    so far. *)
Fixpoint validateEnvironment_loop (h : Host) (workspacePath : string)
    (entries : list (string * string)) (found : list DependencyConflict)
    : Async (list DependencyConflict) :=
  match entries with
  | [] => ret found
  | (lang_, installCommand) :: rest =>
      let* r := attempt (
        do runCommand h installCommand workspacePath then
        logger_info ("Validated and installed dependencies for " +:+ lang_)) in
      match r with
      | Resolved _ => validateEnvironment_loop h workspacePath rest found
      | Rejected err =>
          do logger_error ("Failed to validate/install dependencies for " +:+ lang_ +:+ ": "
                             +:+ error_toString err) then
          validateEnvironment_loop h workspacePath rest
            (found ++ [mkConflict lang_ "latest" "unknown"])
      end
  end.

(** [validateEnvironment] *)
Definition validateEnvironment (h : Host) : Async Validation :=
  match workspaceFolder h with
  | None => throw (mkError "No workspace folder open")
  | Some workspacePath =>
      let* found := validateEnvironment_loop h workspacePath environmentCommands [] in
      ret (mkValidation (length found =? 0)%nat
             (if (0 <? length found)%nat then Some found else None))
  end.

(** The [switch] of [resolveConflicts]: the upgrade command of a tool. *)
Definition upgradeCommand (t : string) : option string :=
  if String.eqb t "python" then Some "winget upgrade python"
  else if String.eqb t "node" then Some "winget upgrade nodejs"
  else if String.eqb t "java" then Some "winget upgrade openjdk"
  else None.

(** The loop of [resolveConflicts], with the [resolutions] array collected
    so far. *)
Fixpoint resolveConflicts_loop (h : Host) (workspacePath : string)
    (cs : list DependencyConflict) (done_ : list Resolution) : Async (list Resolution) :=
  match cs with
  | [] => ret done_
  | conflict :: rest =>
      let* r := attempt (
        let* command :=
          match upgradeCommand (tool conflict) with
          | Some c => ret c
          | None => throw (mkError ("Unknown tool: " +:+ tool conflict))
          end in
        do runCommand h command workspacePath then
        ret (mkResolution (tool conflict) true ("Successfully upgraded " +:+ tool conflict))) in
      match r with
      | Resolved res =>
          do logger_info ("Resolved conflict for " +:+ tool conflict) then
          resolveConflicts_loop h workspacePath rest (done_ ++ [res])
      | Rejected err =>
          let errorMessage :=
            "Failed to resolve conflict for " +:+ tool conflict +:+ ": " +:+ error_toString err in
          do logger_error errorMessage then
          resolveConflicts_loop h workspacePath rest
            (done_ ++ [mkResolution (tool conflict) false errorMessage])
      end
  end.

(** [resolveConflicts] *)
Definition resolveConflicts (h : Host) (cs : list DependencyConflict)
    : Async (list Resolution) :=
  match workspaceFolder h with
  | None => throw (mkError "No workspace folder open")
  | Some workspacePath => resolveConflicts_loop h workspacePath cs []
  end.

(* ================================================================= *)
(** ** TaskParser (src/taskParser.ts) *)

(** [s.split('\n')]; [cur] is the piece being read. *)
Fixpoint split_lines_from (cur : string) (s : string) : list string :=
  match s with
  | EmptyString => [cur]
  | String c s' =>
      if (nat_of_ascii c =? 10)%nat then cur :: split_lines_from EmptyString s'
      else split_lines_from (cur +:+ String c EmptyString) s'
  end.
Definition split_lines (s : string) : list string := split_lines_from EmptyString s.

(** The white space that [trim] removes, among 8-bit code units: TAB, LF,
    VT, FF, CR, SP and NBSP. *)
Definition is_white (c : ascii) : bool :=
  let n := nat_of_ascii c in
  ((9 <=? n)%nat && (n <=? 13)%nat) || (n =? 32)%nat || (n =? 160)%nat.

Fixpoint trimStart (s : string) : string :=
  match s with
  | EmptyString => EmptyString
  | String c s' => if is_white c then trimStart s' else s
  end.

Fixpoint trimEnd (s : string) : string :=
  match s with
  | EmptyString => EmptyString
  | String c s' =>
      let t := trimEnd s' in
      if String.eqb t EmptyString && is_white c then EmptyString else String c t
  end.

(** [s.trim()] *)
Definition trim (s : string) : string := trimEnd (trimStart s).

(** [s.includes(sub)] *)
Definition includes (s sub : string) : bool :=
  match split_first sub s with Some _ => true | None => false end.

(** The lines that [parseSpecifications] goes through:
    [specs.split('\n').map(l => l.trim()).filter(l => l.length > 0)] *)
Definition specLines (specs : string) : list string :=
  filter (λ l, l ≠ EmptyString) (trim <$> split_lines specs).

(** The loop of [parseSpecifications], with the [tasks] array collected so
    far. *)
Fixpoint parseLines (config : ProjectConfig) (lines : list string) (tasks : list Task)
    : Async (list Task) :=
  match lines with
  | [] => ret tasks
  | line :: rest =>
      let src := sourceDir (projectStructure config) in
      let tst := testDir (projectStructure config) in
      let lang := toLowerCase (language config) in
      let single (f testCommand_ : string) :=
        do log ("Parsed task: " +:+ dquote +:+ line +:+ dquote +:+ " → " +:+ f) then
        do logger_info "Parsed task" then
        parseLines config rest (tasks ++ [mkTask line f testCommand_]) in
      if String.eqb lang "python" then
        if includes (toLowerCase line) "flask" then
          parseLines config rest
            (tasks ++ [mkTask "Generate a Flask app with a /hello endpoint"
                         (src +:+ "/app.py") ("python " +:+ src +:+ "/app.py");
                       mkTask "Generate pytest tests for the Flask app"
                         (tst +:+ "/test_app.py") ("pytest " +:+ tst +:+ "/test_app.py")])
        else single (src +:+ "/main.py") ("python " +:+ src +:+ "/main.py")
      else if String.eqb lang "javascript" then
        if includes (toLowerCase line) "express" then
          parseLines config rest
            (tasks ++ [mkTask "Generate an Express server with a /hello route"
                         (src +:+ "/server.js") ("node " +:+ src +:+ "/server.js");
                       mkTask "Generate Jest tests for the Express server"
                         (tst +:+ "/server.test.js") "npm test"])
        else single (src +:+ "/index.js") ("node " +:+ src +:+ "/index.js")
      else if String.eqb lang "java" then
        single (src +:+ "/Main.java") "mvn test"
      else
        do logger_error ("Unsupported language: " +:+ language config) then
        throw (mkError ("Unsupported language: " +:+ language config))
  end.

(** [parseSpecifications(specs, config, logCallback)] *)
Definition parseSpecifications (specs : string) (config : ProjectConfig)
    : Async (list Task) :=
  do log "Parsing your coding vibe... 🧠" then
  do logger_info "Parsing specifications" then
  let* tasks := parseLines config (specLines specs) [] in
  if (length tasks =? 0)%nat then
    do logger_warn "No tasks parsed from specifications" then
    throw (mkError "No tasks parsed from specifications")
  else ret tasks.

(* ================================================================= *)
(** ** Logger (src/logger.ts): the level filter and the timers *)

Module LoggerTs.

(** One line of the output channel; [meta] is the [durationMs] that
    [timeEnd] attaches, other metadata being left out. *)
Record Entry := mkEntry {
  entry_level : LogLevel;
  entry_message : string;
  entry_meta : option Z
}.

(** The fields of a [Logger] that its methods read and write: the minimum
    level (the stored setting, whatever string it is), the timers and the
    lines appended to the output channel. *)
Record t := mk {
  minLevel : string;
  timers : gmap string Z;
  channel : list Entry
}.

(** [const LEVELS = ['debug', 'info', 'warn', 'error']] *)
Definition LEVELS : list string := ["debug"; "info"; "warn"; "error"].

Definition level_name (l : LogLevel) : string :=
  match l with debug => "debug" | info => "info" | warn => "warn" | error => "error" end.

(** [array.indexOf(x)]: the first index of [x], or -1. *)
Fixpoint indexOf_from (i : Z) (l : list string) (x : string) : Z :=
  match l with
  | [] => (-1)%Z
  | y :: l' => if String.eqb y x then i else indexOf_from (i + 1)%Z l' x
  end.
Definition indexOf (l : list string) (x : string) : Z := indexOf_from 0 l x.

(** [log(level, message, meta)] *)
Definition log (lg : t) (level : LogLevel) (msg : string) (meta : option Z) : t :=
  if (indexOf LEVELS (level_name level) <? indexOf LEVELS (minLevel lg))%Z then lg
  else mk (minLevel lg) (timers lg) (channel lg ++ [mkEntry level msg meta]).

(** [time(label)], called when [Date.now()] is [now]. *)
Definition time (lg : t) (label : string) (now : Z) : t :=
  mk (minLevel lg) (<[label := now]> (timers lg)) (channel lg).

(** [timeEnd(label)], called when [Date.now()] is [now]. *)
Definition timeEnd (lg : t) (label : string) (now : Z) : t :=
  match timers lg !! label with
  | Some start =>
      let lg' := log lg info ("Timer '" +:+ label +:+ "' ended") (Some (now - start)%Z) in
      mk (minLevel lg') (delete label (timers lg')) (channel lg')
  | None => lg
  end.

End LoggerTs.

(* ================================================================= *)
(** ** Notions used in the further properties *)

(** The classes of AIClients.ts whose [generateCode] only throws. *)
Definition is_stub (c : ClientClass) : bool :=
  match c with
  | CopilotClient | GeminiClient | ClaudeClient | LlamaClient | PerplexityClient
  | JasperClient | ChatSonicClient | UndetectableClient | CharacterAIClient
  | ClickUpClient | WritesonicClient | CodeWhispererClient => true
  | _ => false
  end.

(** The fifth expression of [errorPatterns]. *)
Definition re_ReferenceError : Regex :=
  [Lit "ReferenceError: "; GroupOpen; Lit "\"; CharPlus "w"; GroupClose;
   Lit " is not defined"].

(** Whether a character occurs in a string. *)
Fixpoint has_char (c : ascii) (s : string) : bool :=
  match s with
  | EmptyString => false
  | String d s' => Ascii.eqb c d || has_char c s'
  end.

(** Whether every character of a string satisfies a test. *)
Fixpoint all_chars (ok : ascii → bool) (s : string) : bool :=
  match s with
  | EmptyString => true
  | String c s' => ok c && all_chars ok s'
  end.

(** A caller that makes the calls [writeFile(p, c)] for the contents of a
    list, one after the other, all for the same path. *)
Definition run_writes_of (h : Host) (fm : FileManager) (p : string) (contents : list string)
    (w : World) : World :=
  run_writes h fm ((λ c, (p, c)) <$> contents) w.

(** A decimal digit. *)
Definition is_digit (c : ascii) : bool :=
  let n := nat_of_ascii c in ((48 <=? n)%nat && (n <=? 57)%nat).

(** A character that [.] matches. *)
Definition on_the_line (c : ascii) : bool := negb (is_line_terminator c).

(** The requests for generated text among some events. *)
Definition asks (evs : list Event) : list Event := List.filter is_ask evs.

(** A computation that makes at most [n] requests for generated text. *)
Definition Spends (n : nat) {A} (m : Async A) : Prop :=
  ∀ w, ∃ evs, events (snd (m w)) = (events w ++ evs)%list ∧ (length (asks evs) ≤ n)%nat.

(* ================================================================= *)
(** * Properties *)

(** ** What a write computes *)

Lemma writeFile_eq h fm p c w :
  writeFile h fm p c w =
    let w3 := recorded h fm p w in
    let uri := joinPath (workspaceRoot fm) p in
    if editApplies h uri c w3 then
      (Resolved tt,
       add_event (EvLogger info ("Wrote file " +:+ p))
         (add_event (EvApplyEdit uri c true)
            (set_buffers (insert uri c) (set_files (insert uri EmptyString) w3))))
    else
      (Rejected (mkError ("Failed to write file: " +:+ p)),
       add_event (EvLogger error ("Failed to write file " +:+ p))
         (add_event (EvApplyEdit uri c false) w3)).
Proof.
  unfold writeFile, recorded, recordOf, read_changeHistory, tick, fileExists,
    attempt, fs_stat, readFile, fs_readFile, fs_writeFile, push_changeHistory,
    saveHistory, applyEdit, logger_info, logger_error, emit, ret, throw,
    read_changeHistory, bind, changeHistory.
  cbn.
  destruct (files w !! joinPath (workspaceRoot fm) p) as [old|] eqn:E; cbn;
    rewrite ?E; cbn; rewrite !lookup_insert_eq; cbn.
  all: match goal with
       | |- context [editApplies ?h' ?u ?c' ?w'] => destruct (editApplies h' u c' w')
       end; reflexivity.
Qed.

(** ** The versioned file store *)

Lemma changeHistory_recorded h fm p w :
  changeHistory fm (recorded h fm p w) = (changeHistory fm w ++ [recordOf h fm p w])%list.
Proof.
  unfold recorded, changeHistory. cbn.
  destruct (files w !! joinPath (workspaceRoot fm) p); cbn; by rewrite lookup_insert_eq.
Qed.

Lemma heap_after_writeFile h fm p c w :
  heap (snd (writeFile h fm p c w)) = heap (recorded h fm p w).
Proof.
  rewrite writeFile_eq. cbn zeta.
  by destruct (editApplies _ _ _ _).
Qed.

(** Every call of [writeFile], whatever its outcome, pushes one record. *)
Lemma writeFile_history h fm p c w :
  changeHistory fm (snd (writeFile h fm p c w))
  = (changeHistory fm w ++ [recordOf h fm p w])%list.
Proof.
  unfold changeHistory at 1. rewrite heap_after_writeFile.
  apply changeHistory_recorded.
Qed.

(** The history of another [FileManager] object is left alone. *)
Lemma writeFile_history_other h fm fm' p c w :
  self fm' ≠ self fm →
  changeHistory fm' (snd (writeFile h fm p c w)) = changeHistory fm' w.
Proof.
  intros Hne. unfold changeHistory. rewrite heap_after_writeFile.
  unfold recorded. cbn.
  destruct (files w !! joinPath (workspaceRoot fm) p); cbn;
    by rewrite lookup_insert_ne.
Qed.

Lemma max_list_seq a n : max_list (seq a (S n)) = a + n.
Proof.
  revert a. induction n as [|n IH]; intros a.
  - cbn. lia.
  - change (seq a (S (S n))) with (a :: seq (S a) (S n)).
    change (max_list (a :: seq (S a) (S n))) with (a `max` max_list (seq (S a) (S n))).
    rewrite IH. lia.
Qed.

Lemma nextVersion_after_gapless hist p n :
  version <$> filter (λ r, filePath r = p) hist = seq 1 n →
  nextVersion hist p = S n.
Proof.
  intros Hv. unfold nextVersion.
  assert (Hlen : length (filter (λ r, filePath r = p) hist) = n).
  { rewrite <- (length_fmap version), Hv. apply length_seq. }
  rewrite Hlen, Hv. destruct n as [|n]; [reflexivity|].
  cbn [Nat.ltb Nat.leb]. rewrite max_list_seq. lia.
Qed.

Lemma filter_recordOf h fm q p w :
  filter (λ r, filePath r = p) [recordOf h fm q w]
  = if decide (q = p) then [recordOf h fm q w] else [].
Proof.
  rewrite filter_cons, filter_nil. change (filePath (recordOf h fm q w)) with q.
  by destruct (decide (q = p)).
Qed.




(** ** Computations that leave part of the world alone *)

Section Steady.
Variable ok : Event → bool.
Variable keep : nat.

Lemma steady_refl w : steady ok keep w w.
Proof. split; [|done]. exists []. by rewrite app_nil_r. Qed.

Lemma steady_trans w1 w2 w3 :
  steady ok keep w1 w2 → steady ok keep w2 w3 → steady ok keep w1 w3.
Proof.
  intros ([e1 [E1 O1]] & R1 & H1) ([e2 [E2 O2]] & R2 & H2).
  split; [|split; congruence].
  exists (e1 ++ e2)%list. rewrite E2, E1, <- app_assoc. split; [done|].
  rewrite forallb_app. by rewrite O1, O2.
Qed.

Lemma Steady_ret {A} (a : A) : Steady ok keep (ret a).
Proof. intros w. apply steady_refl. Qed.

Lemma Steady_throw {A} e : Steady ok keep (@throw A e).
Proof. intros w. apply steady_refl. Qed.

Lemma Steady_bind {A B} (m : Async A) (k : A → Async B) :
  Steady ok keep m → (∀ a, Steady ok keep (k a)) → Steady ok keep (bind m k).
Proof.
  intros Hm Hk w. unfold bind. specialize (Hm w).
  destruct (m w) as [[a|e] w1]; cbn in *; [|done].
  eapply steady_trans; [exact Hm|]. apply Hk.
Qed.

Lemma Steady_attempt {A} (m : Async A) : Steady ok keep m → Steady ok keep (attempt m).
Proof. intros Hm w. unfold attempt. specialize (Hm w). by destruct (m w). Qed.

Lemma Steady_emit e : ok e = true → Steady ok keep (emit e).
Proof.
  intros He w. split; [|done]. exists [e]. split; [done|]. cbn. by rewrite He.
Qed.

Lemma Steady_get_world : Steady ok keep get_world.
Proof. intros w. apply steady_refl. Qed.

Lemma Steady_tick : Steady ok keep tick.
Proof. intros w. split; [|done]. exists []. by rewrite app_nil_r. Qed.

Lemma Steady_await {A} (p : Promise A) : Steady ok keep (await p).
Proof. destruct p as [[a|e]]; [apply Steady_ret|apply Steady_throw]. Qed.

Lemma Steady_fs_readFile uri : Steady ok keep (fs_readFile uri).
Proof. intros w. unfold fs_readFile. destruct (files w !! uri); apply steady_refl. Qed.

Lemma Steady_getConfiguration s key d : Steady ok keep (getConfiguration s key d).
Proof.
  unfold getConfiguration.
  destruct (cfg_string s key); [apply Steady_ret|].
  destruct d; [apply Steady_ret|apply Steady_throw].
Qed.

Hypothesis ok_logger : ∀ lvl msg, ok (EvLogger lvl msg) = true.

Lemma Steady_logger_info msg : Steady ok keep (logger_info msg).
Proof. apply Steady_emit, ok_logger. Qed.
Lemma Steady_logger_warn msg : Steady ok keep (logger_warn msg).
Proof. apply Steady_emit, ok_logger. Qed.
Lemma Steady_logger_error msg : Steady ok keep (logger_error msg).
Proof. apply Steady_emit, ok_logger. Qed.

Hypothesis ok_mkdir : ∀ uri, ok (EvMkdir uri) = true.

Lemma Steady_createDirectory fm p : Steady ok keep (createDirectory fm p).
Proof.
  apply Steady_bind; [apply Steady_emit, ok_mkdir|].
  intros _. apply Steady_logger_info.
Qed.

Hypothesis ok_fsWrite : ∀ uri c, ok (EvFsWrite uri c) = true.
Hypothesis ok_applyEdit : ∀ uri c b, ok (EvApplyEdit uri c b) = true.

Lemma steady_add_event e w w' :
  ok e = true → steady ok keep w w' → steady ok keep w (add_event e w').
Proof.
  intros He ([evs [E O]] & R & H). split; [|done].
  exists (evs ++ [e])%list. cbn. rewrite E, <- app_assoc. split; [done|].
  rewrite forallb_app, O. cbn. by rewrite He.
Qed.

Lemma steady_set_files f w w' : steady ok keep w w' → steady ok keep w (set_files f w').
Proof. by intros (E & R & H). Qed.

Lemma steady_set_ticks f w w' : steady ok keep w w' → steady ok keep w (set_ticks f w').
Proof. by intros (E & R & H). Qed.

Lemma steady_set_models f w w' : steady ok keep w w' → steady ok keep w (set_models f w').
Proof. by intros (E & R & H). Qed.

Lemma steady_set_buffers f w w' : steady ok keep w w' → steady ok keep w (set_buffers f w').
Proof. by intros (E & R & H). Qed.

Lemma steady_set_heap k l w w' :
  k ≠ keep → steady ok keep w w' → steady ok keep w (set_heap (insert k l) w').
Proof.
  intros Hne (E & R & H). split; [done|]. split; [done|].
  cbn. by rewrite lookup_insert_ne.
Qed.

(** A write through another [FileManager] object. *)
Lemma Steady_writeFile h fm p c : self fm ≠ keep → Steady ok keep (writeFile h fm p c).
Proof.
  intros Hne w. rewrite writeFile_eq. cbn zeta.
  assert (Hrec : steady ok keep w (recorded h fm p w)).
  { unfold recorded.
    apply steady_add_event, steady_set_files, steady_set_heap; [done..|].
    destruct (files w !! joinPath (workspaceRoot fm) p).
    - apply steady_add_event, steady_add_event, steady_set_files, steady_set_ticks,
        steady_refl; done.
    - apply steady_set_ticks, steady_refl. }
  destruct (editApplies _ _ _ _); cbn [snd].
  - by apply steady_add_event, steady_add_event, steady_set_buffers, steady_set_files.
  - by apply steady_add_event, steady_add_event.
Qed.
End Steady.

Lemma Succeeds_ret {A} (a : A) : Succeeds (ret a).
Proof. intros w. by exists a. Qed.

Lemma Succeeds_bind {A B} (m : Async A) (k : A → Async B) :
  Succeeds m → (∀ a, Succeeds (k a)) → Succeeds (bind m k).
Proof.
  intros Hm Hk w. unfold bind. destruct (Hm w) as [a Ha].
  destruct (m w) as [[a'|e] w1]; cbn in Ha; [|done]. apply Hk.
Qed.

Lemma Succeeds_attempt {A} (m : Async A) : Succeeds (attempt m).
Proof. intros w. unfold attempt. destruct (m w) as [r w1]. by exists r. Qed.

Lemma Succeeds_emit e : Succeeds (emit e).
Proof. intros w. by exists tt. Qed.

Lemma Succeeds_tick : Succeeds tick.
Proof. intros w. by eexists. Qed.

Lemma Succeeds_get_world : Succeeds get_world.
Proof. intros w. by eexists. Qed.

Lemma Succeeds_createDirectory fm p : Succeeds (createDirectory fm p).
Proof. apply Succeeds_bind; [apply Succeeds_emit|]. intros _. apply Succeeds_emit. Qed.

Lemma Succeeds_getConfiguration s key d : Succeeds (getConfiguration s key (Some d)).
Proof. intros w. unfold getConfiguration. destruct (cfg_string s key); by eexists. Qed.

(** The steps that the tactics below recognise. *)
Ltac steady_step :=
  first
    [ apply Steady_ret | apply Steady_throw | apply Steady_get_world | apply Steady_tick
    | apply Steady_await | apply Steady_fs_readFile | apply Steady_getConfiguration
    | apply Steady_logger_info; done | apply Steady_logger_warn; done
    | apply Steady_logger_error; done | apply Steady_createDirectory; done
    | apply Steady_emit; done
    | apply Steady_writeFile; done
    | apply Steady_attempt
    | apply Steady_bind; [|intros ?]
    | match goal with
      | |- Steady _ _ (match ?x with _ => _ end) => destruct x
      end ].
Ltac steady_tac := repeat steady_step.

Ltac succeeds_step :=
  first
    [ apply Succeeds_ret | apply Succeeds_attempt | apply Succeeds_emit
    | apply Succeeds_tick | apply Succeeds_get_world | apply Succeeds_createDirectory
    | apply Succeeds_getConfiguration
    | apply Succeeds_bind; [|intros ?]
    | match goal with
      | |- Succeeds (match ?x with _ => _ end) => destruct x
      end ].
Ltac succeeds_tac := repeat succeeds_step.

Lemma Steady_readFile ok keep fm p : Steady ok keep (readFile fm p).
Proof. apply Steady_fs_readFile. Qed.

Lemma Steady_getContext ok keep er p :
  (∀ lvl msg, ok (EvLogger lvl msg) = true) → Steady ok keep (getContext er p).
Proof. intros Hl. unfold getContext. steady_tac. Qed.

Lemma Succeeds_getContext er p : Succeeds (getContext er p).
Proof. unfold getContext, logger_warn. succeeds_tac. Qed.

Lemma Steady_generateCode ok keep h c prompt_ opts :
  (∀ e, is_ask e = true → ok e = true) →
  Steady ok keep (generateCode h c prompt_ opts).
Proof.
  intros Hask. unfold generateCode, http_generate.
  destruct (cls c); steady_tac; by apply Steady_emit, Hask.
Qed.

Lemma Steady_runCommand ok keep h cmd ws :
  (∀ lvl msg, ok (EvLogger lvl msg) = true) → ok (EvSendText cmd) = true →
  Steady ok keep (runCommand h cmd ws).
Proof. intros Hl Hc. unfold runCommand. steady_tac. Qed.


Lemma bind_resolved {A B} (m : Async A) (k : A → Async B) w a w1 :
  m w = (Resolved a, w1) → bind m k w = k a w1.
Proof. intros E. unfold bind. by rewrite E. Qed.

Lemma bind_rejected {A B} (m : Async A) (k : A → Async B) w e w1 :
  m w = (Rejected e, w1) → bind m k w = (Rejected e, w1).
Proof. intros E. unfold bind. by rewrite E. Qed.

Lemma attempt_eq {A} (m : Async A) w r w1 :
  m w = (r, w1) → attempt m w = (Resolved r, w1).
Proof. intros E. unfold attempt. by rewrite E. Qed.

Lemma commands_app e1 e2 : commands (e1 ++ e2) = (commands e1 ++ commands e2)%list.
Proof. apply omap_app. Qed.
Lemma progress_app e1 e2 : progress (e1 ++ e2) = (progress e1 ++ progress e2)%list.
Proof. apply omap_app. Qed.
Lemma requests_app e1 e2 : requests (e1 ++ e2) = (requests e1 ++ requests e2)%list.
Proof. apply omap_app. Qed.

Lemma silent_events evs :
  forallb silent evs = true → commands evs = [] ∧ progress evs = [].
Proof.
  induction evs as [|e evs IH]; [done|]. cbn [forallb].
  intros [He Hevs]%andb_true_iff. destruct (IH Hevs) as [IHc IHp].
  unfold commands, progress in *. cbn [omap list_omap]. rewrite IHc, IHp.
  by destruct e.
Qed.

(** What a [silent] step from [w] to [w'] keeps. *)
Lemma steady_silent keep w w' :
  steady silent keep w w' →
  commands (events w') = commands (events w)
  ∧ progress (events w') = progress (events w)
  ∧ isRunning w' = isRunning w
  ∧ heap w' !! keep = heap w !! keep.
Proof.
  intros ([evs [E O]] & R & H). destruct (silent_events evs O) as [Hc Hp].
  rewrite E, commands_app, progress_app, Hc, Hp, !app_nil_r. done.
Qed.

Lemma Steady_analyzeAndFix_nodep h er msg p keep :
  checkForDependencyError msg = None →
  self (er_fileManager er) ≠ keep →
  Steady silent keep (analyzeAndFix h er msg p).
Proof.
  intros Hdep Hne. unfold analyzeAndFix. rewrite Hdep.
  steady_tac; first [by apply Steady_getContext | by apply Steady_generateCode; intros []].
Qed.

Lemma Succeeds_analyzeAndFix_nodep h er msg p :
  checkForDependencyError msg = None →
  (∀ q, Succeeds (generateCode h (er_llm er) q None)) →
  Succeeds (analyzeAndFix h er msg p).
Proof.
  intros Hdep Hllm. unfold analyzeAndFix. rewrite Hdep.
  unfold logger_info, logger_warn.
  succeeds_tac; first [apply Succeeds_getContext | apply Hllm].
Qed.

(** [runCommand] for a command that exits with a non-zero status. *)
Lemma runCommand_fails h cmd ws w code :
  exitCode h cmd (add_event (EvSendText cmd) w) = code → code ≠ 0%Z →
  let msg := "Command failed: " +:+ cmd +:+ ", Exit code: " +:+ pretty code in
  runCommand h cmd ws w
  = (Rejected (mkError msg), add_event (EvLogger error msg) (add_event (EvSendText cmd) w)).
Proof.
  intros Hc Hnz. unfold runCommand, bind, emit, get_world. cbn. rewrite Hc.
  destruct (Z.eqb_spec code 0); [done|]. reflexivity.
Qed.

(** [writeFile] when the editor applies the edit. *)
Lemma writeFile_applied h fm p c w :
  editApplies h (joinPath (workspaceRoot fm) p) c (recorded h fm p w) = true →
  ∃ w', writeFile h fm p c w = (Resolved tt, w')
    ∧ (files w' !! joinPath (workspaceRoot fm) p = Some EmptyString
       ∧ buffers w' !! joinPath (workspaceRoot fm) p = Some c)
    ∧ changeHistory fm w' = (changeHistory fm w ++ [recordOf h fm p w])%list
    ∧ commands (events w') = commands (events w)
    ∧ progress (events w') = progress (events w)
    ∧ isRunning w' = isRunning w.
Proof.
  intros Hok.
  pose proof (writeFile_history h fm p c w) as Hh.
  pose proof (Steady_writeFile silent (S (self fm)) (λ _ _, eq_refl) (λ _ _, eq_refl)
                (λ _ _ _, eq_refl) h fm p c (n_Sn _) w) as Hs.
  apply steady_silent in Hs as (Hc & Hp & Hr & _).
  rewrite writeFile_eq in *. cbn zeta in *. rewrite Hok in *.
  eexists. split; [reflexivity|]. cbn [snd] in *.
  split; [|done]. cbn. split; apply lookup_insert_eq.
Qed.

Lemma commands_add_event e w :
  commands (events (add_event e w)) = (commands (events w) ++ commands [e])%list.
Proof. apply commands_app. Qed.

Lemma progress_add_event e w :
  progress (events (add_event e w)) = (progress (events w) ++ progress [e])%list.
Proof. apply progress_app. Qed.

(** ** The task pipeline *)

Section AlwaysFailing.
Variables (h : Host) (ac : AutoCoder) (task : Task) (ws : string) (code : Z).

Let failure : string :=
  "Command failed: " +:+ testCommand task +:+ ", Exit code: " +:+ pretty code.

Hypothesis code_nonzero : code ≠ 0%Z.
Hypothesis test_fails : ∀ w, exitCode h (testCommand task) w = code.
Hypothesis no_dependency : checkForDependencyError failure = None.
Hypothesis recovery_llm_answers :
  ∀ q, Succeeds (generateCode h (er_llm (ac_recovery ac)) q None).
Hypothesis edits_apply : ∀ uri c w, editApplies h uri c w = true.
Hypothesis own_store : self (ac_files ac) ≠ self (er_fileManager (ac_recovery ac)).

(** One turn of the loop of [testAndFix]: the test, the repair and the
    rewrite. *)
Lemma testAndFix_turn left w n :
  version <$> filter (λ r, filePath r = file task) (changeHistory (ac_files ac) w)
    = seq 1 n →
  ∃ w1,
    testAndFix_loop h ac task ws (S left) w = testAndFix_loop h ac task ws left w1
    ∧ commands (events w1) = (commands (events w) ++ [testCommand task])%list
    ∧ progress (events w1)
      = (progress (events w)
           ++ ["❌ Test failed: " +:+ failure; "Applied fix to " +:+ file task])%list
    ∧ version <$> filter (λ r, filePath r = file task) (changeHistory (ac_files ac) w1)
      = seq 1 (S n)
    ∧ isRunning w1 = isRunning w.
Proof.
  intros Hv. cbn [testAndFix_loop].
  (* the test fails *)
  pose proof (runCommand_fails h (testCommand task) ws w code (test_fails _) code_nonzero)
    as Hrun. cbn zeta in Hrun. fold failure in Hrun.
  erewrite bind_resolved;
    [|apply attempt_eq; erewrite bind_rejected by exact Hrun; reflexivity].
  cbn [message].
  set (w1 := add_event (EvLogger error failure) (add_event (EvSendText (testCommand task)) w)).
  erewrite bind_resolved by reflexivity.
  set (w2 := add_event (EvProgress ("❌ Test failed: " +:+ failure)) w1).
  (* the recovery engine answers *)
  destruct (Succeeds_analyzeAndFix_nodep h (ac_recovery ac) failure (file task)
              no_dependency recovery_llm_answers w2) as [fixed Hfix].
  pose proof (Steady_analyzeAndFix_nodep h (ac_recovery ac) failure (file task)
                (self (ac_files ac)) no_dependency (not_eq_sym own_store) w2) as Hst.
  destruct (analyzeAndFix h (ac_recovery ac) failure (file task) w2) as [r w3] eqn:Ean.
  cbn [fst snd] in Hfix, Hst. subst r.
  apply steady_silent in Hst as (Hc3 & Hp3 & Hr3 & Hh3).
  erewrite bind_resolved by exact Ean.
  (* the file is rewritten *)
  destruct (writeFile_applied h (ac_files ac) (file task) fixed w3 (edits_apply _ _ _))
    as (w4 & Ew & _ & Hh4 & Hc4 & Hp4 & Hr4).
  erewrite bind_resolved by exact Ew.
  erewrite bind_resolved by reflexivity.
  eexists. split; [reflexivity|].
  assert (Hhist : changeHistory (ac_files ac) w3 = changeHistory (ac_files ac) w).
  { unfold changeHistory. by rewrite Hh3. }
  rewrite commands_add_event, progress_add_event, Hc4, Hp4, Hc3, Hp3.
  subst w2 w1. rewrite !commands_add_event, !progress_add_event.
  cbn [commands progress omap list_omap app].
  rewrite !app_nil_r, <- !app_assoc. cbn [app].
  split; [done|]. split; [done|]. split; [|cbn; by rewrite Hr4, Hr3].
  change (changeHistory (ac_files ac) (add_event ?[e] w4))
    with (changeHistory (ac_files ac) w4).
  rewrite Hh4, filter_app, fmap_app, filter_recordOf, decide_True by done.
  rewrite Hhist, Hv.
  change (version <$> [recordOf h (ac_files ac) (file task) w3])
    with [nextVersion (changeHistory (ac_files ac) w3) (file task)].
  rewrite Hhist, (nextVersion_after_gapless _ _ n Hv).
  by rewrite seq_S.
Qed.

(** The loop of [testAndFix] when the test fails at every attempt. *)
Lemma testAndFix_loop_exhausts left : ∀ w n,
  version <$> filter (λ r, filePath r = file task) (changeHistory (ac_files ac) w)
    = seq 1 n →
  ∃ w',
    testAndFix_loop h ac task ws left w = (Resolved tt, w')
    ∧ commands (events w') = (commands (events w) ++ replicate left (testCommand task))%list
    ∧ progress (events w')
      = (progress (events w)
           ++ concat (replicate left
                ["❌ Test failed: " +:+ failure; "Applied fix to " +:+ file task])
           ++ ["⚠️ Could not auto‑fix " +:+ file task +:+ " after multiple attempts."])%list
    ∧ version <$> filter (λ r, filePath r = file task) (changeHistory (ac_files ac) w')
      = seq 1 (n + left)
    ∧ isRunning w' = isRunning w.
Proof.
  induction left as [|left IH]; intros w n Hv.
  - eexists. split; [reflexivity|]. rewrite progress_add_event, commands_add_event.
    cbn. rewrite !app_nil_r, Nat.add_0_r. done.
  - destruct (testAndFix_turn left w n Hv) as (w1 & E1 & Hc1 & Hp1 & Hv1 & Hr1).
    destruct (IH w1 (S n) Hv1) as (w' & E & Hc & Hp & Hv' & Hr).
    exists w'. rewrite E1, E, Hc, Hp, Hv', Hr, Hc1, Hp1, Hr1.
    cbn [replicate concat]. rewrite <- !app_assoc. cbn [app].
    by rewrite Nat.add_succ_comm.
Qed.
End AlwaysFailing.

(** [runQualityChecks] never throws and leaves the stores alone. *)
Lemma runQualityChecks_effect h f lang ws w :
  ∃ w' q,
    runQualityChecks h f lang ws w = (Resolved tt, w')
    ∧ commands (events w') = (commands (events w) ++ qualityCommands lang f)%list
    ∧ progress (events w') = (progress (events w) ++ q)%list
    ∧ heap w' = heap w
    ∧ isRunning w' = isRunning w.
Proof.
  unfold runQualityChecks, qualityCommands.
  destruct (String.eqb lang "python"), (String.eqb lang "javascript");
    try (exists w, []; rewrite !app_nil_r; done);
    unfold runCommand, bind, attempt, emit, get_world, logger_info, logger_error, log,
      throw, ret; cbn;
    match goal with
    | |- context [Z.eqb ?c 0] => destruct (Z.eqb c 0)
    end; cbn;
    eexists _, [_]; (split; [reflexivity|]);
    rewrite ?commands_add_event, ?progress_add_event; cbn;
    rewrite ?app_nil_r; done.
Qed.

(** C1 (as amended). For a task whose test command fails at every
    attempt (with no missing-dependency text in the failure message, a
    client that answers and an editor that applies the edits), [runTask]
    runs the test exactly 3 times, each failure followed by a repair and a
    rewrite of the file, then reports that it could not fix the file and
    goes on with the quality check and the next task; the file's history,
    empty before, then holds the versions 1 to 4: the generated code and
    the three rewrites. *)
Theorem always_failing_task_is_retried_three_times h ac perf_ lang ws task rest w code :
  let failure := "Command failed: " +:+ testCommand task +:+ ", Exit code: " +:+ pretty code in
  code ≠ 0%Z →
  (∀ w, exitCode h (testCommand task) w = code) →
  checkForDependencyError failure = None →
  (∀ q o, Succeeds (generateCode h (ac_llm ac) q o)) →
  (∀ q, Succeeds (generateCode h (er_llm (ac_recovery ac)) q None)) →
  (∀ uri c w, editApplies h uri c w = true) →
  self (ac_files ac) ≠ self (er_fileManager (ac_recovery ac)) →
  getChangeHistory (ac_files ac) (Some (file task)) w = [] →
  isRunning w = true →
  ∃ w' q,
    runTask h ac perf_ lang ws task w = (Resolved tt, w')
    ∧ runTasks h ac perf_ lang ws (task :: rest) w = runTasks h ac perf_ lang ws rest w'
    ∧ commands (events w')
      = (commands (events w) ++ replicate 3 (testCommand task)
           ++ qualityCommands lang (file task))%list
    ∧ progress (events w')
      = (progress (events w)
           ++ ["Generating code for " +:+ file task +:+ "...";
               "Testing " +:+ file task +:+ "...";
               "❌ Test failed: " +:+ failure; "Applied fix to " +:+ file task;
               "❌ Test failed: " +:+ failure; "Applied fix to " +:+ file task;
               "❌ Test failed: " +:+ failure; "Applied fix to " +:+ file task;
               "⚠️ Could not auto‑fix " +:+ file task +:+ " after multiple attempts.";
               "Running quality checks on " +:+ file task +:+ "..."]
           ++ q)%list
    ∧ version <$> getChangeHistory (ac_files ac) (Some (file task)) w' = [1; 2; 3; 4]
    ∧ isRunning w' = true.
Proof.
  intros failure Hcode Hfail Hdep Hgen Hfix Hedit Hown Hfresh Hrun.
  unfold getChangeHistory in *.
  assert (Hstep : ∃ w' q,
    runTask h ac perf_ lang ws task w = (Resolved tt, w')
    ∧ commands (events w')
      = (commands (events w) ++ replicate 3 (testCommand task)
           ++ qualityCommands lang (file task))%list
    ∧ progress (events w')
      = (progress (events w)
           ++ ["Generating code for " +:+ file task +:+ "...";
               "Testing " +:+ file task +:+ "...";
               "❌ Test failed: " +:+ failure; "Applied fix to " +:+ file task;
               "❌ Test failed: " +:+ failure; "Applied fix to " +:+ file task;
               "❌ Test failed: " +:+ failure; "Applied fix to " +:+ file task;
               "⚠️ Could not auto‑fix " +:+ file task +:+ " after multiple attempts.";
               "Running quality checks on " +:+ file task +:+ "..."]
           ++ q)%list
    ∧ version <$> filter (λ r, filePath r = file task) (changeHistory (ac_files ac) w')
      = [1; 2; 3; 4]
    ∧ isRunning w' = true).
  { unfold runTask.
    erewrite bind_resolved by reflexivity.
    set (w1 := add_event (EvProgress ("Generating code for " +:+ file task +:+ "...")) w).
    (* the code is generated *)
    destruct (Hgen (prompt task) (Some (generationOptions perf_)) w1) as [code_ Hcode_].
    pose proof (Steady_generateCode silent (self (ac_files ac)) h (ac_llm ac) (prompt task)
                  (Some (generationOptions perf_))) as Hst.
    specialize (Hst ltac:(by intros []) w1).
    destruct (generateCode h (ac_llm ac) (prompt task) (Some (generationOptions perf_)) w1)
      as [r w2] eqn:Eg.
    cbn [fst snd] in Hcode_, Hst. subst r.
    apply steady_silent in Hst as (Hc2 & Hp2 & Hr2 & Hh2).
    erewrite bind_resolved by exact Eg.
    (* and written *)
    destruct (writeFile_applied h (ac_files ac) (file task) code_ w2 (Hedit _ _ _))
      as (w3 & Ew & _ & Hh3 & Hc3 & Hp3 & Hr3).
    erewrite bind_resolved by exact Ew.
    erewrite bind_resolved by reflexivity.
    set (w4 := add_event (EvProgress ("Testing " +:+ file task +:+ "...")) w3).
    assert (Hhist2 : changeHistory (ac_files ac) w2 = changeHistory (ac_files ac) w).
    { unfold changeHistory. by rewrite Hh2. }
    assert (Hv4 : version <$> filter (λ r, filePath r = file task)
                    (changeHistory (ac_files ac) w4) = seq 1 1).
    { change (changeHistory (ac_files ac) w4) with (changeHistory (ac_files ac) w3).
      rewrite Hh3, filter_app, fmap_app, filter_recordOf, decide_True by done.
      rewrite Hhist2, Hfresh.
      change (version <$> [recordOf h (ac_files ac) (file task) w2])
        with [nextVersion (changeHistory (ac_files ac) w2) (file task)].
      rewrite Hhist2, (nextVersion_after_gapless _ _ 0); [done|]. by rewrite Hfresh. }
    (* the three attempts *)
    destruct (testAndFix_loop_exhausts h ac task ws code Hcode Hfail Hdep Hfix Hedit Hown
                3 w4 1 Hv4) as (w5 & Et & Hc5 & Hp5 & Hv5 & Hr5).
    unfold testAndFix. erewrite bind_resolved by exact Et.
    erewrite bind_resolved by reflexivity.
    set (w6 := add_event (EvProgress ("Running quality checks on " +:+ file task +:+ "...")) w5).
    destruct (runQualityChecks_effect h (file task) lang ws w6)
      as (w7 & q & Eq & Hc7 & Hp7 & Hh7 & Hr7).
    exists w7, q. split; [exact Eq|].
    rewrite Hc7, Hp7, Hr7. unfold changeHistory at 1. rewrite Hh7.
    subst w6. rewrite commands_add_event, progress_add_event, Hc5, Hp5.
    change (heap (add_event ?[e] w5) !! self (ac_files ac)) with (heap w5 !! self (ac_files ac)).
    change (default [] (heap w5 !! self (ac_files ac))) with (changeHistory (ac_files ac) w5).
    rewrite Hv5.
    subst w4. rewrite commands_add_event, progress_add_event, Hc3, Hp3, Hc2, Hp2.
    subst w1. rewrite commands_add_event, progress_add_event.
    cbn [commands progress omap list_omap app replicate concat].
    rewrite !app_nil_r, <- !app_assoc. cbn [app].
    split; [done|]. split; [done|]. split; [done|].
    cbn. rewrite Hr5. cbn. rewrite Hr3, Hr2. exact Hrun. }
  destruct Hstep as (w' & q & E & Hc & Hp & Hv & Hr).
  exists w', q. split; [exact E|]. split; [|done].
  cbn [runTasks]. unfold bind at 1, get_world. cbn. rewrite Hrun. cbn.
  by erewrite bind_resolved by exact E.
Qed.

Lemma always_failing_task_is_retried_three_times_witness :
  ∃ w' q,
    runTask (demo_host ["python src/a.py"] "print(1)") demo_ac "balanced" "python" "/ws"
      spec_task demo_world = (Resolved tt, w')
    ∧ runTasks (demo_host ["python src/a.py"] "print(1)") demo_ac "balanced" "python" "/ws"
        [spec_task] demo_world
      = runTasks (demo_host ["python src/a.py"] "print(1)") demo_ac "balanced" "python" "/ws"
          [] w'
    ∧ commands (events w')
      = ["python src/a.py"; "python src/a.py"; "python src/a.py"; "flake8 src/a.py"]
    ∧ progress (events w')
      = (["Generating code for src/a.py..."; "Testing src/a.py...";
          "❌ Test failed: Command failed: python src/a.py, Exit code: 1";
          "Applied fix to src/a.py";
          "❌ Test failed: Command failed: python src/a.py, Exit code: 1";
          "Applied fix to src/a.py";
          "❌ Test failed: Command failed: python src/a.py, Exit code: 1";
          "Applied fix to src/a.py";
          "⚠️ Could not auto‑fix src/a.py after multiple attempts.";
          "Running quality checks on src/a.py..."] ++ q)%list
    ∧ version <$> getChangeHistory demo_fm (Some "src/a.py") w' = [1; 2; 3; 4]
    ∧ isRunning w' = true.
Proof.
  apply (always_failing_task_is_retried_three_times
           (demo_host ["python src/a.py"] "print(1)") demo_ac "balanced" "python" "/ws"
           spec_task [] demo_world 1%Z).
  - lia.
  - intros w. reflexivity.
  - vm_compute. reflexivity.
  - intros q o w. eexists. reflexivity.
  - intros q w. eexists. reflexivity.
  - intros uri c w. reflexivity.
  - vm_compute. lia.
  - reflexivity.
  - reflexivity.
Defined.

(** In the scenario of the specification the history of [src/a.py] ends
    with four records, not three. *)
Lemma three_records_after_exhaustion_counterexample :
  commands (events scenario_end)
    = ["python src/a.py"; "python src/a.py"; "python src/a.py"; "flake8 src/a.py"]
  ∧ version <$> getChangeHistory demo_fm (Some "src/a.py") scenario_end = [1; 2; 3; 4]
  ∧ ¬ (length (getChangeHistory demo_fm (Some "src/a.py") scenario_end) = 3
       ∧ version <$> getChangeHistory demo_fm (Some "src/a.py") scenario_end = [1; 2; 3]).
Proof.
  vm_compute. split; [reflexivity|]. split; [reflexivity|]. intros [H _]. discriminate H.
Qed.

(** ** Reverting *)

(** The records of [p] already in a history have versions below the next one. *)
Lemma nextVersion_above hist p r :
  r ∈ hist → filePath r = p → (version r < nextVersion hist p)%nat.
Proof.
  intros Hin Hp. unfold nextVersion.
  assert (Hr : r ∈ filter (λ r, filePath r = p) hist) by (by apply list_elem_of_filter).
  destruct (filter (λ r, filePath r = p) hist) as [|r0 l] eqn:E.
  - by apply not_elem_of_nil in Hr.
  - cbn [length Nat.ltb Nat.leb].
    assert ((version r ≤ max_list (version <$> r0 :: l))%nat); [|lia].
    apply max_list_elem_of_le, list_elem_of_fmap. by exists r.
Qed.

(** [find] gives the record of a write back, whatever was pushed after it. *)
Lemma findRecord_recordOf h fm p w later :
  findRecord ((changeHistory fm w ++ [recordOf h fm p w]) ++ later) p
    (nextVersion (changeHistory fm w) p)
  = Some (recordOf h fm p w).
Proof.
  unfold findRecord.
  assert (Hfind : list_find
            (λ r, filePath r = p ∧ version r = nextVersion (changeHistory fm w) p)
            ((changeHistory fm w ++ [recordOf h fm p w]) ++ later)
          = Some (length (changeHistory fm w), recordOf h fm p w)).
  { apply list_find_Some. split; [|split; [done|]].
    - rewrite <- app_assoc. by rewrite lookup_app_r, Nat.sub_diag by lia.
    - intros j y Hj Hlt [Hyp Hyv].
      rewrite <- app_assoc, lookup_app_l in Hj by done.
      apply list_elem_of_lookup_2 in Hj.
      pose proof (nextVersion_above _ _ _ Hj Hyp). lia. }
  by rewrite Hfind.
Qed.


Lemma string_app_assoc (a b c : string) : (a +:+ b) +:+ c = a +:+ (b +:+ c).
Proof.
  induction a as [|x a IH]; [done|].
  change (String x ((a +:+ b) +:+ c) = String x (a +:+ (b +:+ c))). by rewrite IH.
Qed.

Lemma string_length_app (a b : string) :
  String.length (a +:+ b) = String.length a + String.length b.
Proof.
  induction a as [|x a IH]; [done|].
  change (S (String.length (a +:+ b)) = S (String.length a + String.length b)).
  by rewrite IH.
Qed.

Lemma length_replaceClass cls by_ s :
  String.length (replaceClass cls by_ s) = String.length s.
Proof. induction s as [|x s IH]; [done|]. cbn. by rewrite IH. Qed.

(** The backup file of a write is neither the change-history log nor the
    file being written. *)
Lemma backup_is_not_the_log h fm p w :
  historyFile fm ≠ originalPath (recordOf h fm p w).
Proof.
  unfold historyFile, recordOf, historyDir, joinPath. cbn [originalPath].
  rewrite !string_app_assoc. intros E.
  do 4 apply (inj (String.append _)) in E. discriminate E.
Qed.

Lemma backup_is_not_the_target h fm p w :
  joinPath (workspaceRoot fm) p ≠ originalPath (recordOf h fm p w).
Proof.
  unfold recordOf, historyDir, historyFileName, joinPath. cbn [originalPath].
  rewrite !string_app_assoc. intros E.
  do 2 apply (inj (String.append _)) in E.
  apply (f_equal String.length) in E.
  rewrite !string_length_app, length_replaceClass in E. cbn in E. lia.
Qed.

(** The backup that a write takes holds what the file held before it. *)
Lemma backup_holds_preimage h fm p c old w :
  files w !! joinPath (workspaceRoot fm) p = Some old →
  action (recordOf h fm p w) = modified
  ∧ files (snd (writeFile h fm p c w)) !! originalPath (recordOf h fm p w) = Some old.
Proof.
  intros Hold. split; [unfold recordOf; by rewrite Hold|].
  assert (Hrec : files (recorded h fm p w) !! originalPath (recordOf h fm p w) = Some old).
  { unfold recorded. rewrite Hold. cbn.
    rewrite lookup_insert_ne by apply backup_is_not_the_log.
    apply lookup_insert_eq. }
  rewrite writeFile_eq. cbn zeta.
  destruct (editApplies _ _ _ _); cbn; [|exact Hrec].
  rewrite lookup_insert_ne by apply backup_is_not_the_target. exact Hrec.
Qed.

(** C3. Let a write of [p] be made in [w0], where the file of [p] holds
    [old]; it gets the version [N] and backs [old] up.  In any later world
    [w2] whose history extends the one that write left and in which that
    backup file is as the write left it, [revertToVersion(p, N)] resolves
    when the editor applies its edit, but what it restores is the text of
    an unsaved document: the file of [p] is left empty, and [readFile(p)]
    gives the empty string and not [old]. *)
Theorem revert_then_read_gives_empty_file h fm p c old w0 w2 :
  let N := nextVersion (changeHistory fm w0) p in
  let w1 := snd (writeFile h fm p c w0) in
  let backup := originalPath (recordOf h fm p w0) in
  let uri := joinPath (workspaceRoot fm) p in
  files w0 !! uri = Some old →
  changeHistory fm w1 `prefix_of` changeHistory fm w2 →
  files w2 !! backup = files w1 !! backup →
  editApplies h uri old (recorded h fm p w2) = true →
  files w1 !! backup = Some old
  ∧ ∃ w3,
      revertToVersion h fm p N w2 = (Resolved tt, w3)
      ∧ buffers w3 !! uri = Some old
      ∧ files w3 !! uri = Some EmptyString
      ∧ (let* _ := revertToVersion h fm p N in readFile fm p) w2 = (Resolved EmptyString, w3).
Proof.
  intros N w1 backup uri Hold [later Hlater] Hkept Hedit.
  destruct (backup_holds_preimage h fm p c old w0 Hold) as [_ Hbackup].
  split; [exact Hbackup|].
  subst w1 backup N uri. rewrite Hbackup in Hkept. rewrite writeFile_history in Hlater.
  destruct (writeFile_applied h fm p old w2 Hedit) as (w3 & Ew & [Hf Hb] & _).
  assert (Hrevert : ∃ w4, revertToVersion h fm p (nextVersion (changeHistory fm w0) p) w2
                          = (Resolved tt, w4)
                          ∧ files w4 = files w3 ∧ buffers w4 = buffers w3).
  { unfold revertToVersion.
    erewrite bind_resolved by reflexivity.
    rewrite Hlater, findRecord_recordOf.
    erewrite bind_resolved by (unfold fs_readFile; rewrite Hkept; reflexivity).
    erewrite bind_resolved by exact Ew.
    eexists. split; [reflexivity|]. by split. }
  destruct Hrevert as (w4 & Er & Hf4 & Hb4).
  exists w4. split; [exact Er|]. rewrite Hf4, Hb4. split; [exact Hb|]. split; [exact Hf|].
  erewrite bind_resolved by exact Er.
  unfold readFile, fs_readFile. by rewrite Hf4, Hf.
Qed.

Lemma revert_then_read_gives_empty_file_witness :
  files saved_world !! "/ws/src/a.py" = Some "x=1"
  ∧ nextVersion (changeHistory demo_fm saved_world) "src/a.py" = 1
  ∧ fst ((let* _ := revertToVersion (demo_host [] "ok") demo_fm "src/a.py" 1 in
          readFile demo_fm "src/a.py")
           (snd (writeFile (demo_host [] "ok") demo_fm "src/a.py" "x=2" saved_world)))
    = Resolved EmptyString.
Proof.
  split; [reflexivity|]. split; [reflexivity|].
  destruct (proj2 (revert_then_read_gives_empty_file (demo_host [] "ok") demo_fm "src/a.py"
                     "x=2" "x=1" saved_world
                     (snd (writeFile (demo_host [] "ok") demo_fm "src/a.py" "x=2" saved_world))
                     eq_refl (reflexivity _) eq_refl eq_refl))
    as (w3 & _ & _ & _ & E).
  exact (f_equal fst E).
Defined.

(** Later writes only push records, and a write leaves alone every file
    but its target, its backup and the log: the two conditions on the later
    world in the theorem above hold after any writes that do not reuse the
    backup's name. *)
Lemma run_writes_extends_history h fm calls : ∀ w,
  changeHistory fm w `prefix_of` changeHistory fm (run_writes h fm calls w).
Proof.
  induction calls as [|[q c] calls IH]; intros w; cbn [run_writes]; [done|].
  etrans; [|apply IH]. rewrite writeFile_history. by apply prefix_app_r.
Qed.

Lemma writeFile_leaves_other_files h fm q c w uri :
  uri ≠ joinPath (workspaceRoot fm) q →
  uri ≠ originalPath (recordOf h fm q w) →
  uri ≠ historyFile fm →
  files (snd (writeFile h fm q c w)) !! uri = files w !! uri.
Proof.
  intros Ht Hb Hl.
  assert (Hrec : files (recorded h fm q w) !! uri = files w !! uri).
  { unfold recorded. destruct (files w !! joinPath (workspaceRoot fm) q); cbn;
      by rewrite !lookup_insert_ne. }
  rewrite writeFile_eq. cbn zeta. destruct (editApplies _ _ _ _); cbn; [|done].
  by rewrite lookup_insert_ne.
Qed.

(** [revertToVersion] throws its own error exactly for a pair without record. *)
Lemma revertToVersion_not_found h fm p v w :
  findRecord (changeHistory fm w) p v = None →
  revertToVersion h fm p v w
  = (Rejected (mkError ("Version " +:+ pretty v +:+ " of " +:+ p +:+ " not found")), w).
Proof.
  intros Hnone. unfold revertToVersion.
  erewrite bind_resolved by reflexivity. by rewrite Hnone.
Qed.

(** With a record whose backup file can be read and an edit that applies,
    [revertToVersion] resolves, through a [writeFile] that pushes one more
    record. *)
Lemma revertToVersion_found h fm p v w r content :
  findRecord (changeHistory fm w) p v = Some r →
  files w !! originalPath r = Some content →
  editApplies h (joinPath (workspaceRoot fm) p) content (recorded h fm p w) = true →
  ∃ w', revertToVersion h fm p v w = (Resolved tt, w')
    ∧ (files w' !! joinPath (workspaceRoot fm) p = Some EmptyString
       ∧ buffers w' !! joinPath (workspaceRoot fm) p = Some content)
    ∧ changeHistory fm w' = (changeHistory fm w ++ [recordOf h fm p w])%list.
Proof.
  intros Hr Hc Hedit. unfold revertToVersion.
  destruct (writeFile_applied h fm p content w Hedit) as (w1 & Ew & Hf & Hh & _).
  erewrite bind_resolved by reflexivity. rewrite Hr.
  erewrite bind_resolved by (unfold fs_readFile; rewrite Hc; reflexivity).
  erewrite bind_resolved by exact Ew.
  eexists. split; [reflexivity|]. by split.
Qed.

(** C4. After [writeFile("src/a.py", "x=1")] on an empty workspace the
    record of version 1 exists, with action [created] and a backup path at
    which no file was written; [revertToVersion("src/a.py", 1)] then throws
    the error of the failed read of that path, and writes nothing. *)
Theorem revert_to_created_version_throws :
  findRecord (changeHistory demo_fm created_world) "src/a.py" 1
  = Some (mkChangeRecord "src/a.py" 1 "2026-01-01T00:00:00.0Z"
            "/ws/.vibe/history/src_a.py_v1_2026-01-01T00-00-00-0Z" created)
  ∧ revertToVersion (demo_host [] "ok") demo_fm "src/a.py" 1 created_world
    = (Rejected (enoent "open" "/ws/.vibe/history/src_a.py_v1_2026-01-01T00-00-00-0Z"),
       created_world).
Proof. split; vm_compute; reflexivity. Qed.

(** ** The order of the steps of a write *)

(** C10. The trace of [writeFile] is: the backup (when the file exists),
    the save of the history log with the new record in it, then the edit.
    In the world in which the edit is tried the record is already in the
    in-memory history and in the saved log.  When the edit does not apply,
    [writeFile] throws, and the record, the saved log and the backup stay
    as they were at that point: nothing is rolled back. *)
Theorem writeFile_records_before_it_applies h fm p c w :
  let r := recordOf h fm p w in
  let hist := (changeHistory fm w ++ [r])%list in
  let uri := joinPath (workspaceRoot fm) p in
  let ok := editApplies h uri c (recorded h fm p w) in
  let out := writeFile h fm p c w in
  changeHistory fm (recorded h fm p w) = hist
  ∧ files (recorded h fm p w) !! historyFile fm = Some (JSON_stringify hist)
  ∧ events (snd out)
    = (events w
         ++ match files w !! uri with
            | Some old =>
                [EvFsWrite (originalPath r) old;
                 EvLogger info ("Backed up " +:+ p +:+ " version " +:+ pretty (version r))]
            | None => []
            end
         ++ [EvFsWrite (historyFile fm) (JSON_stringify hist);
             EvApplyEdit uri c ok;
             if ok then EvLogger info ("Wrote file " +:+ p)
             else EvLogger error ("Failed to write file " +:+ p)])%list
  ∧ fst out = (if ok then Resolved tt else Rejected (mkError ("Failed to write file: " +:+ p)))
  ∧ changeHistory fm (snd out) = hist
  ∧ files (snd out) !! historyFile fm
    = (if ok && bool_decide (uri = historyFile fm) then Some EmptyString
       else Some (JSON_stringify hist))
  ∧ match files w !! uri with
    | Some old => files (snd out) !! originalPath r = Some old
    | None => action r = created
    end.
Proof.
  cbv zeta.
  split; [apply changeHistory_recorded|].
  assert (Hlog : files (recorded h fm p w) !! historyFile fm
                 = Some (JSON_stringify (changeHistory fm w ++ [recordOf h fm p w]))).
  { unfold recorded. cbn. apply lookup_insert_eq. }
  split; [exact Hlog|].
  split.
  { rewrite writeFile_eq. cbn zeta.
    assert (Hev : events (recorded h fm p w)
      = (events w
           ++ match files w !! joinPath (workspaceRoot fm) p with
              | Some old =>
                  [EvFsWrite (originalPath (recordOf h fm p w)) old;
                   EvLogger info ("Backed up " +:+ p +:+ " version "
                                    +:+ pretty (version (recordOf h fm p w)))]
              | None => []
              end
           ++ [EvFsWrite (historyFile fm)
                 (JSON_stringify (changeHistory fm w ++ [recordOf h fm p w]))])%list).
    { unfold recorded. destruct (files w !! joinPath (workspaceRoot fm) p); cbn;
        by rewrite <- ?app_assoc. }
    set (ok := editApplies h (joinPath (workspaceRoot fm) p) c (recorded h fm p w)).
    clearbody ok.
    destruct ok; cbn [snd events add_event set_files set_buffers]; rewrite Hev;
      destruct (files w !! joinPath (workspaceRoot fm) p); by rewrite <- ?app_assoc. }
  split.
  { rewrite writeFile_eq. cbn zeta. by destruct (editApplies _ _ _ _). }
  split; [apply writeFile_history|].
  split.
  { rewrite writeFile_eq. cbn zeta.
    destruct (editApplies _ _ _ _); cbn [snd andb]; [|exact Hlog].
    cbn. case_bool_decide as Heq.
    - rewrite Heq. apply lookup_insert_eq.
    - by rewrite lookup_insert_ne. }
  destruct (files w !! joinPath (workspaceRoot fm) p) as [old|] eqn:Hold.
  - by apply backup_holds_preimage.
  - unfold recordOf. by rewrite Hold.
Qed.

(** ** The client factory *)

Lemma getConfiguration_default s key d w :
  getConfiguration s key (Some d) w = (Resolved (default d (cfg_string s key)), w).
Proof. unfold getConfiguration. by destruct (cfg_string s key). Qed.

(** The probing loop stops at its first candidate, whatever answers there:
    [axios.get] hands back a promise that the loop never awaits, so the
    [catch] branch is not taken. *)
Lemma probe_endpoints_first h urls base w :
  probe_endpoints h urls base w
  = (Resolved (default base (head urls)),
     match urls with
     | [] => w
     | u :: _ => add_event (EvHttpGet (u +:+ "/api/tags") 500) w
     end).
Proof. by destruct urls. Qed.

Lemma OllamaClientTs_probe_first h endpoints chosen w :
  OllamaClientTs.probe h endpoints chosen w
  = (Resolved (default chosen (head endpoints)),
     match endpoints with
     | [] => w
     | u :: _ => add_event (EvHttpGet (u +:+ "/api/tags") 2000) w
     end).
Proof. by destruct endpoints. Qed.

Lemma new_OllamaClient_binds_first h s w :
  ∃ id w', new_OllamaClient h s w
           = (Resolved (mkClient OllamaClient id (default EmptyString (head (ollamaCandidates s)))
                          (default "balanced" (cfg_string s "vibecoding.performance"))), w')
    ∧ ∃ evs, events w' = (events w ++ evs)%list.
Proof.
  unfold new_OllamaClient.
  do 3 erewrite bind_resolved by apply getConfiguration_default.
  fold (ollamaCandidates s).
  erewrite bind_resolved by apply probe_endpoints_first.
  erewrite bind_resolved by apply getConfiguration_default.
  erewrite bind_resolved by reflexivity.
  erewrite bind_resolved by reflexivity.
  eexists _, _. split; [reflexivity|].
  destruct (ollamaCandidates s); cbn; [by eexists [_]|].
  eexists [_; _]. by rewrite <- app_assoc.
Qed.

Lemma new_client_class h s k w :
  ∃ c w', new_client h s k w = (Resolved c, w') ∧ cls c = k
    ∧ ∃ evs, events w' = (events w ++ evs)%list.
Proof.
  destruct k;
    try (destruct (new_OllamaClient_binds_first h s w) as (id & w' & E & Hev);
         eexists _, _; split; [exact E|]; by split);
    unfold new_client, new_keyed_client, new_stub_client, new_HuggingFaceClient,
      new_OpenAIClient;
    repeat (erewrite bind_resolved by first [apply getConfiguration_default | reflexivity]);
    (eexists _, _; split; [reflexivity|]; split; [reflexivity|]);
    cbn; first [by eexists [_] | exists []; by rewrite app_nil_r].
Qed.

(** The code unit of a lower-cased character. *)
Lemma nat_of_lower_char c :
  nat_of_ascii (lower_char c)
  = let n := nat_of_ascii c in
    if ((65 <=? n)%nat && (n <=? 90)%nat)
       || ((192 <=? n)%nat && (n <=? 222)%nat && negb (n =? 215)%nat)
    then n + 32 else n.
Proof.
  unfold lower_char. cbv zeta.
  destruct (_ || _) eqn:E; [|done].
  apply nat_ascii_embedding.
  apply orb_true_iff in E as [E|E].
  - apply andb_true_iff in E as [_ E%Nat.leb_le]. lia.
  - apply andb_true_iff in E as [E _]. apply andb_true_iff in E as [_ E%Nat.leb_le]. lia.
Qed.

Lemma ascii_eqb_nat a b : Ascii.eqb a b = (nat_of_ascii a =? nat_of_ascii b)%nat.
Proof.
  destruct (Ascii.eqb_spec a b) as [->|Hne].
  - by rewrite Nat.eqb_refl.
  - symmetry. apply Nat.eqb_neq. intros E. apply Hne.
    by rewrite <- (ascii_nat_embedding a), <- (ascii_nat_embedding b), E.
Qed.

(** For the characters of the table's names, lower-casing a written
    character gives the name's character exactly when the written one is it
    or its capital. *)
Lemma lower_char_same_letter c l :
  table_char l = true →
  Ascii.eqb (lower_char c) l = same_letter_any_case c l.
Proof.
  unfold table_char, same_letter_any_case. cbv zeta.
  rewrite !ascii_eqb_nat, nat_of_lower_char. cbv zeta.
  pose proof (nat_ascii_bounded c) as Hc.
  set (n := nat_of_ascii c) in *. set (m := nat_of_ascii l) in *. clearbody n m.
  intros Hl.
  repeat match goal with
  | |- context [(?a <=? ?b)%nat] => destruct (Nat.leb_spec a b)
  | |- context [(?a =? ?b)%nat] => destruct (Nat.eqb_spec a b)
  | H : context [(?a <=? ?b)%nat] |- _ => destruct (Nat.leb_spec a b)
  | H : context [(?a =? ?b)%nat] |- _ => destruct (Nat.eqb_spec a b)
  end; cbn in *; try done; lia.
Qed.

Lemma toLowerCase_spells written name :
  all_chars table_char name = true →
  toLowerCase written = name ↔ spells written name = true.
Proof.
  revert name. induction written as [|c written IH]; intros [|l name] Hname; cbn; try done.
  cbn in Hname. apply andb_true_iff in Hname as [Hl Hname].
  rewrite andb_true_iff, <- (IH name Hname), <- (lower_char_same_letter c l Hl).
  split.
  - intros [= <- <-]. split; [apply Ascii.eqb_refl|done].
  - intros [E%Ascii.eqb_eq <-]. by rewrite E.
Qed.

(** The names of the table are written with its characters, and each is
    found with its own class. *)
Lemma providerTable_entry name k :
  (name, k) ∈ providerTable →
  all_chars table_char name = true ∧ lookupProvider name = Some k.
Proof.
  unfold providerTable. intros H.
  repeat (apply elem_of_cons in H as [[= -> ->]|H]; [split; reflexivity|]).
  by apply elem_of_nil in H.
Qed.

Lemma lookupProvider_in_table name k :
  lookupProvider name = Some k → (name, k) ∈ providerTable.
Proof.
  unfold lookupProvider.
  destruct (list_find _ providerTable) as [[i [n k']]|] eqn:E; [|done].
  intros [= <-]. apply list_find_Some in E as (Hi & Hn & _). cbn in Hn. subst n.
  by eapply list_elem_of_lookup_2.
Qed.

(** C5. For every stored provider name (a string of 8-bit code units)
    [createLLMClient] resolves.  A name that spells a name of the switch's
    table, with each letter in either case, gives a client of the class of
    that name.  A name that spells none of them gives the Ollama client,
    after a warning on the logger that shows the name in lower case. *)
Theorem createLLMClient_never_throws h s w :
  let configured := default "ollama" (cfg_string s "vibecoding.provider") in
  ∃ c w',
    createLLMClient h s w = (Resolved c, w')
    ∧ (∀ name k, (name, k) ∈ providerTable → spells configured name = true → cls c = k)
    ∧ ((∀ name k, (name, k) ∈ providerTable → spells configured name = false) →
       cls c = OllamaClient
       ∧ ∃ evs,
           events w'
           = (events w
                ++ EvLogger warn ("Provider '" +:+ toLowerCase configured
                                    +:+ "' not supported; falling back to Ollama.")
                :: evs)%list).
Proof.
  cbv zeta. unfold createLLMClient.
  erewrite bind_resolved by apply getConfiguration_default.
  set (configured := default "ollama" (cfg_string s "vibecoding.provider")).
  destruct (lookupProvider (toLowerCase configured)) as [k|] eqn:El.
  - destruct (new_client_class h s k w) as (c & w' & E & Hk & _).
    exists c, w'. split; [exact E|]. split.
    + intros name k' Hin Hsp.
      destruct (providerTable_entry name k' Hin) as [Hchars Hfound].
      apply (toLowerCase_spells configured name Hchars) in Hsp.
      rewrite Hsp, Hfound in El. congruence.
    + intros Hnone. exfalso.
      pose proof (lookupProvider_in_table _ _ El) as Hin.
      destruct (providerTable_entry _ _ Hin) as [Hchars _].
      specialize (Hnone _ _ Hin).
      pose proof (proj1 (toLowerCase_spells configured _ Hchars) eq_refl) as Hsp.
      congruence.
  - erewrite bind_resolved by reflexivity.
    destruct (new_OllamaClient_binds_first h s
                (add_event (EvLogger warn
                   ("Provider '" +:+ toLowerCase configured
                    +:+ "' not supported; falling back to Ollama.")) w))
      as (id & w' & E & evs & Hev).
    eexists _, w'. split; [exact E|]. split.
    + intros name k' Hin Hsp.
      destruct (providerTable_entry name k' Hin) as [Hchars Hfound].
      apply (toLowerCase_spells configured name Hchars) in Hsp.
      rewrite Hsp, Hfound in El. discriminate El.
    + intros _. split; [reflexivity|].
      exists evs. rewrite Hev. cbn. by rewrite <- app_assoc.
Qed.

Lemma createLLMClient_never_throws_witness :
  (∃ c w',
     createLLMClient (demo_host [] "ok") (provider_settings "OpenAI") empty_world
     = (Resolved c, w')
     ∧ cls c = OpenAIClient)
  ∧ (∃ c w' evs,
       createLLMClient (demo_host [] "ok") (provider_settings "Hugging-Face") empty_world
       = (Resolved c, w')
       ∧ cls c = OllamaClient
       ∧ events w'
         = EvLogger warn "Provider 'hugging-face' not supported; falling back to Ollama."
             :: evs).
Proof.
  split.
  - destruct (createLLMClient_never_throws (demo_host [] "ok") (provider_settings "OpenAI")
                empty_world) as (c & w' & E & Hfound & _).
    exists c, w'. split; [exact E|].
    apply (Hfound "openai" OpenAIClient); [|reflexivity].
    unfold providerTable. apply list_elem_of_further, list_elem_of_here.
  - destruct (createLLMClient_never_throws (demo_host [] "ok")
                (provider_settings "Hugging-Face") empty_world)
      as (c & w' & E & _ & Hfallback).
    destruct Hfallback as (Hcls & evs & Hev).
    { intros name k Hin. unfold providerTable in Hin.
      repeat (apply elem_of_cons in Hin as [[= -> ->]|Hin]; [reflexivity|]).
      by apply elem_of_nil in Hin. }
    exists c, w', evs. split; [exact E|]. split; [exact Hcls|exact Hev].
Defined.

(** The lookup does not tell the cases of the letters apart. *)
Lemma lower_char_idempotent c : lower_char (lower_char c) = lower_char c.
Proof. by destruct c as [[] [] [] [] [] [] [] []]. Qed.

Lemma toLowerCase_idempotent s : toLowerCase (toLowerCase s) = toLowerCase s.
Proof.
  induction s as [|c s IH]; [done|]. cbn. by rewrite IH, lower_char_idempotent.
Qed.

Example createLLMClient_mixed_case :
  lookupProvider (toLowerCase "OpenAI") = Some OpenAIClient
  ∧ lookupProvider (toLowerCase "Hugging-Face") = None.
Proof. split; reflexivity. Qed.

(** ** The endpoint probe *)

(** The constructors bind their first candidate on every host. *)
Lemma OllamaClientTs_new_binds_first h s w :
  let endpoints :=
    let localUrl := default "http://localhost:11434" (cfg_string s "ollamaUrlLocal") in
    let dockerUrl := default "http://host.docker.internal:11434" (cfg_string s "ollamaUrlDocker") in
    let custom := default EmptyString (cfg_string s "ollamaUrlCustom") in
    if String.eqb custom EmptyString then [localUrl; dockerUrl]
    else [custom; localUrl; dockerUrl] in
  OllamaClientTs.chosenURL <$>
    match fst (OllamaClientTs.new h s w) with Resolved c => Some c | Rejected _ => None end
  = head endpoints.
Proof.
  cbv zeta. unfold OllamaClientTs.new.
  do 3 erewrite bind_resolved by apply getConfiguration_default.
  erewrite bind_resolved by apply OllamaClientTs_probe_first.
  erewrite bind_resolved by reflexivity.
  erewrite bind_resolved by apply getConfiguration_default.
  erewrite bind_resolved by reflexivity.
  erewrite bind_resolved by reflexivity.
  cbn. by destruct (String.eqb _ _).
Qed.

(** C6. With a custom endpoint that does not answer and a local endpoint
    that does, both constructors bind the custom endpoint, the first of the
    list, and log no warning: the only request made is the probe of the
    first candidate, whose promise is never awaited. *)
Theorem OllamaClient_binds_first_candidate_unprobed :
  let h := probe_host ["http://localhost:11434/api/tags"] in
  let s := custom_endpoint_settings "http://10.0.0.5:11434" in
  reachable h "http://10.0.0.5:11434/api/tags" = false
  ∧ reachable h "http://localhost:11434/api/tags" = true
  ∧ ollamaCandidates s
    = ["http://10.0.0.5:11434"; "http://localhost:11434"; "http://host.docker.internal:11434"]
  ∧ (∃ id w', new_OllamaClient h s empty_world
              = (Resolved (mkClient OllamaClient id "http://10.0.0.5:11434" "balanced"), w')
       ∧ events w' = [EvHttpGet "http://10.0.0.5:11434/api/tags" 500;
                      EvLogger info "OllamaClient @http://10.0.0.5:11434 perf=balanced"])
  ∧ (∃ id w', OllamaClientTs.new h s empty_world
              = (Resolved (OllamaClientTs.mk id "http://10.0.0.5:11434" "high"), w')
       ∧ events w' = [EvHttpGet "http://10.0.0.5:11434/api/tags" 2000;
                      EvLogger info "OllamaClient using endpoint: http://10.0.0.5:11434";
                      EvLogger info "OllamaClient performance mode: high"]).
Proof.
  cbv zeta. split; [reflexivity|]. split; [reflexivity|]. split; [reflexivity|].
  split; eexists _, _; split; vm_compute; reflexivity.
Qed.

(** ** The generation temperature *)

(** The request of the [OllamaClient] of AIClients.ts carries 0.7 whatever
    options it is called with. *)
Lemma OllamaClient_request_ignores_options h id base pf q opts w :
  events (snd (generateCode h (mkClient OllamaClient id base pf) q opts w))
  = (events w
       ++ [EvHttpPost (mkRequest base "/api/generate"
                         (default EmptyString (models w !! id)) q
                         (Some (if String.eqb pf "efficient" then 2048 else 4096))
                         (Some (7 # 10)%Q))])%list.
Proof.
  unfold generateCode, http_generate, bind, get_world, emit, await. cbn.
  by destruct (completion h _ _).
Qed.

(** C9. In the efficient mode [startAutoMode] passes the temperature 0.5,
    lower than the 0.7 of the other modes, but every request that the run
    of a task posts through the Ollama client of the factory carries 0.7;
    the payload of src/ollamaClient.ts, given the same options, carries
    0.5. *)
Theorem efficient_temperature_is_not_sent :
  opt_temperature (generationOptions "efficient") = Some (5 # 10)%Q
  ∧ opt_temperature (generationOptions "balanced") = Some (7 # 10)%Q
  ∧ opt_temperature (generationOptions "high") = Some (7 # 10)%Q
  ∧ (5 # 10 < 7 # 10)%Q
  ∧ req_temperature <$>
      requests (events (snd (runTask (demo_host ["python src/a.py"] "print(1)") demo_ac
                               "efficient" "python" "/ws" spec_task demo_world)))
    = [Some (7 # 10)%Q; Some (7 # 10)%Q; Some (7 # 10)%Q; Some (7 # 10)%Q]
  ∧ req_temperature
      (OllamaClientTs.payload (OllamaClientTs.mk 0 "http://localhost:11434" "efficient")
         demo_world "hello" (generationOptions "efficient"))
    = Some (5 # 10)%Q.
Proof.
  split; [reflexivity|]. split; [reflexivity|]. split; [reflexivity|]. split; [reflexivity|].
  split; [vm_compute; reflexivity|reflexivity].
Qed.

(** ** The repair prompt *)

(** The first expression of the table that matches decides. *)
Lemma findMatchingPattern_first_match table msg before regex template after m1 :
  table = (before ++ (regex, template) :: after)%list →
  Forall (λ e, regex_exec e.1 msg = None) before →
  regex_exec regex msg = Some m1 →
  findMatchingPattern_in table msg = Some (js_replace template "$1" m1).
Proof.
  intros -> Hbefore Hm. induction Hbefore as [|[re t] l Hnone _ IH]; cbn.
  - by rewrite Hm.
  - cbn in Hnone. by rewrite Hnone.
Qed.

Lemma findMatchingPattern_no_match table msg :
  Forall (λ e, regex_exec e.1 msg = None) table →
  findMatchingPattern_in table msg = None.
Proof.
  induction 1 as [|[re t] l Hnone _ IH]; [done|]. cbn in *. by rewrite Hnone.
Qed.

(** Text without a dollar sign is put in as it is. *)
Lemma getSubstitution_plain matched before after text :
  has_dollar text = false → getSubstitution matched before after text = text.
Proof.
  induction text as [|c t IH]; [done|]. cbn.
  intros [Hc Ht]%orb_false_iff. rewrite Hc. by rewrite IH.
Qed.

Lemma js_replace_plain template placeholder text :
  has_dollar text = false →
  js_replace template placeholder text = substitute_verbatim template placeholder text.
Proof.
  intros Hd. unfold js_replace, substitute_verbatim.
  destruct (split_first placeholder template) as [[b a]|]; [|done].
  by rewrite getSubstitution_plain.
Qed.

(** C8. For Python's message about a dollar sign in the source the second
    expression of the table is the first that matches and captures the text
    after the colon; the prompt starts from its template, but the [$']
    inside the captured text is replaced by what follows [$1] in the
    template (nothing), so the captured text is not what the prompt holds. *)
Theorem captured_dollar_sequence_is_rewritten :
  let msg := "SyntaxError: invalid character '$' (U+0024)" in
  regex_exec re_ModuleNotFound msg = None
  ∧ regex_exec (Lit "SyntaxError: " :: group_any) msg = Some "invalid character '$' (U+0024)"
  ∧ findMatchingPattern msg = Some "Fix the syntax error: invalid character ' (U+0024)"
  ∧ substitute_verbatim "Fix the syntax error: $1" "$1" "invalid character '$' (U+0024)"
    = "Fix the syntax error: invalid character '$' (U+0024)"
  ∧ fixPrompt msg "x = $"
    = "Fix the syntax error: invalid character ' (U+0024)" +:+ newline +:+ newline
        +:+ "Context:" +:+ newline +:+ "x = $" +:+ newline +:+ newline
        +:+ "Error:" +:+ newline +:+ msg.
Proof. cbv zeta. repeat split; vm_compute; reflexivity. Qed.

(** ** The dependency install *)

Lemma bind_steady ok keep {A B} (m : Async A) (k : A → Async B) w :
  Succeeds m → Steady ok keep m →
  ∃ a w1, bind m k w = k a w1 ∧ steady ok keep w w1.
Proof.
  intros Hs Hst. destruct (Hs w) as [a Ha]. specialize (Hst w).
  destruct (m w) as [r w1] eqn:E. cbn in Ha, Hst. subst r.
  exists a, w1. split; [by apply bind_resolved|done].
Qed.

Lemma Steady_handleDependencyError ok keep h er cmd :
  (∀ lvl msg, ok (EvLogger lvl msg) = true) → ok (EvSendText cmd) = true →
  Steady ok keep (handleDependencyError h er cmd).
Proof.
  intros Hl Hc. unfold handleDependencyError.
  destruct (workspaceFolder h); [|apply Steady_throw].
  apply Steady_bind; [|intros ?; steady_tac].
  apply Steady_attempt, Steady_bind; [by apply Steady_runCommand|intros ?; steady_tac].
Qed.

(** C7. When the error text matches the Python pattern, or does not but
    matches the Node pattern, [analyzeAndFix] sends to the terminal the
    install command made of [pip install] (or [npm install]) and the
    captured name, and no request for generated text is made before that
    command is sent. *)
Theorem install_precedes_patch_request h er errorMsg p w ws pkg install :
  workspaceFolder h = Some ws →
  (regex_exec re_ModuleNotFound errorMsg = Some pkg ∧ install = "pip install " +:+ pkg)
  ∨ (regex_exec re_ModuleNotFound errorMsg = None
     ∧ regex_exec re_CannotFindModule errorMsg = Some pkg
     ∧ install = "npm install " +:+ pkg) →
  ∃ pre post,
    events (snd (analyzeAndFix h er errorMsg p w))
    = (events w ++ pre ++ EvSendText install :: post)%list
    ∧ forallb not_ask pre = true.
Proof.
  intros Hws Hmatch.
  assert (Hdep : checkForDependencyError errorMsg = Some install).
  { unfold checkForDependencyError.
    destruct Hmatch as [[Hpy ->]|(Hpy & Hnd & ->)]; rewrite Hpy; [done|]. by rewrite Hnd. }
  unfold analyzeAndFix.
  set (keep := S (self (er_fileManager er))).
  assert (Hne : self (er_fileManager er) ≠ keep) by (subst keep; lia).
  (* 1. the backup folder *)
  lazymatch goal with
  | |- context [snd (bind ?m ?k w)] =>
      destruct (bind_steady not_ask keep m k w) as (? & w1 & -> & H1);
        [succeeds_tac|steady_tac|]
  end.
  (* 2. the context *)
  lazymatch goal with
  | |- context [snd (bind ?m ?k w1)] =>
      destruct (bind_steady not_ask keep m k w1) as (original & w2 & -> & H2);
        [apply Succeeds_getContext|by apply Steady_getContext|]
  end.
  (* 3. the backup *)
  lazymatch goal with
  | |- context [snd (bind ?m ?k w2)] =>
      destruct (bind_steady not_ask keep m k w2) as (backup & w3 & -> & H3);
        [succeeds_tac|steady_tac|]
  end.
  lazymatch goal with
  | |- context [snd (bind ?m ?k w3)] =>
      destruct (bind_steady not_ask keep m k w3) as (? & w4 & -> & H4);
        [unfold logger_warn; succeeds_tac|steady_tac|]
  end.
  (* 4. the install command is the next event *)
  rewrite Hdep. unfold handleDependencyError. rewrite Hws. unfold runCommand.
  match goal with
  | |- context [snd (bind (bind (attempt (bind (bind (emit ?e) ?k1) ?k2)) ?k3) ?k4 w4)] =>
      change (bind (bind (attempt (bind (bind (emit e) k1) k2)) k3) k4 w4)
        with (bind (bind (attempt (bind (k1 tt) k2)) k3) k4 (add_event e w4));
      assert (Hrest : Steady any_event keep (bind (bind (attempt (bind (k1 tt) k2)) k3) k4))
  end.
  { steady_tac. by apply Steady_generateCode. }
  destruct (Hrest (add_event (EvSendText install) w4)) as ([post [Epost _]] & _).
  rewrite Epost.
  pose proof (steady_trans _ _ _ _ _ (steady_trans _ _ _ _ _ (steady_trans _ _ _ _ _ H1 H2) H3) H4)
    as ([pre [Epre Hpre]] & _).
  exists pre, post. split; [|exact Hpre].
  cbn [events add_event]. rewrite Epre, <- !app_assoc. done.
Qed.

Lemma install_precedes_patch_request_witness :
  ∃ pre post,
    events (snd (analyzeAndFix (demo_host [] "import flask") demo_recovery
                   "ModuleNotFoundError: No module named 'flask'" "src/a.py" empty_world))
    = (events empty_world ++ pre ++ EvSendText "pip install flask" :: post)%list
    ∧ forallb not_ask pre = true.
Proof.
  apply (install_precedes_patch_request (demo_host [] "import flask") demo_recovery
           "ModuleNotFoundError: No module named 'flask'" "src/a.py" empty_world "/ws" "flask").
  - reflexivity.
  - left. split; vm_compute; reflexivity.
Defined.

(* ================================================================= *)
(** * Further properties *)

(** ** The file store *)

(** X1. The text of a write is not read back: after a [writeFile] whose
    edit applies, [readFile] of the same path gives the empty string.  The
    edit leaves an empty file on disk and the text in the document of the
    editor, which is not saved. *)
Theorem write_then_read_gives_empty_file h fm p c w :
  editApplies h (joinPath (workspaceRoot fm) p) c (recorded h fm p w) = true →
  let w' := snd (writeFile h fm p c w) in
  (let* _ := writeFile h fm p c in readFile fm p) w = (Resolved EmptyString, w')
  ∧ files w' !! joinPath (workspaceRoot fm) p = Some EmptyString
  ∧ buffers w' !! joinPath (workspaceRoot fm) p = Some c.
Proof.
  intros Hok. cbv zeta.
  destruct (writeFile_applied h fm p c w Hok) as (w' & E & [Hf Hb] & _).
  erewrite bind_resolved by exact E. rewrite E. cbn [snd].
  split; [|by split]. unfold readFile, fs_readFile. by rewrite Hf.
Qed.

Lemma write_then_read_gives_empty_file_witness :
  (let* _ := writeFile (demo_host [] "ok") demo_fm "src/a.py" "x=1" in
   readFile demo_fm "src/a.py") empty_world
  = (Resolved EmptyString, created_world)
  ∧ files created_world !! "/ws/src/a.py" = Some EmptyString
  ∧ buffers created_world !! "/ws/src/a.py" = Some "x=1".
Proof.
  exact (write_then_read_gives_empty_file (demo_host [] "ok") demo_fm "src/a.py" "x=1"
           empty_world eq_refl).
Defined.

Lemma max_list_snoc l x : max_list (l ++ [x]) = max_list l `max` x.
Proof.
  induction l as [|y l IH]; [cbn; lia|].
  change (max_list ((y :: l) ++ [x])) with (y `max` max_list (l ++ [x])).
  change (max_list (y :: l)) with (y `max` max_list l).
  rewrite IH. lia.
Qed.

(** The version after a write of [p] is one more than the version it got. *)
Lemma nextVersion_after_write h fm p c w :
  nextVersion (changeHistory fm (snd (writeFile h fm p c w))) p
  = S (nextVersion (changeHistory fm w) p).
Proof.
  rewrite writeFile_history. unfold nextVersion at 1.
  rewrite filter_app, filter_recordOf, decide_True by done.
  rewrite length_app. cbn [length].
  replace (0 <? length (filter (λ r, filePath r = p) (changeHistory fm w)) + 1)%nat
    with true by (symmetry; apply Nat.ltb_lt; lia).
  rewrite fmap_app.
  change (version <$> [recordOf h fm p w]) with [nextVersion (changeHistory fm w) p].
  rewrite max_list_snoc. unfold nextVersion.
  destruct (filter (λ r, filePath r = p) (changeHistory fm w)); cbn; lia.
Qed.

(** X2. On a path that holds no file, a write that applies records
    [created] and writes no backup; the write that follows it records
    [modified] with the next version, and its backup holds the empty file
    that the first write left on disk, not the text that the first write
    was given. *)
Theorem first_write_creates_next_write_modifies h fm p c c' w :
  files w !! joinPath (workspaceRoot fm) p = None →
  editApplies h (joinPath (workspaceRoot fm) p) c (recorded h fm p w) = true →
  let w1 := snd (writeFile h fm p c w) in
  let w2 := snd (writeFile h fm p c' w1) in
  action (recordOf h fm p w) = created
  ∧ files w1 !! originalPath (recordOf h fm p w) = files w !! originalPath (recordOf h fm p w)
  ∧ action (recordOf h fm p w1) = modified
  ∧ version (recordOf h fm p w1) = S (version (recordOf h fm p w))
  ∧ files w2 !! originalPath (recordOf h fm p w1) = Some EmptyString.
Proof.
  intros Hnone Hok. cbv zeta.
  destruct (writeFile_applied h fm p c w Hok) as (w1 & E & [Hf _] & _).
  split; [unfold recordOf; by rewrite Hnone|].
  split.
  { rewrite writeFile_eq. cbn zeta. rewrite Hok. cbn.
    rewrite lookup_insert_ne by apply backup_is_not_the_target.
    unfold recorded. rewrite Hnone. cbn.
    by rewrite lookup_insert_ne by apply backup_is_not_the_log. }
  rewrite E. cbn [snd].
  destruct (backup_holds_preimage h fm p c' EmptyString w1 Hf) as [Hact Hb].
  split; [exact Hact|]. split; [|exact Hb].
  change (version (recordOf h fm p w1)) with (nextVersion (changeHistory fm w1) p).
  change (version (recordOf h fm p w)) with (nextVersion (changeHistory fm w) p).
  replace w1 with (snd (writeFile h fm p c w)) by (by rewrite E).
  apply nextVersion_after_write.
Qed.

Lemma first_write_creates_next_write_modifies_witness :
  action (recordOf (demo_host [] "ok") demo_fm "src/a.py" empty_world) = created
  ∧ files created_world
      !! originalPath (recordOf (demo_host [] "ok") demo_fm "src/a.py" empty_world)
    = files empty_world
      !! originalPath (recordOf (demo_host [] "ok") demo_fm "src/a.py" empty_world)
  ∧ action (recordOf (demo_host [] "ok") demo_fm "src/a.py" created_world) = modified
  ∧ version (recordOf (demo_host [] "ok") demo_fm "src/a.py" created_world)
    = S (version (recordOf (demo_host [] "ok") demo_fm "src/a.py" empty_world))
  ∧ files (snd (writeFile (demo_host [] "ok") demo_fm "src/a.py" "x=2" created_world))
      !! originalPath (recordOf (demo_host [] "ok") demo_fm "src/a.py" created_world)
    = Some EmptyString.
Proof.
  exact (first_write_creates_next_write_modifies (demo_host [] "ok") demo_fm "src/a.py"
           "x=1" "x=2" empty_world eq_refl eq_refl).
Defined.

(** X3. A write changes three files at most (its target, its backup and
    the log) and one history: every other file, the history of every other
    [FileManager], the models of the clients and the running flag are as
    before. *)
Theorem writeFile_footprint h fm fm' q c w uri :
  uri ≠ joinPath (workspaceRoot fm) q →
  uri ≠ originalPath (recordOf h fm q w) →
  uri ≠ historyFile fm →
  self fm' ≠ self fm →
  let w' := snd (writeFile h fm q c w) in
  files w' !! uri = files w !! uri
  ∧ changeHistory fm' w' = changeHistory fm' w
  ∧ models w' = models w
  ∧ isRunning w' = isRunning w.
Proof.
  intros Ht Hb Hl Hne. cbv zeta.
  split; [by apply writeFile_leaves_other_files|].
  split; [by apply writeFile_history_other|].
  rewrite writeFile_eq. cbn zeta. unfold recorded.
  destruct (editApplies _ _ _ _), (files w !! joinPath (workspaceRoot fm) q); done.
Qed.

Lemma writeFile_footprint_witness :
  files (snd (writeFile (demo_host [] "ok") demo_fm "src/b.py" "y=0" created_world))
    !! "/ws/src/a.py" = files created_world !! "/ws/src/a.py"
  ∧ changeHistory (mkFileManager "/ws" 1)
      (snd (writeFile (demo_host [] "ok") demo_fm "src/b.py" "y=0" created_world))
    = changeHistory (mkFileManager "/ws" 1) created_world
  ∧ models (snd (writeFile (demo_host [] "ok") demo_fm "src/b.py" "y=0" created_world))
    = models created_world
  ∧ isRunning (snd (writeFile (demo_host [] "ok") demo_fm "src/b.py" "y=0" created_world))
    = isRunning created_world.
Proof.
  apply (writeFile_footprint (demo_host [] "ok") demo_fm (mkFileManager "/ws" 1)
           "src/b.py" "y=0" created_world "/ws/src/a.py").
  - vm_compute. discriminate.
  - vm_compute. discriminate.
  - vm_compute. discriminate.
  - vm_compute. lia.
Defined.

(** X4. [revertToVersion] never removes a record.  Without a record of the
    pair, or with a record whose backup file is missing, it throws and
    leaves the world as it was; otherwise it pushes exactly one record, the
    one of the [writeFile] it makes. *)
Theorem revertToVersion_only_appends h fm p v w :
  let hist := changeHistory fm w in
  let out := revertToVersion h fm p v w in
  match findRecord hist p v with
  | None =>
      out = (Rejected (mkError ("Version " +:+ pretty v +:+ " of " +:+ p +:+ " not found")), w)
  | Some r =>
      match files w !! originalPath r with
      | None => out = (Rejected (enoent "open" (originalPath r)), w)
      | Some _ => changeHistory fm (snd out) = (hist ++ [recordOf h fm p w])%list
      end
  end.
Proof.
  cbv zeta. unfold revertToVersion.
  erewrite bind_resolved by reflexivity.
  destruct (findRecord _ p v) as [r|]; [|done].
  destruct (files w !! originalPath r) as [content|] eqn:Ef.
  - erewrite bind_resolved by (unfold fs_readFile; rewrite Ef; reflexivity).
    pose proof (writeFile_history h fm p content w) as Hh.
    unfold bind. destruct (writeFile h fm p content w) as [[[]|e] w1]; exact Hh.
  - erewrite bind_rejected by (unfold fs_readFile; rewrite Ef; reflexivity).
    reflexivity.
Qed.

Lemma pretty_N_char_digit x : is_digit (pretty_N_char x) = true.
Proof. unfold pretty_N_char. by repeat case_match. Qed.

Lemma pretty_N_go_digits x : ∀ s,
  all_chars is_digit s = true → all_chars is_digit (pretty_N_go x s) = true.
Proof.
  induction (N.lt_wf_0 x) as [x _ IH]; intros s Hs.
  assert (x = 0 ∨ 0 < x)%N as [->|?] by lia.
  - by rewrite pretty_N_go_0.
  - rewrite pretty_N_go_step by done. apply IH.
    { by apply N.div_lt. }
    cbn [all_chars]. by rewrite pretty_N_char_digit, Hs.
Qed.

Lemma pretty_nat_digits (n : nat) : all_chars is_digit (pretty n) = true.
Proof.
  unfold pretty, pretty_nat, pretty, pretty_N.
  case_decide; [reflexivity|]. by apply pretty_N_go_digits.
Qed.

Lemma digits_before_underscore d : ∀ d' x x',
  all_chars is_digit d = true → all_chars is_digit d' = true →
  d +:+ "_" +:+ x = d' +:+ "_" +:+ x' → d = d'.
Proof.
  induction d as [|a d IH]; intros [|a' d'] x x' Hd Hd' E.
  - done.
  - change (String "_" x = String a' (d' +:+ "_" +:+ x')) in E.
    injection E as <- _. cbn in Hd'. discriminate Hd'.
  - change (String a (d +:+ "_" +:+ x) = String "_" x') in E.
    injection E as -> _. cbn in Hd. discriminate Hd.
  - change (String a (d +:+ "_" +:+ x) = String a' (d' +:+ "_" +:+ x')) in E.
    injection E as -> E. cbn in Hd, Hd'.
    apply andb_true_iff in Hd as [_ Hd]. apply andb_true_iff in Hd' as [_ Hd'].
    f_equal. by eapply IH.
Qed.

(** The backup files of two versions of one path have different names,
    whatever the clock says. *)
Lemma historyFileName_version_inj p v v' ts ts' :
  historyFileName p v ts = historyFileName p v' ts' → v = v'.
Proof.
  unfold historyFileName. intros E.
  do 2 apply (inj (String.append _)) in E.
  apply digits_before_underscore in E; [|apply pretty_nat_digits..].
  by apply (inj pretty) in E.
Qed.

Lemma backup_of_later_version_differs h fm p w w' :
  (version (recordOf h fm p w) < version (recordOf h fm p w'))%nat →
  originalPath (recordOf h fm p w) ≠ originalPath (recordOf h fm p w').
Proof.
  intros Hlt E. unfold recordOf, joinPath in E. cbn [originalPath] in E.
  do 2 apply (inj (String.append _)) in E.
  apply historyFileName_version_inj in E.
  unfold recordOf in Hlt. cbn [version] in Hlt. lia.
Qed.

(** Later writes of the same path keep the record and the backup of a
    write. *)
Lemma later_writes_keep_backup h fm p old hist0 w0 contents : ∀ w later,
  hist0 = changeHistory fm w0 →
  changeHistory fm w = ((hist0 ++ [recordOf h fm p w0]) ++ later)%list →
  files w !! originalPath (recordOf h fm p w0) = Some old →
  ∃ later',
    changeHistory fm (run_writes_of h fm p contents w)
    = ((hist0 ++ [recordOf h fm p w0]) ++ later')%list
    ∧ files (run_writes_of h fm p contents w) !! originalPath (recordOf h fm p w0) = Some old.
Proof.
  induction contents as [|c contents IH]; intros w later Hh0 Hh Hf.
  - by exists later.
  - unfold run_writes_of. cbn [fmap list_fmap run_writes].
    apply (IH _ (later ++ [recordOf h fm p w])%list); [done|..].
    + by rewrite writeFile_history, Hh, app_assoc.
    + rewrite writeFile_leaves_other_files; [done|..].
      * apply not_eq_sym, backup_is_not_the_target.
      * apply backup_of_later_version_differs.
        change (version (recordOf h fm p w)) with (nextVersion (changeHistory fm w) p).
        apply nextVersion_above; [|done].
        rewrite Hh. apply elem_of_app. left. apply elem_of_app. right.
        apply list_elem_of_here.
      * apply not_eq_sym, backup_is_not_the_log.
Qed.

(** X5. Writes of one path never overwrite each other's backups.  After
    a write of [p] that replaced a file holding [old] and got the version
    [N], and after any number of further writes of [p] (applied or not, at
    any clock readings), the backup of version [N] still holds [old], and
    [revertToVersion(p, N)] resolves when the editor applies its edit, with
    [old] as the text of the document of [p]. *)
Theorem revert_after_later_writes_of_the_path h fm p c old contents w0 :
  let N := nextVersion (changeHistory fm w0) p in
  let w2 := run_writes_of h fm p contents (snd (writeFile h fm p c w0)) in
  files w0 !! joinPath (workspaceRoot fm) p = Some old →
  editApplies h (joinPath (workspaceRoot fm) p) old (recorded h fm p w2) = true →
  files w2 !! originalPath (recordOf h fm p w0) = Some old
  ∧ ∃ w3,
      revertToVersion h fm p N w2 = (Resolved tt, w3)
      ∧ buffers w3 !! joinPath (workspaceRoot fm) p = Some old.
Proof.
  intros N w2 Hold Hedit.
  destruct (backup_holds_preimage h fm p c old w0 Hold) as [_ Hbackup].
  destruct (later_writes_keep_backup h fm p old (changeHistory fm w0) w0 contents
              (snd (writeFile h fm p c w0)) [] eq_refl) as (later & Hh & Hf).
  { by rewrite writeFile_history, app_nil_r. }
  { exact Hbackup. }
  fold w2 in Hh, Hf. split; [exact Hf|].
  destruct (revertToVersion_found h fm p N w2 (recordOf h fm p w0) old)
    as (w3 & E & [_ Hb3] & _).
  { rewrite Hh. apply findRecord_recordOf. }
  { exact Hf. }
  { exact Hedit. }
  by exists w3.
Qed.

Lemma revert_after_later_writes_of_the_path_witness :
  files (run_writes_of (demo_host [] "ok") demo_fm "src/a.py" ["x=3"; "x=4"; "x=5"]
           (snd (writeFile (demo_host [] "ok") demo_fm "src/a.py" "x=2" saved_world)))
    !! originalPath (recordOf (demo_host [] "ok") demo_fm "src/a.py" saved_world)
  = Some "x=1"
  ∧ ∃ w3,
      revertToVersion (demo_host [] "ok") demo_fm "src/a.py" 1
        (run_writes_of (demo_host [] "ok") demo_fm "src/a.py" ["x=3"; "x=4"; "x=5"]
           (snd (writeFile (demo_host [] "ok") demo_fm "src/a.py" "x=2" saved_world)))
      = (Resolved tt, w3)
      ∧ buffers w3 !! "/ws/src/a.py" = Some "x=1".
Proof.
  exact (revert_after_later_writes_of_the_path (demo_host [] "ok") demo_fm "src/a.py" "x=2"
           "x=1" ["x=3"; "x=4"; "x=5"] saved_world eq_refl eq_refl).
Defined.

(** X6. A new [FileManager] is a new object: the histories of the others
    stay as they are.  Its history is the one parsed from the log when there
    is a log that parses; otherwise it is empty and an empty log is saved,
    over the unreadable one if there was one. *)
Theorem new_FileManager_loads_or_resets h root w :
  let logUri := joinPath (joinPath root ".vibe") "changeHistory.json" in
  let loaded := files w !! logUri ≫= jsonParse h in
  ∃ fm w',
    new_FileManager h root w = (Resolved fm, w')
    ∧ workspaceRoot fm = root
    ∧ heap w !! self fm = None
    ∧ changeHistory fm w' = default [] loaded
    ∧ files w' !! logUri
      = match loaded with Some _ => files w !! logUri | None => Some "[]" end
    ∧ heap w' = <[self fm := default [] loaded]> (heap w).
Proof.
  cbv zeta. unfold new_FileManager.
  erewrite bind_resolved by reflexivity.
  set (fm := mkFileManager root (fresh (dom (heap w)))).
  assert (Hfresh : heap w !! self fm = None).
  { apply not_elem_of_dom. apply is_fresh. }
  erewrite bind_resolved by reflexivity.
  unfold initialize, historyFile, historyDir.
  change (workspaceRoot fm) with root.
  unfold bind, attempt, fs_createDirectory, emit, fs_readFile, assign_changeHistory,
    logger_info, saveHistory, read_changeHistory, fs_writeFile, ret, throw, emit,
    changeHistory. cbn.
  destruct (files w !! joinPath (joinPath root ".vibe") "changeHistory.json")
    as [data|] eqn:Ef; cbn.
  - destruct (jsonParse h data) as [l|]; cbn.
    + exists fm. eexists. split; [reflexivity|]. cbn.
      rewrite lookup_insert_eq, Ef, insert_insert_eq. done.
    + exists fm. eexists. split; [reflexivity|]. cbn.
      rewrite !lookup_insert_eq, insert_insert_eq. done.
  - exists fm. eexists. split; [reflexivity|]. cbn.
    rewrite !lookup_insert_eq, insert_insert_eq. done.
Qed.

(** X7. The log grows by one record per call of [writeFile], in call
    order and whether the edits apply or not: what was there stays in front
    and the paths of the new records are the paths of the calls. *)
Theorem run_writes_logs_every_call h fm calls : ∀ w,
  ∃ added,
    getChangeHistory fm None (run_writes h fm calls w)
    = (getChangeHistory fm None w ++ added)%list
    ∧ filePath <$> added = calls.*1.
Proof.
  unfold getChangeHistory.
  induction calls as [|[q c] calls IH]; intros w; cbn [run_writes].
  - exists []. by rewrite app_nil_r.
  - destruct (IH (snd (writeFile h fm q c w))) as (added & Hh & Hp).
    exists (recordOf h fm q w :: added). rewrite Hh, writeFile_history, <- app_assoc.
    split; [done|]. cbn. by rewrite Hp.
Qed.

(** ** The recovery engine *)

(** What [getContext] gives: the content of the file, or the empty string
    when the file cannot be read. *)
Lemma getContext_value er p w :
  fst (getContext er p w)
  = Resolved (default EmptyString (files w !! joinPath (workspaceRoot (er_fileManager er)) p)).
Proof.
  unfold getContext, bind, attempt, readFile, fs_readFile.
  by destruct (files w !! _).
Qed.

(** X8. When the error text names no missing dependency, [analyzeAndFix]
    gives back what the client gives for the prompt built from the error
    text and the content of the file (the empty string when the file cannot
    be read): the text as it is, or the client's error.  No request is made
    before that one, and neither a missing file nor a backup that fails
    stops it. *)
Theorem analyzeAndFix_returns_generated_text h er errorMsg p w :
  checkForDependencyError errorMsg = None →
  let original :=
    default EmptyString (files w !! joinPath (workspaceRoot (er_fileManager er)) p) in
  ∃ w1 evs,
    events w1 = (events w ++ evs)%list
    ∧ forallb not_ask evs = true
    ∧ fst (analyzeAndFix h er errorMsg p w)
      = fst (generateCode h (er_llm er) (fixPrompt errorMsg original) None w1).
Proof.
  intros Hdep original. unfold analyzeAndFix.
  set (keep := S (self (er_fileManager er))).
  assert (Hne : self (er_fileManager er) ≠ keep) by (subst keep; lia).
  erewrite bind_resolved by reflexivity.
  set (w0 := add_event _ (add_event _ w)).
  assert (H0 : steady not_ask keep w w0).
  { subst w0. do 2 (apply steady_add_event; [done|]). apply steady_refl. }
  pose proof (getContext_value er p w0) as Ectx.
  pose proof (Steady_getContext not_ask keep er p (λ _ _, eq_refl) w0) as H1.
  change (files w0) with (files w) in Ectx. fold original in Ectx.
  destruct (getContext er p w0) as [r w0'] eqn:E. cbn [fst snd] in Ectx, H1. subst r.
  erewrite bind_resolved by exact E.
  lazymatch goal with
  | |- context [fst (bind ?m ?k w0')] =>
      destruct (bind_steady not_ask keep m k w0') as (backup & w2 & -> & H2);
        [succeeds_tac|steady_tac|]
  end.
  lazymatch goal with
  | |- context [fst (bind ?m ?k w2)] =>
      destruct (bind_steady not_ask keep m k w2) as (? & w3 & -> & H3);
        [unfold logger_warn; succeeds_tac|steady_tac|]
  end.
  rewrite Hdep.
  erewrite bind_resolved by reflexivity.
  erewrite bind_resolved by reflexivity.
  set (w4 := add_event _ w3).
  assert (H4 : steady not_ask keep w w4).
  { subst w4. apply steady_add_event; [done|].
    exact (steady_trans _ _ _ _ _ (steady_trans _ _ _ _ _ (steady_trans _ _ _ _ _ H0 H1) H2) H3). }
  destruct H4 as ([evs [Eevs Hevs]] & _).
  exists w4, evs. split; [exact Eevs|]. split; [exact Hevs|].
  unfold bind at 1.
  destruct (generateCode h (er_llm er) (fixPrompt errorMsg original) None w4) as [[t|e] w5];
    [|reflexivity].
  cbn [fst]. unfold bind, logger_info, emit, ret. by destruct (isTelemetryEnabled _).
Qed.

Lemma analyzeAndFix_returns_generated_text_witness :
  ∃ w1 evs,
    events w1 = (events empty_world ++ evs)%list
    ∧ forallb not_ask evs = true
    ∧ fst (analyzeAndFix (demo_host [] "x = 1") demo_recovery
             "NameError: name 'x' is not defined" "src/a.py" empty_world)
      = fst (generateCode (demo_host [] "x = 1") demo_client
               (fixPrompt "NameError: name 'x' is not defined" EmptyString) None w1).
Proof.
  apply (analyzeAndFix_returns_generated_text (demo_host [] "x = 1") demo_recovery
           "NameError: name 'x' is not defined" "src/a.py" empty_world).
  vm_compute. reflexivity.
Defined.
(** A failing install: [handleDependencyError] logs it and throws the error
    of the command. *)
Lemma handleDependencyError_fails h er cmd ws w code :
  workspaceFolder h = Some ws →
  exitCode h cmd (add_event (EvSendText cmd) w) = code → code ≠ 0%Z →
  let msg := "Command failed: " +:+ cmd +:+ ", Exit code: " +:+ pretty code in
  handleDependencyError h er cmd w
  = (Rejected (mkError msg),
     add_event (EvLogger error "DependencyInstallFailed")
       (add_event (EvLogger error msg) (add_event (EvSendText cmd) w))).
Proof.
  intros Hws Hc Hnz msg. unfold handleDependencyError. rewrite Hws.
  pose proof (runCommand_fails h cmd ws w code Hc Hnz) as Hrun. cbn zeta in Hrun.
  unfold bind at 1. unfold attempt. unfold bind at 1. rewrite Hrun. reflexivity.
Qed.

(** X9. When the install command of a missing dependency exits with a
    non-zero status, [analyzeAndFix] throws the error of that command and
    no request for generated text is made at all. *)
Theorem failed_install_aborts_the_fix h er errorMsg p w ws install code :
  workspaceFolder h = Some ws →
  checkForDependencyError errorMsg = Some install →
  (∀ w, exitCode h install w = code) →
  code ≠ 0%Z →
  ∃ w' evs,
    analyzeAndFix h er errorMsg p w
    = (Rejected (mkError ("Command failed: " +:+ install +:+ ", Exit code: " +:+ pretty code)),
       w')
    ∧ events w' = (events w ++ evs)%list
    ∧ forallb not_ask evs = true
    ∧ commands evs = [install].
Proof.
  intros Hws Hdep Hfail Hcode. unfold analyzeAndFix.
  set (keep := S (self (er_fileManager er))).
  assert (Hne : self (er_fileManager er) ≠ keep) by (subst keep; lia).
  set (quiet := λ e, not_ask e && negb (is_command e)).
  lazymatch goal with
  | |- context [bind ?m ?k w] =>
      destruct (bind_steady quiet keep m k w) as (? & w1 & -> & H1);
        [succeeds_tac|steady_tac|]
  end.
  lazymatch goal with
  | |- context [bind ?m ?k w1] =>
      destruct (bind_steady quiet keep m k w1) as (original & w2 & -> & H2);
        [apply Succeeds_getContext|by apply Steady_getContext|]
  end.
  lazymatch goal with
  | |- context [bind ?m ?k w2] =>
      destruct (bind_steady quiet keep m k w2) as (backup & w3 & -> & H3);
        [succeeds_tac|steady_tac|]
  end.
  lazymatch goal with
  | |- context [bind ?m ?k w3] =>
      destruct (bind_steady quiet keep m k w3) as (? & w4 & -> & H4);
        [unfold logger_warn; succeeds_tac|steady_tac|]
  end.
  rewrite Hdep.
  erewrite bind_rejected
    by exact (handleDependencyError_fails h er install ws w4 code Hws (Hfail _) Hcode).
  pose proof (steady_trans _ _ _ _ _ (steady_trans _ _ _ _ _ (steady_trans _ _ _ _ _ H1 H2) H3) H4)
    as ([pre [Epre Hpre]] & _).
  eexists _, (pre ++ [_; _; _])%list. split; [reflexivity|].
  cbn [events add_event]. rewrite Epre, <- !app_assoc. split; [done|].
  assert (Hq : forallb not_ask pre = true ∧ commands pre = []).
  { clear -Hpre. induction pre as [|e pre IH]; [done|]. cbn in Hpre.
    apply andb_true_iff in Hpre as [He Hpre]. destruct (IH Hpre) as [IH1 IH2].
    subst quiet. cbn in He. apply andb_true_iff in He as [He1 He2].
    split; [cbn; by rewrite He1, IH1|].
    unfold commands in *. cbn. rewrite IH2. by destruct e. }
  destruct Hq as [Hq1 Hq2].
  rewrite forallb_app, Hq1, commands_app, Hq2. done.
Qed.

Lemma failed_install_aborts_the_fix_witness :
  ∃ w' evs,
    analyzeAndFix (demo_host ["pip install flask"] "ok") demo_recovery
      "ModuleNotFoundError: No module named 'flask'" "src/a.py" empty_world
    = (Rejected (mkError "Command failed: pip install flask, Exit code: 1"), w')
    ∧ events w' = (events empty_world ++ evs)%list
    ∧ forallb not_ask evs = true
    ∧ commands evs = ["pip install flask"].
Proof.
  apply (failed_install_aborts_the_fix (demo_host ["pip install flask"] "ok") demo_recovery
           "ModuleNotFoundError: No module named 'flask'" "src/a.py" empty_world "/ws"
           "pip install flask" 1%Z).
  - reflexivity.
  - vm_compute. reflexivity.
  - intros w. reflexivity.
  - lia.
Defined.

(** ** The error patterns *)

Lemma match_lit_prefix l s rest : match_lit l s = Some rest → s = l +:+ rest.
Proof.
  revert s. induction l as [|a l IH]; intros [|b s]; cbn; try done.
  - intros [= <-]. reflexivity.
  - intros [= <-]. reflexivity.
  - destruct (Ascii.eqb_spec a b) as [->|]; [|done].
    intros H. change (String b l +:+ rest) with (String b (l +:+ rest)).
    f_equal. by apply IH.
Qed.

Lemma match_lit_app l rest : match_lit l (l +:+ rest) = Some rest.
Proof.
  induction l as [|a l IH]; [done|].
  change (String a l +:+ rest) with (String a (l +:+ rest)). cbn.
  by rewrite Ascii.eqb_refl.
Qed.

Lemma has_char_app c a b : has_char c (a +:+ b) = has_char c a || has_char c b.
Proof.
  induction a as [|d a IH]; [done|].
  change (String d a +:+ b) with (String d (a +:+ b)). cbn. rewrite IH.
  by rewrite orb_assoc.
Qed.

Lemma all_chars_app ok a b : all_chars ok (a +:+ b) = all_chars ok a && all_chars ok b.
Proof.
  induction a as [|d a IH]; [done|].
  change (String d a +:+ b) with (String d (a +:+ b)). cbn. rewrite IH.
  by rewrite andb_assoc.
Qed.

(** X10. The fifth expression of the table, written with a doubled
    backslash in the source, asks for a backslash after the colon: it
    matches no text without a backslash, whatever the name in it. *)
Theorem reference_error_pattern_needs_backslash msg :
  has_char "\" msg = false →
  fst <$> errorPatterns !! 4%nat = Some re_ReferenceError
  ∧ regex_exec re_ReferenceError msg = None.
Proof.
  intros Hno. split; [reflexivity|].
  induction msg as [|c msg IH].
  - reflexivity.
  - cbn in Hno. apply orb_false_iff in Hno as [Hc Hmsg].
    cbn [regex_exec]. rewrite (IH Hmsg).
    destruct (match_here re_ReferenceError (String c msg) _) as [g|] eqn:E; [|done].
    exfalso. unfold re_ReferenceError in E. cbn [match_here] in E.
    destruct (match_lit "ReferenceError: " (String c msg)) as [rest|] eqn:E1; [|done].
    destruct (match_lit "\" rest) as [rest'|] eqn:E2; [|done].
    apply match_lit_prefix in E1, E2. subst rest.
    assert (Hh : has_char "\" (String c msg) = true).
    { rewrite E1, has_char_app. apply orb_true_iff. right. done. }
    cbn in Hh. by rewrite Hc, Hmsg in Hh.
Qed.

Lemma reference_error_pattern_needs_backslash_witness :
  fst <$> errorPatterns !! 4%nat = Some re_ReferenceError
  ∧ regex_exec re_ReferenceError "ReferenceError: foo is not defined" = None.
Proof.
  apply (reference_error_pattern_needs_backslash "ReferenceError: foo is not defined").
  vm_compute. reflexivity.
Defined.

Lemma consume_consume a b cap : consume b (consume a cap) = consume (a +:+ b) cap.
Proof.
  unfold consume. destruct (recording cap) eqn:E; cbn; [|by rewrite E].
  by rewrite string_app_assoc.
Qed.

(** When a greedy [x+] fails, the rest of the expression matches after no
    run of matching characters. *)
Lemma plus_greedy_none ok k s cap :
  plus_greedy ok k s cap = None →
  ∀ t rest, s = t +:+ rest → t ≠ EmptyString → all_chars ok t = true →
    k rest (consume t cap) = None.
Proof.
  revert cap. induction s as [|c s IH]; intros cap Hnone [|c2 t] rest E Ht Hok; try done.
  change (String c2 t +:+ rest) with (String c2 (t +:+ rest)) in E.
  injection E as <- E. cbn in Hok, Hnone.
  apply andb_true_iff in Hok as [Hc Hok]. rewrite Hc in Hnone.
  destruct (plus_greedy ok k s (consume (String c EmptyString) cap)) eqn:Eg; [done|].
  destruct t as [|c3 t].
  - change (EmptyString +:+ rest) with rest in E. by subst s.
  - specialize (IH _ Eg (String c3 t) rest E ltac:(done) Hok).
    by rewrite consume_consume in IH.
Qed.

(** What a greedy [x+] takes: a non-empty run of matching characters after
    which the rest of the expression matches, and the longest such run. *)
Lemma plus_greedy_sound ok k s cap r :
  plus_greedy ok k s cap = Some r →
  ∃ t rest,
    s = t +:+ rest ∧ t ≠ EmptyString ∧ all_chars ok t = true
    ∧ k rest (consume t cap) = Some r
    ∧ ∀ t2 rest2, s = t2 +:+ rest2 → all_chars ok t2 = true →
        (String.length t < String.length t2)%nat → k rest2 (consume t2 cap) = None.
Proof.
  revert cap. induction s as [|c s IH]; intros cap; cbn; [done|].
  destruct (ok c) eqn:Hc; [|done].
  destruct (plus_greedy ok k s (consume (String c EmptyString) cap)) as [r'|] eqn:E.
  - intros [= ->]. destruct (IH _ E) as (t & rest & -> & Ht & Hok & Hk & Hmax).
    exists (String c t), rest. split; [done|]. split; [done|].
    split; [cbn; by rewrite Hc|]. rewrite consume_consume in Hk. split; [exact Hk|].
    intros [|c2 t2] rest2 E2 Hok2 Hlen; [cbn in Hlen; lia|].
    change (String c2 t2 +:+ rest2) with (String c2 (t2 +:+ rest2)) in E2.
    injection E2 as <- E2. cbn in Hok2, Hlen.
    apply andb_true_iff in Hok2 as [_ Hok2].
    specialize (Hmax t2 rest2 E2 Hok2 ltac:(lia)). by rewrite consume_consume in Hmax.
  - intros Hk. exists (String c EmptyString), s. split; [done|]. split; [done|].
    split; [cbn; by rewrite Hc|]. split; [exact Hk|].
    intros [|c2 [|c3 t2]] rest2 E2 Hok2 Hlen; [cbn in Hlen; lia..|].
    change (String c2 (String c3 t2) +:+ rest2) with (String c2 (String c3 t2 +:+ rest2)) in E2.
    injection E2 as <- E2. cbn [all_chars] in Hok2.
    apply andb_true_iff in Hok2 as [_ Hok2].
    pose proof (plus_greedy_none _ _ _ _ E (String c3 t2) rest2 E2 ltac:(done) Hok2) as Hn.
    by rewrite consume_consume in Hn.
Qed.

(** A match of [a(.+)b] at the start of a text: the text starts with [a],
    the captured text and [b]; the captured text is not empty, stays on the
    line, and runs up to the last [b] of the line. *)
Lemma match_here_quoted a b s cap g :
  b ≠ EmptyString →
  match_here (Lit a :: group_any ++ [Lit b]) s cap = Some g →
  ∃ post,
    s = a +:+ g +:+ b +:+ post
    ∧ g ≠ EmptyString
    ∧ all_chars on_the_line g = true
    ∧ ∀ x y, post = x +:+ b +:+ y → all_chars on_the_line (b +:+ x) = false.
Proof.
  intros Hb. cbn [match_here group_any app].
  destruct (match_lit a s) as [rest|] eqn:Ea; [|done].
  apply match_lit_prefix in Ea. subst s.
  intros Hg. apply plus_greedy_sound in Hg
    as (t & rest' & -> & Ht & Hok & Hk & Hmax).
  cbn [match_here] in Hk.
  destruct (match_lit b rest') as [post|] eqn:Eb; [|done].
  apply match_lit_prefix in Eb. subst rest'.
  injection Hk as <-. exists post. split; [done|]. split; [done|]. split; [exact Hok|].
  intros x y -> . destruct (all_chars on_the_line (b +:+ x)) eqn:Hx; [exfalso|done].
  specialize (Hmax (t +:+ b +:+ x) (b +:+ y)).
  rewrite !string_app_assoc in Hmax. specialize (Hmax eq_refl).
  rewrite all_chars_app in Hmax. unfold on_the_line in Hok, Hx.
  rewrite Hok, Hx in Hmax. specialize (Hmax eq_refl).
  rewrite !string_length_app in Hmax.
  assert (Hlen : (0 < String.length b)%nat) by (destruct b; [done|cbn; lia]).
  specialize (Hmax ltac:(lia)). cbn [match_here] in Hmax.
  by rewrite match_lit_app in Hmax.
Qed.

(** [exec] finds its match somewhere in the text. *)
Lemma regex_exec_somewhere re s g :
  regex_exec re s = Some g →
  ∃ pre s', s = pre +:+ s' ∧ match_here re s' (mkCapture false EmptyString) = Some g.
Proof.
  induction s as [|c s IH]; cbn [regex_exec].
  - destruct (match_here re EmptyString _) eqn:E; [|done].
    intros [= ->]. by exists EmptyString, EmptyString.
  - destruct (match_here re (String c s) _) eqn:E.
    + intros [= ->]. by exists EmptyString, (String c s).
    + intros (pre & s' & -> & Hm)%IH. by exists (String c pre), s'.
Qed.

(** X11. The install command that [checkForDependencyError] gives is
    [pip install] or [npm install] followed by text taken from the error
    message: the text between the marker and a closing quote, never empty,
    all on one line, and running up to the last quote of that line. *)
Theorem dependency_command_is_built_from_quoted_text msg cmd :
  checkForDependencyError msg = Some cmd →
  ∃ tool marker pkg pre post,
    ((tool = "pip" ∧ marker = "ModuleNotFoundError: No module named '")
     ∨ (tool = "npm" ∧ marker = "Cannot find module '"))
    ∧ cmd = tool +:+ " install " +:+ pkg
    ∧ msg = pre +:+ marker +:+ pkg +:+ "'" +:+ post
    ∧ pkg ≠ EmptyString
    ∧ all_chars on_the_line pkg = true
    ∧ ∀ x y, post = x +:+ "'" +:+ y → all_chars on_the_line x = false.
Proof.
  unfold checkForDependencyError.
  destruct (regex_exec re_ModuleNotFound msg) as [py|] eqn:Epy.
  - intros [= <-]. apply regex_exec_somewhere in Epy as (pre & s' & -> & Hm).
    apply match_here_quoted in Hm as (post & -> & Hne & Hline & Hlast); [|done].
    exists "pip", "ModuleNotFoundError: No module named '", py, pre, post.
    split; [by left|]. repeat split; try done.
    all: intros x y E; exact (Hlast x y E).
  - destruct (regex_exec re_CannotFindModule msg) as [nd|] eqn:End; [|done].
    intros [= <-]. apply regex_exec_somewhere in End as (pre & s' & -> & Hm).
    apply match_here_quoted in Hm as (post & -> & Hne & Hline & Hlast); [|done].
    exists "npm", "Cannot find module '", nd, pre, post.
    split; [by right|]. repeat split; try done.
    all: intros x y E; exact (Hlast x y E).
Qed.

Lemma dependency_command_is_built_from_quoted_text_witness :
  ∃ tool marker pkg pre post,
    ((tool = "pip" ∧ marker = "ModuleNotFoundError: No module named '")
     ∨ (tool = "npm" ∧ marker = "Cannot find module '"))
    ∧ "pip install flask's" = tool +:+ " install " +:+ pkg
    ∧ "ModuleNotFoundError: No module named 'flask's'" = pre +:+ marker +:+ pkg +:+ "'" +:+ post
    ∧ pkg ≠ EmptyString
    ∧ all_chars on_the_line pkg = true
    ∧ ∀ x y, post = x +:+ "'" +:+ y → all_chars on_the_line x = false.
Proof.
  apply (dependency_command_is_built_from_quoted_text
           "ModuleNotFoundError: No module named 'flask's'" "pip install flask's").
  vm_compute. reflexivity.
Defined.

(** ** The pipeline *)


(** X13. A call of [startAutoMode] that finds the flag clear ends as its
    workflow ends: it resolves when the workflow resolves and otherwise
    throws the error of the workflow, as it is.  The workflow runs with the
    flag set. *)
Theorem startAutoMode_rethrows_the_workflow_error h ac specs model perf_ lang w :
  isRunning w = false →
  ∃ w0,
    isRunning w0 = true
    ∧ fst (startAutoMode h ac specs model perf_ lang w)
      = fst (workflow h ac specs perf_ lang (default "undefined" (workspaceFolder h)) w0).
Proof.
  intros Hrun. unfold startAutoMode. unfold bind at 1. unfold get_world at 1.
  rewrite Hrun.
  erewrite bind_resolved by reflexivity.
  erewrite bind_resolved by reflexivity.
  lazymatch goal with
  | |- context [fst (bind ?m ?k ?w0)] =>
      destruct (bind_steady any_event 0 m k w0) as (? & w1 & -> & (_ & Hflag & _))
  end.
  { destruct (has_setModel _); [unfold setModel, logger_info|]; succeeds_tac. }
  { destruct (has_setModel _); [|apply Steady_ret].
    unfold setModel. apply Steady_bind; [|intros ?; steady_tac].
    intros w0. by apply steady_set_models, steady_refl. }
  exists w1. split; [exact Hflag|].
  unfold finally, attempt. unfold bind at 1 2.
  destruct (workflow h ac specs perf_ lang _ w1) as [[[]|e] w2].
  - unfold bind, log, emit, ret. by destruct (autoSave (ac_config ac)).
  - unfold bind, log, emit, ret, throw, logger_error. by destruct (autoSave (ac_config ac)).
Qed.

Lemma startAutoMode_rethrows_the_workflow_error_witness :
  ∃ w0,
    isRunning w0 = true
    ∧ fst (startAutoMode (demo_host [] "ok") demo_ac "an app" "codellama:7b" "balanced"
             "python" empty_world)
      = fst (workflow (demo_host [] "ok") demo_ac "an app" "balanced" "python"
               (default "undefined" (workspaceFolder (demo_host [] "ok"))) w0).
Proof.
  exact (startAutoMode_rethrows_the_workflow_error (demo_host [] "ok") demo_ac "an app"
           "codellama:7b" "balanced" "python" empty_world eq_refl).
Defined.

Lemma asks_app a b : asks (a ++ b) = (asks a ++ asks b)%list.
Proof. apply List.filter_app. Qed.

Lemma asks_not_ask evs : forallb not_ask evs = true → asks evs = [].
Proof.
  induction evs as [|e evs IH]; [done|]. cbn.
  intros [He Hevs]%andb_true_iff. unfold not_ask in He.
  destruct (is_ask e); [done|]. by apply IH.
Qed.

Lemma Spends_steady keep {A} (m : Async A) : Steady not_ask keep m → Spends 0 m.
Proof.
  intros Hm w. destruct (Hm w) as ([evs [E O]] & _).
  exists evs. split; [done|]. by rewrite asks_not_ask.
Qed.

Lemma Spends_mono n n' {A} (m : Async A) : (n ≤ n')%nat → Spends n m → Spends n' m.
Proof. intros Hle Hm w. destruct (Hm w) as (evs & E & Hn). exists evs. split; [done|lia]. Qed.

Lemma Spends_bind n k {A B} (m : Async A) (f : A → Async B) :
  Spends n m → (∀ a, Spends k (f a)) → Spends (n + k) (bind m f).
Proof.
  intros Hm Hf w. unfold bind. destruct (Hm w) as (e1 & E1 & H1).
  destruct (m w) as [[a|e] w1]; cbn [snd] in *.
  - destruct (Hf a w1) as (e2 & E2 & H2). exists (e1 ++ e2)%list.
    rewrite E2, E1, <- app_assoc, asks_app, length_app. split; [done|lia].
  - exists e1. split; [done|lia].
Qed.

Lemma Spends_attempt n {A} (m : Async A) : Spends n m → Spends n (attempt m).
Proof. intros Hm w. unfold attempt. specialize (Hm w). by destruct (m w). Qed.

(** One call of [generateCode] is at most one request. *)
Lemma Spends_generateCode h c q o : Spends 1 (generateCode h c q o).
Proof.
  intros w. unfold generateCode, http_generate, bind, emit, get_world.
  destruct (cls c); cbn; try destruct (request_of c w q); cbn;
    repeat match goal with
    | |- context [match ?r with Resolved _ => _ | Rejected _ => _ end] => destruct r; cbn
    end;
    first [ by (exists []; rewrite app_nil_r; cbn; split; [|lia])
          | by (eexists [_]; split; [reflexivity|cbn; lia]) ].
Qed.

Section Cost.
Variable h : Host.
Variable ac : AutoCoder.
Variable keep : nat.
Hypothesis keep_files : self (ac_files ac) ≠ keep.
Hypothesis keep_backups : self (er_fileManager (ac_recovery ac)) ≠ keep.

Lemma Spends_analyzeAndFix msg p : Spends 1 (analyzeAndFix h (ac_recovery ac) msg p).
Proof.
  unfold analyzeAndFix.
  apply (Spends_bind 0); [apply (Spends_steady keep); steady_tac|intros ?].
  apply (Spends_bind 0); [by apply (Spends_steady keep), Steady_getContext|intros ?].
  apply (Spends_bind 0); [apply (Spends_steady keep); steady_tac|intros ?].
  apply (Spends_bind 0); [apply (Spends_steady keep); steady_tac|intros ?].
  apply (Spends_bind 0); [apply (Spends_steady keep)|intros ?].
  { destruct (checkForDependencyError msg); [|apply Steady_ret].
    by apply Steady_handleDependencyError. }
  apply (Spends_bind 0); [apply (Spends_steady keep); steady_tac|intros ?].
  apply (Spends_bind 1 0); [apply Spends_generateCode|intros ?].
  apply (Spends_steady keep). steady_tac.
Qed.

Lemma Spends_testAndFix_loop task ws left : Spends left (testAndFix_loop h ac task ws left).
Proof.
  induction left as [|left IH]; cbn [testAndFix_loop].
  - apply (Spends_steady keep). unfold log. steady_tac.
  - apply (Spends_bind 0); [apply (Spends_steady keep)|intros [[]|e]].
    + apply Steady_attempt, Steady_bind; [by apply Steady_runCommand|].
      intros ?. unfold log. steady_tac.
    + apply (Spends_mono 0); [lia|]. apply (Spends_steady keep), Steady_ret.
    + apply (Spends_bind 0); [apply (Spends_steady keep); unfold log; steady_tac|intros ?].
      apply (Spends_bind 1 left); [apply Spends_analyzeAndFix|intros ?].
      apply (Spends_bind 0); [apply (Spends_steady keep); steady_tac|intros ?].
      apply (Spends_bind 0); [apply (Spends_steady keep); unfold log; steady_tac|intros ?].
      exact IH.
Qed.

Lemma Steady_runQualityChecks f lang ws : Steady not_ask keep (runQualityChecks h f lang ws).
Proof.
  unfold runQualityChecks.
  destruct (String.eqb lang "python"), (String.eqb lang "javascript");
    try apply Steady_ret;
    (apply Steady_bind;
     [apply Steady_attempt, Steady_bind; [by apply Steady_runCommand|]; intros ?;
      unfold log; steady_tac
     |intros []; unfold log; steady_tac]).
Qed.

Lemma Spends_runTask perf_ lang ws task : Spends 4 (runTask h ac perf_ lang ws task).
Proof.
  unfold runTask.
  apply (Spends_bind 0); [apply (Spends_steady keep); unfold log; steady_tac|intros ?].
  apply (Spends_bind 1 3); [apply Spends_generateCode|intros ?].
  apply (Spends_bind 0); [apply (Spends_steady keep); steady_tac|intros ?].
  apply (Spends_bind 0); [apply (Spends_steady keep); unfold log; steady_tac|intros ?].
  apply (Spends_bind 3 0); [apply Spends_testAndFix_loop|intros ?].
  apply (Spends_bind 0); [apply (Spends_steady keep); unfold log; steady_tac|intros ?].
  apply (Spends_steady keep), Steady_runQualityChecks.
Qed.

Lemma Spends_runTasks perf_ lang ws tasks :
  Spends (4 * length tasks) (runTasks h ac perf_ lang ws tasks).
Proof.
  induction tasks as [|task tasks IH].
  - apply (Spends_steady keep), Steady_ret.
  - apply (Spends_mono (0 + (4 + 4 * length tasks)));
      [change (length (task :: tasks)) with (S (length tasks)); lia|].
    change (runTasks h ac perf_ lang ws (task :: tasks))
      with (let* w := get_world in
            if negb (isRunning w) then ret tt
            else do runTask h ac perf_ lang ws task then runTasks h ac perf_ lang ws tasks).
    apply Spends_bind; [apply (Spends_steady keep), Steady_get_world|intros w0].
    destruct (negb (isRunning w0)).
    + apply (Spends_mono 0); [lia|]. apply (Spends_steady keep), Steady_ret.
    + apply Spends_bind; [apply Spends_runTask|intros ?; exact IH].
Qed.
End Cost.

(** X14. Whatever the tests and the provider answer, the loop over the
    tasks makes at most four requests for generated text for each task: one
    for the code and at most three for repairs. *)
Theorem at_most_four_requests_for_each_task h ac perf_ lang ws tasks w :
  ∃ evs,
    events (snd (runTasks h ac perf_ lang ws tasks w)) = (events w ++ evs)%list
    ∧ (length (asks evs) ≤ 4 * length tasks)%nat.
Proof.
  apply (Spends_runTasks h ac
           (S (self (ac_files ac) `max` self (er_fileManager (ac_recovery ac))))); lia.
Qed.

(** X15. A provider name that the factory maps to one of the stub classes
    gives a client without throwing, and every call of [generateCode] on
    that client throws [Not implemented], with no request made. *)
Theorem stub_provider_never_generates h s w k :
  lookupProvider (toLowerCase (default "ollama" (cfg_string s "vibecoding.provider")))
  = Some k →
  is_stub k = true →
  ∃ c w',
    createLLMClient h s w = (Resolved c, w')
    ∧ ∀ q o w1, generateCode h c q o w1 = (Rejected (mkError "Not implemented"), w1).
Proof.
  intros Hlook Hstub. unfold createLLMClient.
  erewrite bind_resolved by apply getConfiguration_default.
  rewrite Hlook.
  destruct (new_client_class h s k w) as (c & w' & E & Hcls & _).
  exists c, w'. split; [exact E|]. intros q o w1.
  unfold generateCode, request_of. rewrite Hcls.
  by destruct k.
Qed.

Lemma stub_provider_never_generates_witness :
  ∃ c w',
    createLLMClient (demo_host [] "ok")
      (mkSettings (λ key, if String.eqb key "vibecoding.provider" then Some "Claude" else None)
         (λ _, None))
      empty_world
    = (Resolved c, w')
    ∧ ∀ q o w1,
        generateCode (demo_host [] "ok") c q o w1
        = (Rejected (mkError "Not implemented"), w1).
Proof.
  apply (stub_provider_never_generates (demo_host [] "ok")
           (mkSettings (λ key, if String.eqb key "vibecoding.provider" then Some "Claude"
                               else None) (λ _, None))
           empty_world ClaudeClient).
  - vm_compute. reflexivity.
  - reflexivity.
Defined.

(** X16. When the request for the code of a task throws, the task is
    given up at once and so are the tasks after it: the loop throws that
    error and nothing is written or run for the task. *)
Theorem failed_generation_stops_the_loop h ac perf_ lang ws task rest w e w1 :
  isRunning w = true →
  generateCode h (ac_llm ac) (prompt task) (Some (generationOptions perf_))
    (add_event (EvProgress ("Generating code for " +:+ file task +:+ "...")) w)
  = (Rejected e, w1) →
  runTasks h ac perf_ lang ws (task :: rest) w = (Rejected e, w1).
Proof.
  intros Hrun Hgen. cbn [runTasks]. unfold bind at 1. unfold get_world at 1.
  rewrite Hrun. cbn [negb].
  apply bind_rejected. unfold runTask.
  erewrite bind_resolved by reflexivity.
  by apply bind_rejected.
Qed.

Lemma failed_generation_stops_the_loop_witness :
  runTasks (demo_host [] "ok")
    (mkAutoCoder (mkClient CopilotClient 0 EmptyString EmptyString) (λ _ _, ret [])
       demo_recovery demo_fm (mkAutoCoderConfig "balanced" true))
    "balanced" "python" "/ws" [spec_task; spec_task] demo_world
  = (Rejected (mkError "Not implemented"),
     add_event (EvProgress "Generating code for src/a.py...") demo_world).
Proof.
  apply (failed_generation_stops_the_loop (demo_host [] "ok")
           (mkAutoCoder (mkClient CopilotClient 0 EmptyString EmptyString) (λ _ _, ret [])
              demo_recovery demo_fm (mkAutoCoderConfig "balanced" true))
           "balanced" "python" "/ws" spec_task [spec_task] demo_world).
  - reflexivity.
  - reflexivity.
Defined.

(** ** The Ollama client of src/ollamaClient.ts *)

(** X17. [generateCode] of this client posts exactly one request, the
    payload; it gives the text of the answer when there is one, and
    otherwise throws a new error whose message is [Ollama generate failed: ]
    followed by the message of the failure. *)
Theorem ollama_generate_rewraps_the_failure h c q cfg w :
  let req := OllamaClientTs.payload c w q cfg in
  let w' := snd (OllamaClientTs.generateCode h c q cfg w) in
  requests (events w') = (requests (events w) ++ [req])%list
  ∧ fst (OllamaClientTs.generateCode h c q cfg w)
    = match completion h req (add_event (EvHttpPost req) w) with
      | Resolved text => Resolved text
      | Rejected err => Rejected (mkError ("Ollama generate failed: " +:+ message err))
      end.
Proof.
  cbv zeta. unfold OllamaClientTs.generateCode, http_generate, bind, attempt, emit, get_world,
    logger_info, logger_error, throw, ret. cbn.
  destruct (completion h _ _) as [text|err]; cbn;
    rewrite !requests_app; cbn; by rewrite ?app_nil_r.
Qed.

(** ** The terminal and the dependency manager *)

(** [runCommand] for a command that exits with status 0. *)
Lemma runCommand_passes h cmd ws w :
  exitCode h cmd (add_event (EvSendText cmd) w) = 0%Z →
  runCommand h cmd ws w
  = (Resolved tt,
     add_event (EvLogger info ("Command executed successfully: " +:+ cmd))
       (add_event (EvSendText cmd) w)).
Proof. intros Hc. unfold runCommand, bind, emit, get_world. cbn. by rewrite Hc. Qed.

(** Whatever its exit status, [runCommand] sends its command and no other. *)
Lemma runCommand_commands h cmd ws w :
  commands (events (snd (runCommand h cmd ws w))) = (commands (events w) ++ [cmd])%list.
Proof.
  unfold runCommand, bind, emit, get_world, logger_info, logger_error, throw. cbn.
  destruct (Z.eqb _ 0); cbn; by rewrite commands_app, commands_app, app_nil_r.
Qed.

Section ExitCodes.
Variable h : Host.
Variable ws : string.
Variable code : string → Z.
Hypothesis exit_code : ∀ c w, exitCode h c w = code c.

Lemma checkDependencies_loop_run entries w :
  let w' := snd (checkDependencies_loop h ws entries w) in
  match list_find (λ e : string * string, code e.2 ≠ 0%Z) entries with
  | None =>
      fst (checkDependencies_loop h ws entries w) = Resolved tt
      ∧ commands (events w') = (commands (events w) ++ entries.*2)%list
  | Some (i, (dep, cmd)) =>
      fst (checkDependencies_loop h ws entries w)
      = Rejected (mkError ("Dependency check failed for " +:+ dep +:+ ": Error: "
                             +:+ "Command failed: " +:+ cmd +:+ ", Exit code: "
                             +:+ pretty (code cmd)))
      ∧ commands (events w') = (commands (events w) ++ take (S i) entries.*2)%list
  end.
Proof.
  revert w. induction entries as [|[dep cmd] rest IH]; intros w.
  - cbn. by rewrite app_nil_r.
  - cbn [list_find checkDependencies_loop]. destruct (decide _) as [Hfail|Hpass]; cbn [snd] in *.
    + pose proof (runCommand_fails h cmd ws w (code cmd) (exit_code _ _) Hfail) as Hrun.
      cbn zeta in Hrun.
      erewrite bind_resolved
        by (apply attempt_eq; erewrite bind_rejected by exact Hrun; reflexivity).
      unfold bind, logger_error, emit, throw. cbn [fst snd]. split; [done|].
      cbn. rewrite !commands_app. cbn. by rewrite !app_nil_r.
    + assert (Hzero : code cmd = 0%Z) by (destruct (decide (code cmd = 0%Z)); done).
      pose proof (runCommand_passes h cmd ws w) as Hrun.
      rewrite exit_code in Hrun. specialize (Hrun Hzero).
      erewrite bind_resolved
        by (apply attempt_eq; erewrite bind_resolved by exact Hrun; reflexivity).
      set (w1 := add_event _ (add_event _ (add_event _ w))).
      specialize (IH w1). cbn zeta in IH.
      assert (Hw1 : commands (events w1) = (commands (events w) ++ [cmd])%list).
      { subst w1. cbn. rewrite !commands_app. cbn. by rewrite !app_nil_r. }
      destruct (list_find _ rest) as [[i [d c]]|]; cbn [fmap option_fmap option_map prod_map fst snd];
        destruct IH as [IH1 IH2]; (split; [exact IH1|]);
        rewrite IH2, Hw1, <- app_assoc; done.
Qed.

Lemma validateEnvironment_loop_run entries found w :
  ∃ w',
    validateEnvironment_loop h ws entries found w
    = (Resolved (found ++ ((λ e : string * string, mkConflict e.1 "latest" "unknown")
                   <$> filter (λ e : string * string, code e.2 ≠ 0%Z) entries))%list, w')
    ∧ commands (events w') = (commands (events w) ++ entries.*2)%list.
Proof.
  revert found w. induction entries as [|[lang_ cmd] rest IH]; intros found w.
  - exists w. cbn. by rewrite !app_nil_r.
  - cbn [validateEnvironment_loop]. rewrite filter_cons.
    destruct (decide _) as [Hfail|Hpass]; cbn [snd] in *.
    + pose proof (runCommand_fails h cmd ws w (code cmd) (exit_code _ _) Hfail) as Hrun.
      cbn zeta in Hrun.
      erewrite bind_resolved
        by (apply attempt_eq; erewrite bind_rejected by exact Hrun; reflexivity).
      cbv beta iota. erewrite bind_resolved by reflexivity.
      set (w1 := add_event _ (add_event _ (add_event _ w))).
      destruct (IH (found ++ [mkConflict lang_ "latest" "unknown"])%list w1) as (w' & E & Hc).
      exists w'. rewrite E, Hc. split; [by rewrite fmap_cons, <- app_assoc|].
      subst w1. cbn. rewrite !commands_app. cbn. by rewrite !app_nil_r, <- app_assoc.
    + assert (Hzero : code cmd = 0%Z) by (destruct (decide (code cmd = 0%Z)); done).
      pose proof (runCommand_passes h cmd ws w) as Hrun.
      rewrite exit_code in Hrun. specialize (Hrun Hzero).
      erewrite bind_resolved
        by (apply attempt_eq; erewrite bind_resolved by exact Hrun; reflexivity).
      cbv beta iota.
      set (w1 := add_event _ (add_event _ (add_event _ w))).
      destruct (IH found w1) as (w' & E & Hc).
      exists w'. rewrite E, Hc. split; [done|].
      subst w1. cbn. rewrite !commands_app. cbn. by rewrite !app_nil_r, <- app_assoc.
Qed.
End ExitCodes.

(** X18. With a workspace folder open, [checkDependencies] runs the six
    version commands in the order of the table and stops at the first one
    that exits with a non-zero status: it then throws an error naming that
    dependency, and the commands after it are not sent.  It resolves when
    none fails. *)
Theorem checkDependencies_stops_at_first_failure h ws code w :
  workspaceFolder h = Some ws →
  (∀ c w, exitCode h c w = code c) →
  let w' := snd (checkDependencies h w) in
  match list_find (λ e : string * string, code e.2 ≠ 0%Z) dependencyCommands with
  | None =>
      fst (checkDependencies h w) = Resolved tt
      ∧ commands (events w') = (commands (events w) ++ dependencyCommands.*2)%list
  | Some (i, (dep, cmd)) =>
      fst (checkDependencies h w)
      = Rejected (mkError ("Dependency check failed for " +:+ dep +:+ ": Error: "
                             +:+ "Command failed: " +:+ cmd +:+ ", Exit code: "
                             +:+ pretty (code cmd)))
      ∧ commands (events w') = (commands (events w) ++ take (S i) dependencyCommands.*2)%list
  end.
Proof.
  intros Hws Hcode. unfold checkDependencies. rewrite Hws.
  exact (checkDependencies_loop_run h ws code Hcode dependencyCommands w).
Qed.

Lemma checkDependencies_stops_at_first_failure_witness :
  fst (checkDependencies (demo_host ["java --version"; "flake8 --version"] "ok") empty_world)
  = Rejected (mkError ("Dependency check failed for java: Error: "
                         +:+ "Command failed: java --version, Exit code: 1"))
  ∧ commands (events (snd (checkDependencies
                             (demo_host ["java --version"; "flake8 --version"] "ok")
                             empty_world)))
    = ["python --version"; "node --version"; "java --version"].
Proof.
  exact (checkDependencies_stops_at_first_failure
           (demo_host ["java --version"; "flake8 --version"] "ok") "/ws"
           (λ c, if bool_decide (c ∈ ["java --version"; "flake8 --version"]) then 1%Z else 0%Z)
           empty_world eq_refl (λ _ _, eq_refl)).
Defined.

(** X19. With a workspace folder open, [validateEnvironment] never throws
    and sends all three install commands whichever of them fail; it reports
    success exactly when none failed, and otherwise lists the languages
    whose command failed, in the order of the table.  Every tool it lists is
    one that [resolveConflicts] has an upgrade command for. *)
Theorem validateEnvironment_tries_every_language h ws code w :
  workspaceFolder h = Some ws →
  (∀ c w, exitCode h c w = code c) →
  let failed :=
    (filter (λ e : string * string, code e.2 ≠ 0%Z) environmentCommands).*1 in
  ∃ v w',
    validateEnvironment h w = (Resolved v, w')
    ∧ success v = bool_decide (failed = [])
    ∧ conflicts v
      = (if bool_decide (failed = []) then None
         else Some ((λ l, mkConflict l "latest" "unknown") <$> failed))
    ∧ commands (events w') = (commands (events w) ++ environmentCommands.*2)%list
    ∧ Forall (λ l, is_Some (upgradeCommand l)) failed.
Proof.
  intros Hws Hcode failed. unfold validateEnvironment. rewrite Hws.
  destruct (validateEnvironment_loop_run h ws code Hcode environmentCommands [] w)
    as (w' & E & Hc).
  erewrite bind_resolved by exact E. eexists _, w'. split; [reflexivity|].
  cbn [success conflicts app]. rewrite length_fmap.
  assert (Hlen : length (filter (λ e : string * string, code e.2 ≠ 0%Z) environmentCommands)
                 = length failed) by (subst failed; by rewrite length_fmap).
  rewrite Hlen.
  assert (Hfm : (λ e : string * string, mkConflict e.1 "latest" "unknown")
                  <$> filter (λ e : string * string, code e.2 ≠ 0%Z) environmentCommands
                = (λ l, mkConflict l "latest" "unknown") <$> failed).
  { subst failed. by rewrite <- list_fmap_compose. }
  rewrite Hfm. split; [|split; [|split; [exact Hc|]]].
  - destruct failed; by cbn.
  - destruct failed; by cbn.
  - subst failed. apply Forall_fmap, Forall_forall. intros [l c] Hin%list_elem_of_filter.
    destruct Hin as [_ Hin]. unfold environmentCommands in Hin.
    repeat (apply elem_of_cons in Hin as [[= -> ->]|Hin]; [by eexists|]).
    by apply elem_of_nil in Hin.
Qed.

Lemma validateEnvironment_tries_every_language_witness :
  ∃ v w',
    validateEnvironment (demo_host ["npm install -g express jest"] "ok") empty_world
    = (Resolved v, w')
    ∧ success v = false
    ∧ conflicts v = Some [mkConflict "node" "latest" "unknown"]
    ∧ commands (events w') = (commands (events empty_world) ++ environmentCommands.*2)%list
    ∧ Forall (λ l, is_Some (upgradeCommand l)) ["node"].
Proof.
  exact (validateEnvironment_tries_every_language
           (demo_host ["npm install -g express jest"] "ok") "/ws"
           (λ c, if bool_decide (c ∈ ["npm install -g express jest"]) then 1%Z else 0%Z)
           empty_world eq_refl (λ _ _, eq_refl)).
Defined.

Lemma resolveConflicts_loop_run h ws cs done_ w :
  ∃ rs w',
    resolveConflicts_loop h ws cs done_ w = (Resolved (done_ ++ rs)%list, w')
    ∧ res_tool <$> rs = tool <$> cs
    ∧ commands (events w')
      = (commands (events w) ++ omap upgradeCommand (tool <$> cs))%list
    ∧ Forall (λ r, res_success r = true → is_Some (upgradeCommand (res_tool r))) rs.
Proof.
  revert done_ w. induction cs as [|c cs IH]; intros done_ w.
  - exists [], w. cbn. by rewrite !app_nil_r.
  - cbn [resolveConflicts_loop fmap list_fmap omap list_omap].
    destruct (upgradeCommand (tool c)) as [cmd|] eqn:Eup.
    + pose proof (runCommand_commands h cmd ws w) as Hcmd.
      destruct (runCommand h cmd ws w) as [[[]|e] w1] eqn:Erun; cbn [snd] in Hcmd.
      * erewrite (bind_resolved (attempt _))
          by (apply attempt_eq; erewrite bind_resolved by reflexivity;
              erewrite bind_resolved by exact Erun; reflexivity).
        cbv beta iota. erewrite bind_resolved by reflexivity.
        match goal with
        | |- context [resolveConflicts_loop h ws cs ?d ?w0] =>
            destruct (IH d w0) as (rs & w' & E & Ht & Hc & Hs)
        end.
        eexists (_ :: rs), w'. rewrite E, <- app_assoc. split; [reflexivity|].
        split; [cbn; by rewrite Ht|]. split.
        { rewrite Hc. cbn. rewrite commands_app, Hcmd. cbn.
          by rewrite app_nil_r, <- app_assoc. }
        constructor; [cbn; by rewrite Eup|exact Hs].
      * erewrite (bind_resolved (attempt _))
          by (apply attempt_eq; erewrite bind_resolved by reflexivity;
              erewrite bind_rejected by exact Erun; reflexivity).
        cbv beta iota. erewrite bind_resolved by reflexivity.
        match goal with
        | |- context [resolveConflicts_loop h ws cs ?d ?w0] =>
            destruct (IH d w0) as (rs & w' & E & Ht & Hc & Hs)
        end.
        eexists (_ :: rs), w'. rewrite E, <- app_assoc. split; [reflexivity|].
        split; [cbn; by rewrite Ht|]. split.
        { rewrite Hc. cbn. rewrite commands_app, Hcmd. cbn.
          by rewrite app_nil_r, <- app_assoc. }
        constructor; [done|exact Hs].
    + erewrite (bind_resolved (attempt _))
        by (apply attempt_eq; erewrite bind_rejected by reflexivity; reflexivity).
      cbv beta iota. erewrite bind_resolved by reflexivity.
      match goal with
      | |- context [resolveConflicts_loop h ws cs ?d ?w0] =>
          destruct (IH d w0) as (rs & w' & E & Ht & Hc & Hs)
      end.
      eexists (_ :: rs), w'. rewrite E, <- app_assoc. split; [reflexivity|].
      split; [cbn; by rewrite Ht|]. split.
      { rewrite Hc. cbn. rewrite commands_app. cbn. by rewrite app_nil_r. }
      constructor; [done|exact Hs].
Qed.

(** X20. With a workspace folder open, [resolveConflicts] never throws: it
    gives one resolution for each conflict, in the same order and for the
    same tool, whatever fails on the way.  A command is sent only for the
    tools python, node and java; for another tool the resolution is a
    failure and nothing is sent. *)
Theorem resolveConflicts_answers_every_conflict h ws cs w :
  workspaceFolder h = Some ws →
  ∃ rs w',
    resolveConflicts h cs w = (Resolved rs, w')
    ∧ res_tool <$> rs = tool <$> cs
    ∧ commands (events w')
      = (commands (events w) ++ omap upgradeCommand (tool <$> cs))%list
    ∧ Forall (λ r, res_success r = true → is_Some (upgradeCommand (res_tool r))) rs.
Proof.
  intros Hws. unfold resolveConflicts. rewrite Hws.
  exact (resolveConflicts_loop_run h ws cs [] w).
Qed.

Lemma resolveConflicts_answers_every_conflict_witness :
  ∃ rs w',
    resolveConflicts (demo_host ["winget upgrade nodejs"] "ok")
      [mkConflict "node" "latest" "unknown"; mkConflict "rust" "latest" "unknown";
       mkConflict "java" "latest" "unknown"] empty_world
    = (Resolved rs, w')
    ∧ res_tool <$> rs = ["node"; "rust"; "java"]
    ∧ commands (events w')
      = (commands (events empty_world) ++ ["winget upgrade nodejs"; "winget upgrade openjdk"])%list
    ∧ Forall (λ r, res_success r = true → is_Some (upgradeCommand (res_tool r))) rs.
Proof.
  exact (resolveConflicts_answers_every_conflict (demo_host ["winget upgrade nodejs"] "ok")
           "/ws"
           [mkConflict "node" "latest" "unknown"; mkConflict "rust" "latest" "unknown";
            mkConflict "java" "latest" "unknown"] empty_world eq_refl).
Defined.

(** ** The task parser *)

Lemma trimStart_white s : all_chars is_white s = true → trimStart s = EmptyString.
Proof.
  induction s as [|c s IH]; [done|]. cbn. intros [Hc Hs]%andb_true_iff.
  rewrite Hc. by apply IH.
Qed.

Lemma trim_white s : all_chars is_white s = true → trim s = EmptyString.
Proof. intros Hs. unfold trim. by rewrite trimStart_white. Qed.

Lemma split_lines_from_white cur s :
  all_chars is_white cur = true → all_chars is_white s = true →
  Forall (λ l, all_chars is_white l = true) (split_lines_from cur s).
Proof.
  revert cur. induction s as [|c s IH]; intros cur Hcur Hs; cbn.
  - by constructor.
  - cbn in Hs. apply andb_true_iff in Hs as [Hc Hs].
    destruct (nat_of_ascii c =? 10)%nat.
    + constructor; [done|]. by apply IH.
    + apply IH; [|done]. rewrite all_chars_app. cbn. by rewrite Hcur, Hc.
Qed.

(** Specifications made of white space only have no line to parse. *)
Lemma specLines_white specs : all_chars is_white specs = true → specLines specs = [].
Proof.
  intros Hs. unfold specLines, split_lines.
  pose proof (split_lines_from_white EmptyString specs eq_refl Hs) as Hall.
  induction Hall as [|l ls Hl _ IH]; [done|].
  rewrite fmap_cons, filter_cons. rewrite (trim_white l Hl).
  by destruct (decide _).
Qed.

(** X21. Specifications that hold nothing but white space are refused with
    [No tasks parsed from specifications], whatever the language of the
    configuration, a language that is not supported included. *)
Theorem blank_specifications_are_refused specs config w :
  all_chars is_white specs = true →
  parseSpecifications specs config w
  = (Rejected (mkError "No tasks parsed from specifications"),
     add_event (EvLogger warn "No tasks parsed from specifications")
       (add_event (EvLogger info "Parsing specifications")
          (add_event (EvProgress "Parsing your coding vibe... 🧠") w))).
Proof.
  intros Hs. unfold parseSpecifications. rewrite (specLines_white specs Hs). reflexivity.
Qed.

Lemma blank_specifications_are_refused_witness :
  parseSpecifications (" " +:+ newline +:+ "  ") (createProjectConfig "cobol") empty_world
  = (Rejected (mkError "No tasks parsed from specifications"),
     add_event (EvLogger warn "No tasks parsed from specifications")
       (add_event (EvLogger info "Parsing specifications")
          (add_event (EvProgress "Parsing your coding vibe... 🧠") empty_world))).
Proof.
  exact (blank_specifications_are_refused (" " +:+ newline +:+ "  ")
           (createProjectConfig "cobol") empty_world eq_refl).
Defined.

(** X22. With at least one line to parse and a language that, in lower
    case, is none of python, javascript and java, [parseSpecifications]
    throws [Unsupported language:] followed by the language as it was given,
    and gives no task. *)
Theorem unsupported_language_is_refused specs config w :
  specLines specs ≠ [] →
  toLowerCase (language config) ∉ ["python"; "javascript"; "java"] →
  fst (parseSpecifications specs config w)
  = Rejected (mkError ("Unsupported language: " +:+ language config)).
Proof.
  intros Hlines Hlang. unfold parseSpecifications.
  erewrite bind_resolved by reflexivity.
  erewrite bind_resolved by reflexivity.
  destruct (specLines specs) as [|line rest]; [done|].
  cbn [parseLines].
  destruct (String.eqb_spec (toLowerCase (language config)) "python") as [E|_];
    [rewrite E in Hlang; set_solver|].
  destruct (String.eqb_spec (toLowerCase (language config)) "javascript") as [E|_];
    [rewrite E in Hlang; set_solver|].
  destruct (String.eqb_spec (toLowerCase (language config)) "java") as [E|_];
    [rewrite E in Hlang; set_solver|].
  reflexivity.
Qed.

Lemma unsupported_language_is_refused_witness :
  fst (parseSpecifications "a ledger" (createProjectConfig "COBOL") empty_world)
  = Rejected (mkError "Unsupported language: COBOL").
Proof.
  apply (unsupported_language_is_refused "a ledger" (createProjectConfig "COBOL") empty_world).
  - vm_compute. discriminate.
  - vm_compute. intros H. repeat (apply elem_of_cons in H as [H|H]; [discriminate|]).
    by apply elem_of_nil in H.
Defined.

Lemma parseLines_supported config lines tasks w :
  toLowerCase (language config) ∈ ["python"; "javascript"; "java"] →
  ∃ ts w',
    parseLines config lines tasks w = (Resolved (tasks ++ ts)%list, w')
    ∧ (length lines ≤ length ts ≤ 2 * length lines)%nat.
Proof.
  intros Hlang. revert tasks w. induction lines as [|line rest IH]; intros tasks w.
  - exists [], w. cbn. by rewrite app_nil_r.
  - cbn [parseLines].
    assert (Hstep : ∀ new w0, (1 ≤ length new ≤ 2)%nat →
      ∃ ts w', parseLines config rest (tasks ++ new)%list w0 = (Resolved (tasks ++ ts)%list, w')
               ∧ (length (line :: rest) ≤ length ts ≤ 2 * length (line :: rest))%nat).
    { intros new w0 Hnew. destruct (IH (tasks ++ new)%list w0) as (ts & w' & E & Hlen).
      exists (new ++ ts)%list, w'. rewrite E, app_assoc. split; [done|].
      rewrite length_app. cbn [length]. lia. }
    destruct (String.eqb_spec (toLowerCase (language config)) "python") as [_|Hpy].
    { destruct (includes _ "flask"); [apply Hstep; cbn; lia|].
      erewrite bind_resolved by reflexivity. erewrite bind_resolved by reflexivity.
      apply Hstep. cbn. lia. }
    destruct (String.eqb_spec (toLowerCase (language config)) "javascript") as [_|Hjs].
    { destruct (includes _ "express"); [apply Hstep; cbn; lia|].
      erewrite bind_resolved by reflexivity. erewrite bind_resolved by reflexivity.
      apply Hstep. cbn. lia. }
    destruct (String.eqb_spec (toLowerCase (language config)) "java") as [_|Hjava].
    { erewrite bind_resolved by reflexivity. erewrite bind_resolved by reflexivity.
      apply Hstep. cbn. lia. }
    exfalso. repeat (apply elem_of_cons in Hlang as [Hlang|Hlang]; [done|]).
    by apply elem_of_nil in Hlang.
Qed.

(** X23. With at least one line to parse and a language that, in lower
    case, is python, javascript or java, [parseSpecifications] resolves, and
    with at least one task and at most two for each line. *)
Theorem supported_language_gives_tasks specs config w :
  specLines specs ≠ [] →
  toLowerCase (language config) ∈ ["python"; "javascript"; "java"] →
  ∃ tasks w',
    parseSpecifications specs config w = (Resolved tasks, w')
    ∧ (length (specLines specs) ≤ length tasks ≤ 2 * length (specLines specs))%nat.
Proof.
  intros Hlines Hlang. unfold parseSpecifications.
  erewrite bind_resolved by reflexivity.
  erewrite bind_resolved by reflexivity.
  cbv beta.
  match goal with
  | |- context [bind (parseLines config _ []) _ ?w0] =>
      destruct (parseLines_supported config (specLines specs) [] w0 Hlang)
        as (ts & w' & E & Hlen)
  end.
  erewrite bind_resolved by exact E. cbn [app].
  exists ts, w'. split; [|exact Hlen].
  destruct ts as [|t ts]; [|reflexivity].
  destruct (specLines specs); [done|cbn in Hlen; lia].
Qed.

Lemma supported_language_gives_tasks_witness :
  ∃ tasks w',
    parseSpecifications ("a Flask service" +:+ newline +:+ "a report")
      (createProjectConfig "python") empty_world
    = (Resolved tasks, w')
    ∧ (length (specLines ("a Flask service" +:+ newline +:+ "a report")) ≤ length tasks
       ≤ 2 * length (specLines ("a Flask service" +:+ newline +:+ "a report")))%nat.
Proof.
  apply (supported_language_gives_tasks ("a Flask service" +:+ newline +:+ "a report")
           (createProjectConfig "python") empty_world).
  - vm_compute. discriminate.
  - vm_compute. apply list_elem_of_here.
Defined.

Lemma parseLines_java config lines tasks w :
  toLowerCase (language config) = "java" →
  fst (parseLines config lines tasks w)
  = Resolved (tasks ++ ((λ line, mkTask line (sourceDir (projectStructure config) +:+ "/Main.java")
                                   "mvn test") <$> lines))%list.
Proof.
  intros Hlang. revert tasks w. induction lines as [|line rest IH]; intros tasks w.
  - cbn. by rewrite app_nil_r.
  - cbn [parseLines]. rewrite Hlang. cbn [String.eqb Ascii.eqb Bool.eqb].
    erewrite bind_resolved by reflexivity. erewrite bind_resolved by reflexivity.
    rewrite IH, fmap_cons, <- app_assoc. done.
Qed.

(** X24. For Java, every line of the specifications becomes one task whose
    prompt is the line; all these tasks name the same file, [Main.java] in
    the source directory, and the same test command. *)
Theorem java_tasks_all_name_one_file specs config w :
  specLines specs ≠ [] →
  toLowerCase (language config) = "java" →
  fst (parseSpecifications specs config w)
  = Resolved ((λ line, mkTask line (sourceDir (projectStructure config) +:+ "/Main.java")
                         "mvn test") <$> specLines specs).
Proof.
  intros Hlines Hlang. unfold parseSpecifications.
  erewrite bind_resolved by reflexivity.
  erewrite bind_resolved by reflexivity.
  cbv beta.
  match goal with
  | |- context [bind (parseLines config ?l []) _ ?w0] =>
      pose proof (parseLines_java config l [] w0 Hlang) as E; unfold bind at 1;
        destruct (parseLines config l [] w0) as [r w']
  end.
  cbn [fst app] in E. subst r.
  destruct (specLines specs) as [|l ls]; [done|]. reflexivity.
Qed.

Lemma java_tasks_all_name_one_file_witness :
  fst (parseSpecifications ("a parser" +:+ newline +:+ newline +:+ "  a printer ")
         (createProjectConfig "java") empty_world)
  = Resolved [mkTask "a parser" "src/main/java/Main.java" "mvn test";
              mkTask "a printer" "src/main/java/Main.java" "mvn test"].
Proof.
  apply (java_tasks_all_name_one_file ("a parser" +:+ newline +:+ newline +:+ "  a printer ")
           (createProjectConfig "java") empty_world).
  - vm_compute. discriminate.
  - reflexivity.
Defined.

(** ** The logger *)

(** No string has an index above 3 in [LEVELS]. *)
Lemma indexOf_LEVELS_le s : (LoggerTs.indexOf LoggerTs.LEVELS s ≤ 3)%Z.
Proof.
  unfold LoggerTs.indexOf, LoggerTs.LEVELS. cbn [LoggerTs.indexOf_from].
  repeat (destruct (String.eqb _ s); [lia|]). lia.
Qed.

(** A string that is none of the four names has index -1. *)
Lemma indexOf_LEVELS_unknown s :
  s ∉ LoggerTs.LEVELS → LoggerTs.indexOf LoggerTs.LEVELS s = (-1)%Z.
Proof.
  intros Hs. unfold LoggerTs.indexOf, LoggerTs.LEVELS in *. cbn [LoggerTs.indexOf_from].
  destruct (String.eqb_spec "debug" s) as [E|_]; [destruct Hs; subst s; repeat constructor|].
  destruct (String.eqb_spec "info" s) as [E|_]; [destruct Hs; subst s; repeat constructor|].
  destruct (String.eqb_spec "warn" s) as [E|_]; [destruct Hs; subst s; repeat constructor|].
  destruct (String.eqb_spec "error" s) as [E|_]; [destruct Hs; subst s; repeat constructor|].
  reflexivity.
Qed.

(** X25. A line at level [error] goes to the output channel whatever the
    minimum level is set to. *)
Theorem error_lines_are_never_filtered lg msg meta :
  LoggerTs.channel (LoggerTs.log lg error msg meta)
  = (LoggerTs.channel lg ++ [LoggerTs.mkEntry error msg meta])%list.
Proof.
  unfold LoggerTs.log.
  pose proof (indexOf_LEVELS_le (LoggerTs.minLevel lg)) as Hle.
  change (LoggerTs.indexOf LoggerTs.LEVELS (LoggerTs.level_name error)) with 3%Z.
  destruct (Z.ltb_spec 3 (LoggerTs.indexOf LoggerTs.LEVELS (LoggerTs.minLevel lg)));
    [lia|done].
Qed.

(** X26. When the stored minimum level is none of the four level names,
    nothing is filtered: a line at any level goes to the output channel. *)
Theorem unknown_minimum_level_filters_nothing lg level msg meta :
  LoggerTs.minLevel lg ∉ LoggerTs.LEVELS →
  LoggerTs.channel (LoggerTs.log lg level msg meta)
  = (LoggerTs.channel lg ++ [LoggerTs.mkEntry level msg meta])%list.
Proof.
  intros Hunknown. unfold LoggerTs.log.
  rewrite (indexOf_LEVELS_unknown _ Hunknown).
  by destruct level.
Qed.

Lemma unknown_minimum_level_filters_nothing_witness :
  LoggerTs.channel (LoggerTs.log (LoggerTs.mk "verbose" ∅ []) debug "probing" None)
  = [LoggerTs.mkEntry debug "probing" None].
Proof.
  apply (unknown_minimum_level_filters_nothing (LoggerTs.mk "verbose" ∅ []) debug "probing"
           None).
  intros H. repeat (apply elem_of_cons in H as [H|H]; [discriminate|]).
  by apply elem_of_nil in H.
Defined.

(** X27. A level that passes the filter lets every higher level pass: if a
    line at one level is written, a line at any level of a greater index
    is written too. *)
Theorem level_filter_is_monotone lg l1 l2 msg1 msg2 meta1 meta2 :
  (LoggerTs.indexOf LoggerTs.LEVELS (LoggerTs.level_name l1)
   ≤ LoggerTs.indexOf LoggerTs.LEVELS (LoggerTs.level_name l2))%Z →
  LoggerTs.log lg l1 msg1 meta1 ≠ lg →
  LoggerTs.channel (LoggerTs.log lg l2 msg2 meta2)
  = (LoggerTs.channel lg ++ [LoggerTs.mkEntry l2 msg2 meta2])%list.
Proof.
  unfold LoggerTs.log. intros Hle Hpass.
  destruct (Z.ltb_spec (LoggerTs.indexOf LoggerTs.LEVELS (LoggerTs.level_name l1))
              (LoggerTs.indexOf LoggerTs.LEVELS (LoggerTs.minLevel lg))); [done|].
  destruct (Z.ltb_spec (LoggerTs.indexOf LoggerTs.LEVELS (LoggerTs.level_name l2))
              (LoggerTs.indexOf LoggerTs.LEVELS (LoggerTs.minLevel lg))); [lia|done].
Qed.

Lemma level_filter_is_monotone_witness :
  LoggerTs.channel (LoggerTs.log (LoggerTs.mk "warn" ∅ []) error "boom" None)
  = [LoggerTs.mkEntry error "boom" None].
Proof.
  apply (level_filter_is_monotone (LoggerTs.mk "warn" ∅ []) warn error "careful" "boom"
           None None).
  - vm_compute. discriminate.
  - discriminate.
Defined.

Lemma timeEnd_timer_gone lg label now :
  LoggerTs.timers (LoggerTs.timeEnd lg label now) !! label = None.
Proof.
  unfold LoggerTs.timeEnd. destruct (LoggerTs.timers lg !! label) eqn:E; [|done].
  cbn. apply lookup_delete_eq.
Qed.

(** X28. [timeEnd] uses a timer up: after it the label has no timer, the
    timers of other labels are as they were, at most one line has been
    added, and a second [timeEnd] of the label changes nothing. *)
Theorem timeEnd_uses_the_timer_up lg label now now' :
  let lg' := LoggerTs.timeEnd lg label now in
  LoggerTs.timers lg' !! label = None
  ∧ (∀ l, l ≠ label → LoggerTs.timers lg' !! l = LoggerTs.timers lg !! l)
  ∧ (∃ added, LoggerTs.channel lg' = (LoggerTs.channel lg ++ added)%list
              ∧ (length added ≤ 1)%nat)
  ∧ LoggerTs.timeEnd lg' label now' = lg'.
Proof.
  intros lg'.
  assert (Hgone : LoggerTs.timers lg' !! label = None) by apply timeEnd_timer_gone.
  split; [exact Hgone|]. split; [|split].
  - intros l Hl. subst lg'. unfold LoggerTs.timeEnd.
    destruct (LoggerTs.timers lg !! label); [|done].
    cbn. rewrite lookup_delete_ne by done.
    unfold LoggerTs.log. by destruct (Z.ltb _ _).
  - subst lg'. unfold LoggerTs.timeEnd.
    destruct (LoggerTs.timers lg !! label);
      [|exists []; split; [by rewrite app_nil_r|cbn; lia]].
    cbn. unfold LoggerTs.log. destruct (Z.ltb _ _); cbn.
    + exists []. split; [by rewrite app_nil_r|cbn; lia].
    + eexists [_]. split; [reflexivity|cbn; lia].
  - unfold LoggerTs.timeEnd at 1. by rewrite Hgone.
Qed.

(** X29. A timer started with [time] and ended with [timeEnd] logs, at
    level [info], the difference of the two clock readings, and leaves the
    timers as they were without that label. *)
Theorem time_then_timeEnd_logs_the_duration lg label t0 t1 :
  LoggerTs.timeEnd (LoggerTs.time lg label t0) label t1
  = LoggerTs.mk (LoggerTs.minLevel lg) (delete label (LoggerTs.timers lg))
      (LoggerTs.channel
         (LoggerTs.log lg info ("Timer '" +:+ label +:+ "' ended") (Some (t1 - t0)%Z))).
Proof.
  unfold LoggerTs.timeEnd, LoggerTs.time. cbn [LoggerTs.timers].
  rewrite lookup_insert_eq. unfold LoggerTs.log. cbn [LoggerTs.minLevel LoggerTs.timers LoggerTs.channel].
  destruct (Z.ltb _ _); cbn; by rewrite delete_insert_eq.
Qed.
